(** * structurehub: payload decoder, battery curve and BLE ingestion worker

    A shallow embedding of
      - [monitor/decode_payload.py]   (the V2 / V3A / V4 manufacturer-data decoder),
      - [monitor/battery.py]          (the voltage-to-percent curve),
      - [monitor/management/commands/ble_worker.py]
                                      (dedup cache, bounded queue, batch flush),
    followed by the properties of the specification stated over it, and by
    further properties of the same code: round trips through [struct],
    the payloads the decoder and the worker accept, the callback on every
    kind of event, the queue bound, the writer's accounting, shutdown, and
    the anchors and saturation of the battery curve.

    Conventions.
      - A Python [bytes] value is a [list byte].
      - A Python [int] is a [Z]; a Python [float] is a rational ([Q]).  In
        the decoder and the worker, which only scale, store and compare
        floats, arithmetic is exact ([x / 100.0] is the exact quotient).  The
        battery curve, whose result depends on the arithmetic, takes the
        rounding applied after each operation as a parameter.
      - A Python call that may raise returns [py A]: [Ret a] or [Raise e].
      - The insertion-ordered [dict] used as the dedup cache is an association
        list in insertion order; the [manufacturer_data] mapping, whose order
        never matters, is a [gmap]. *)

From Stdlib Require Import ZArith QArith Qminmax Qround Lqa List Ascii String Lia.
From Stdlib.Strings Require Import Byte.
From stdpp Require Import base option list gmap strings.

Import ListNotations.
Local Open Scope Z_scope.

(** ** Python results: a value or a raised exception *)

Module Py.

(** The exception classes the embedded code can meet.  [CancelledError] and
    [KeyboardInterrupt] derive from [BaseException] only, the others from
    [Exception]; [except Exception] tells them apart. *)
Inductive exn : Type :=
| StructError (msg : string)
| ValueError (msg : string)
| StopIteration
| QueueFull
| ZeroDivisionError
| DatabaseError (msg : string)
| CancelledError
| KeyboardInterrupt.

Definition is_Exception (e : exn) : bool :=
  match e with
  | CancelledError | KeyboardInterrupt => false
  | _ => true
  end.

Inductive py (A : Type) : Type :=
| Ret (a : A)
| Raise (e : exn).
Arguments Ret {A} a.
Arguments Raise {A} e.

Definition bind {A B} (k : A -> py B) (m : py A) : py B :=
  match m with
  | Ret a => k a
  | Raise e => Raise e
  end.

End Py.
Export Py.

(** [py] is a monad in stdpp's sense: [x ← m; k] sequences two calls and
    lets an exception of the first one pass through. *)
#[export] Instance py_ret : MRet py := fun A a => Ret a.
#[export] Instance py_bind : MBind py := fun A B k m => Py.bind k m.

(** ** Python built-ins on numbers *)

Definition Qlt_bool (x y : Q) : bool := negb (Qle_bool y x).

(** Python's [max(a, b)] and [min(a, b)] on numbers: the first argument
    wins unless the second is strictly larger (smaller). *)
Definition py_max (a b : Q) : Q := if Qlt_bool a b then b else a.
Definition py_min (a b : Q) : Q := if Qlt_bool b a then b else a.

(** ** [struct]: little-endian, unpadded formats ("<...") *)

Module Struct.

Definition bytes := list byte.

(** The format characters the decoder uses. *)
Inductive code : Type :=
| H   (* unsigned short, 2 bytes *)
| h   (* signed short,   2 bytes *)
| B   (* unsigned char,  1 byte  *)
| I.  (* unsigned int,   4 bytes *)

Definition size (c : code) : nat :=
  match c with
  | H | h => 2
  | B => 1
  | I => 4
  end.

(** [struct.calcsize] of a "<" format: no alignment, sizes add up. *)
Definition calcsize (fmt : list code) : nat :=
  foldr (fun c n => (size c + n)%nat) 0%nat fmt.

Definition byte_val (b : byte) : Z := Z.of_N (Byte.to_N b).

(** Little-endian unsigned value of a byte string. *)
Fixpoint le_uint (bs : bytes) : Z :=
  match bs with
  | [] => 0
  | b :: rest => Z.lor (byte_val b) (Z.shiftl (le_uint rest) 8)
  end.

(** Two's complement reading of a [w]-bit unsigned value. *)
Definition to_signed (w : Z) (u : Z) : Z :=
  if Z.testbit u (w - 1) then u - Z.shiftl 1 w else u.

Definition read (c : code) (bs : bytes) : Z :=
  match c with
  | h => to_signed 16 (le_uint bs)
  | H | B | I => le_uint bs
  end.

(** The fields of [buf] in format order; the caller has checked the length. *)
Fixpoint fields (fmt : list code) (buf : bytes) : list Z :=
  match fmt with
  | [] => []
  | c :: fmt' => read c (take (size c) buf) :: fields fmt' (drop (size c) buf)
  end.

(** [struct.unpack(fmt, buf)]: the buffer must have exactly [calcsize fmt]
    bytes, else [struct.error]. *)
Definition unpack (fmt : list code) (buf : bytes) : py (list Z) :=
  if Nat.eqb (length buf) (calcsize fmt)
  then Ret (fields fmt buf)
  else Raise (StructError "unpack requires a buffer of calcsize bytes").

(** [struct.unpack_from(fmt, buf, offset)]: at least [calcsize fmt] bytes
    must remain after [offset], else [struct.error]. *)
Definition unpack_from (fmt : list code) (buf : bytes) (offset : nat) : py (list Z) :=
  if Nat.leb (offset + calcsize fmt) (length buf)
  then Ret (fields fmt (drop offset buf))
  else Raise (StructError "unpack_from requires a larger buffer").

End Struct.
Export Struct.

(** ** [monitor/decode_payload.py] *)

Definition COMPANY_ID : Z := 0xFFFF.
Definition PROTOCOL_V2 : Z := 0x0002.
Definition PROTOCOL_V3A : Z := 0x0003.
Definition PROTOCOL_V4 : Z := 0x0004.

(** [_FMT_V2 = "<H H h H H H H H I I"] *)
Definition _FMT_V2 : list code := [H; H; h; H; H; H; H; H; I; I].
Definition _LEN_V2 : nat := calcsize _FMT_V2.

(** [_FMT_V3A = "<H H h H H H H H H H B B H h"] *)
Definition _FMT_V3A : list code := [H; H; h; H; H; H; H; H; H; H; B; B; H; h].
Definition _LEN_V3A : nat := calcsize _FMT_V3A.

(** [_FMT_V4_NOPREFIX = "<H B h H H H H H H H B B H h"] *)
Definition _FMT_V4_NOPREFIX : list code := [H; B; h; H; H; H; H; H; H; H; B; B; H; h].
Definition _LEN_V4_NOPREFIX : nat := calcsize _FMT_V4_NOPREFIX.

(** [_FMT_V4_PREFIXED = "<H " + _FMT_V4_NOPREFIX[1:]] *)
Definition _FMT_V4_PREFIXED : list code := H :: _FMT_V4_NOPREFIX.
Definition _LEN_V4_PREFIXED : nat := calcsize _FMT_V4_PREFIXED.

(** [float(x) / d] for an integer [x] and a positive constant [d]. *)
Definition float_div (x : Z) (d : positive) : Q := Qmake x d.

Record DecodedV2 : Type := mkDecodedV2 {
  v2_protocol : Z;
  v2_temp_c : Q;
  v2_hum_pct : Q;
  v2_press_hpa : Q;
  v2_batt_mv : Z;
  v2_flags : Z;
  v2_seq : Z;
  v2_motion0 : Z;
  v2_motion1 : Z
}.

Record DecodedV3A : Type := mkDecodedV3A {
  v3_protocol : Z;
  v3_temp_c : Q;
  v3_hum_pct : Q;
  v3_press_hpa : Q;
  v3_batt_mv : Z;
  v3_flags : Z;
  v3_seq : Z;
  v3_motion0 : Z;
  v3_motion1 : Z;
  v3_batt_pct : Z;
  v3_uptime_min : Z;
  v3_dew_point_c : Q
}.

Record DecodedV4 : Type := mkDecodedV4 {
  v4_protocol : Z;
  v4_location : Z;
  v4_temp_c : Q;
  v4_hum_pct : Q;
  v4_press_hpa : Q;
  v4_batt_mv : Z;
  v4_flags : Z;
  v4_seq : Z;
  v4_motion0 : Z;
  v4_motion1 : Z;
  v4_batt_pct : Z;
  v4_uptime_min : Z;
  v4_dew_point_c : Q
}.

(** [DecodedAny = Union[DecodedV2, DecodedV3A, DecodedV4]] *)
Inductive DecodedAny : Type :=
| IsV2 (d : DecodedV2)
| IsV3A (d : DecodedV3A)
| IsV4 (d : DecodedV4).

(** Tuple assignment from an unpacked list: a wrong arity is a [ValueError]. *)
Definition arity_error {A} : py A := Raise (ValueError "wrong number of values to unpack").

(** The body shared by the two V4 branches, after [struct.unpack]. *)
Definition build_v4 (protocol location tempC_x100 hum_x100 press_x10 batt_mv flags seq
                     motion0 motion1 batt_pct uptime_min dewPointC_x100 : Z) : DecodedV4 :=
  let location := if 3 <? location then 3 else location in
  {| v4_protocol := protocol;
     v4_location := location;
     v4_temp_c := float_div tempC_x100 100;
     v4_hum_pct := float_div hum_x100 100;
     v4_press_hpa := float_div press_x10 10;
     v4_batt_mv := batt_mv;
     v4_flags := flags;
     v4_seq := seq;
     v4_motion0 := motion0;
     v4_motion1 := motion1;
     v4_batt_pct := batt_pct;
     v4_uptime_min := uptime_min;
     v4_dew_point_c := float_div dewPointC_x100 100 |}.

(** V4 without the company-id prefix (source lines 104-128). *)
Definition decode_v4_noprefix (mfg : bytes) : py (option DecodedAny) :=
  vs ← unpack _FMT_V4_NOPREFIX mfg;
  match vs with
  | [protocol; location; tempC_x100; hum_x100; press_x10; batt_mv; flags; seq;
     motion0; motion1; batt_pct; _rsv0; uptime_min; dewPointC_x100] =>
      Ret (Some (IsV4 (build_v4 protocol location tempC_x100 hum_x100 press_x10 batt_mv
                         flags seq motion0 motion1 batt_pct uptime_min dewPointC_x100)))
  | _ => arity_error
  end.

(** V4 with the company-id prefix (source lines 140-164). *)
Definition decode_v4_prefixed (mfg : bytes) : py (option DecodedAny) :=
  vs ← unpack _FMT_V4_PREFIXED mfg;
  match vs with
  | [company; protocol; location; tempC_x100; hum_x100; press_x10; batt_mv; flags; seq;
     motion0; motion1; batt_pct; _rsv0; uptime_min; dewPointC_x100] =>
      Ret (Some (IsV4 (build_v4 protocol location tempC_x100 hum_x100 press_x10 batt_mv
                         flags seq motion0 motion1 batt_pct uptime_min dewPointC_x100)))
  | _ => arity_error
  end.

(** V2 (source lines 168-186). *)
Definition decode_v2 (mfg : bytes) : py (option DecodedAny) :=
  if negb (Nat.eqb (length mfg) _LEN_V2) then Ret None else
  vs ← unpack _FMT_V2 mfg;
  match vs with
  | [company; protocol; tempC_x100; hum_x100; press_x10; batt_mv; flags; seq;
     motion0; motion1] =>
      Ret (Some (IsV2 {| v2_protocol := protocol;
                         v2_temp_c := float_div tempC_x100 100;
                         v2_hum_pct := float_div hum_x100 100;
                         v2_press_hpa := float_div press_x10 10;
                         v2_batt_mv := batt_mv;
                         v2_flags := flags;
                         v2_seq := seq;
                         v2_motion0 := motion0;
                         v2_motion1 := motion1 |}))
  | _ => arity_error
  end.

(** V3A (source lines 190-212). *)
Definition decode_v3a (mfg : bytes) : py (option DecodedAny) :=
  if negb (Nat.eqb (length mfg) _LEN_V3A) then Ret None else
  vs ← unpack _FMT_V3A mfg;
  match vs with
  | [company; protocol; tempC_x100; hum_x100; press_x10; batt_mv; flags; seq;
     motion0; motion1; batt_pct; _rsv0; uptime_min; dewPointC_x100] =>
      Ret (Some (IsV3A {| v3_protocol := protocol;
                          v3_temp_c := float_div tempC_x100 100;
                          v3_hum_pct := float_div hum_x100 100;
                          v3_press_hpa := float_div press_x10 10;
                          v3_batt_mv := batt_mv;
                          v3_flags := flags;
                          v3_seq := seq;
                          v3_motion0 := motion0;
                          v3_motion1 := motion1;
                          v3_batt_pct := batt_pct;
                          v3_uptime_min := uptime_min;
                          v3_dew_point_c := float_div dewPointC_x100 100 |}))
  | _ => arity_error
  end.

(** The branches that expect a leading company id (source lines 130-214). *)
Definition decode_prefixed (mfg : bytes) : py (option DecodedAny) :=
  if Nat.ltb (length mfg) 4 then Ret None else
  cp ← unpack_from [H; H] mfg 0;
  match cp with
  | [company; proto] =>
      if negb (company =? COMPANY_ID) then Ret None
      else if (proto =? PROTOCOL_V4) && Nat.eqb (length mfg) _LEN_V4_PREFIXED
      then decode_v4_prefixed mfg
      else if proto =? PROTOCOL_V2 then decode_v2 mfg
      else if proto =? PROTOCOL_V3A then decode_v3a mfg
      else Ret None
  | _ => arity_error
  end.

(** [decode_payload(mfg)]: [Ret None] is Python's [return None]. *)
Definition decode_payload (mfg : bytes) : py (option DecodedAny) :=
  if Nat.ltb (length mfg) 2 then Ret None else
  if Nat.eqb (length mfg) _LEN_V4_NOPREFIX then
    p ← unpack_from [H] mfg 0;
    match p with
    | [proto] =>
        if proto =? PROTOCOL_V4 then decode_v4_noprefix mfg
        else decode_prefixed mfg
    | _ => arity_error
    end
  else decode_prefixed mfg.

(** The 16-bit little-endian word at byte offset [off]. *)
Definition u16_at (mfg : bytes) (off : nat) : Z := le_uint (take 2 (drop off mfg)).

(** Every path through [decode_payload], with the conditions under which it
    is taken and the shape of what it returns. *)
Inductive decode_case (mfg : bytes) : py (option DecodedAny) -> Prop :=
| case_too_short :
    (length mfg < 2)%nat ->
    decode_case mfg (Ret None)
| case_v4_noprefix d :
    length mfg = 25%nat -> u16_at mfg 0 = PROTOCOL_V4 ->
    decode_case mfg (Ret (Some (IsV4 d)))
| case_no_header :
    (2 <= length mfg < 4)%nat ->
    decode_case mfg (Ret None)
| case_other_company :
    (4 <= length mfg)%nat -> u16_at mfg 0 <> COMPANY_ID ->
    (length mfg = 25%nat -> u16_at mfg 0 <> PROTOCOL_V4) ->
    decode_case mfg (Ret None)
| case_v4_prefixed d :
    length mfg = 27%nat -> u16_at mfg 0 = COMPANY_ID -> u16_at mfg 2 = PROTOCOL_V4 ->
    decode_case mfg (Ret (Some (IsV4 d)))
| case_v2 d :
    length mfg = 24%nat -> u16_at mfg 0 = COMPANY_ID -> u16_at mfg 2 = PROTOCOL_V2 ->
    decode_case mfg (Ret (Some (IsV2 d)))
| case_v2_length :
    (4 <= length mfg)%nat -> length mfg <> 24%nat ->
    u16_at mfg 0 = COMPANY_ID -> u16_at mfg 2 = PROTOCOL_V2 ->
    decode_case mfg (Ret None)
| case_v3a d :
    length mfg = 26%nat -> u16_at mfg 0 = COMPANY_ID -> u16_at mfg 2 = PROTOCOL_V3A ->
    decode_case mfg (Ret (Some (IsV3A d)))
| case_v3a_length :
    (4 <= length mfg)%nat -> length mfg <> 26%nat ->
    u16_at mfg 0 = COMPANY_ID -> u16_at mfg 2 = PROTOCOL_V3A ->
    decode_case mfg (Ret None)
| case_unknown :
    (4 <= length mfg)%nat -> u16_at mfg 0 = COMPANY_ID ->
    u16_at mfg 2 <> PROTOCOL_V2 -> u16_at mfg 2 <> PROTOCOL_V3A ->
    (u16_at mfg 2 = PROTOCOL_V4 -> length mfg <> 27%nat) ->
    decode_case mfg (Ret None).

(** ** [monitor/battery.py]

    A Python [float] operation is the exact operation followed by rounding
    to the nearest binary64 number.  The curve is embedded over the
    rationals with that rounding as a parameter [rnd]: [rnd := fun x => x]
    gives exact arithmetic, and everything proved below needs only that
    [rnd] is monotone and leaves small multiples of 1/64 unchanged, which
    round-to-nearest does. *)

Module Battery.

Section arithmetic.

Context (rnd : Q -> Q).

Definition fadd (x y : Q) : Q := rnd (x + y).
Definition fsub (x y : Q) : Q := rnd (x - y).
Definition fmul (x y : Q) : Q := rnd (x * y).

(** [x / y] raises [ZeroDivisionError] on a zero divisor. *)
Definition fdiv (x y : Q) : py Q :=
  if Qeq_bool y 0 then Raise ZeroDivisionError else Ret (rnd (x / y)).

(** A decimal literal, and [float(n)] of an integer. *)
Definition flit (q : Q) : Q := rnd q.
Definition of_int (n : Z) : Q := rnd (inject_Z n).

(** [int(x)]: truncation toward zero. *)
Definition to_int (x : Q) : Z := Z.quot (Qnum x) (Z.pos (Qden x)).

(** [clamp(v, lo, hi) = max(lo, min(hi, v))] *)
Definition clamp (v lo hi : Q) : Q := py_max lo (py_min hi v).

(** [lerp(a, b, t) = a + (b - a) * t] *)
Definition lerp (a b t : Q) : Q := fadd a (fmul (fsub b a) t).

Definition _CURVE : list (Q * Z) :=
  [ (flit (420 # 100), 100);
    (flit (410 # 100),  90);
    (flit (400 # 100),  80);
    (flit (392 # 100),  70);
    (flit (385 # 100),  60);
    (flit (379 # 100),  50);
    (flit (374 # 100),  40);
    (flit (370 # 100),  30);
    (flit (365 # 100),  20);
    (flit (355 # 100),  10);
    (flit (340 # 100),   5);
    (flit (330 # 100),   2);
    (flit (320 # 100),   0) ].

(** The body of the loop for the segment from [(av, ap)] down to [(bv, bp)]
    (source lines 41-45). *)
Definition interpolate (av : Q) (ap : Z) (bv : Q) (bp : Z) (v : Q) : py Z :=
  t ← fdiv (fsub av v) (fsub av bv);
  let pf := lerp (of_int ap) (of_int bp) t in
  let p := to_int (fadd pf (flit (1 # 2))) in
  Ret (Z.max 0 (Z.min 100 p)).

(** What [interpolate] feeds to [int]. *)
Definition before_int (av : Q) (ap : Z) (bv : Q) (bp : Z) (v : Q) : Q :=
  fadd (lerp (of_int ap) (of_int bp) (rnd (fsub av v / fsub av bv))) (flit (1 # 2)).

(** The loop over adjacent anchors: the first segment that brackets [v]
    decides; [None] when the loop ends without a [return]. *)
Fixpoint scan (curve : list (Q * Z)) (v : Q) : py (option Z) :=
  match curve with
  | [] => Ret None
  | (av, ap) :: rest =>
      match rest with
      | [] => Ret None
      | (bv, bp) :: _ =>
          if Qle_bool v av && Qle_bool bv v
          then p ← interpolate av ap bv bp v; Ret (Some p)
          else scan rest v
      end
  end.

(** [voltage_to_percent(v)] *)
Definition voltage_to_percent (v : Q) : py Z :=
  let v := clamp v (flit (320 # 100)) (flit (420 # 100)) in
  r ← scan _CURVE v;
  match r with
  | Some p => Ret p
  | None => Ret (if Qle_bool (flit (420 # 100)) v then 100 else 0)
  end.



End arithmetic.

(** A curve the loop can walk: voltages fall by at least 1/64 from one
    anchor to the next, percentages fall (weakly) and stay within 0..100. *)
Fixpoint well_formed (curve : list (Q * Z)) : Prop :=
  match curve with
  | [] => True
  | (av, ap) :: rest =>
      match rest with
      | [] => (0 <= ap <= 100)%Z
      | (bv, bp) :: _ =>
          (bv + (1 # 64) <= av)%Q /\ (bp <= ap <= 100)%Z /\ well_formed rest
      end
  end.

(** The last anchor. *)
Definition lowest (curve : list (Q * Z)) : Q * Z := List.last curve (0%Q, 0%Z).

(** Exact arithmetic. *)
Definition exact (x : Q) : Q := x.

End Battery.

(** ** [monitor/management/commands/ble_worker.py] *)

(** *** Insertion-ordered dictionary (the dedup cache)

    A Python [dict] iterates in insertion order, assigning to a present key
    keeps its place, and [next(iter(d))] is the oldest key still present. *)

Module Dict.

Definition t : Type := list (string * Z).

Definition len (d : t) : Z := Z.of_nat (length d).

(** [d.get(k)] *)
Fixpoint get (d : t) (k : string) : option Z :=
  match d with
  | [] => None
  | (k', v) :: rest => if String.eqb k' k then Some v else get rest k
  end.

(** [d[k] = v] *)
Fixpoint set (d : t) (k : string) (v : Z) : t :=
  match d with
  | [] => [(k, v)]
  | (k', v') :: rest =>
      if String.eqb k' k then (k', v) :: rest else (k', v') :: set rest k v
  end.

(** [d.pop(next(iter(d)))]: on an empty dictionary [next] raises
    [StopIteration]. *)
Definition pop_first (d : t) : py t :=
  match d with
  | [] => Raise StopIteration
  | _ :: rest => Ret rest
  end.

End Dict.

(** *** Events delivered by the scanner *)

(** A Bleak device: [address] (Linux) or [identifier] (macOS); a missing or
    [None] attribute is [None]. *)
Record Device : Type := mkDevice {
  address : option string;
  identifier : option string
}.

Record AdvertisementData : Type := mkAdvertisementData {
  manufacturer_data : option (gmap Z bytes);
  rssi : option Z
}.

(** Python's [a or b] on optional strings: the first one that is neither
    [None] nor empty. *)
Definition str_or (a : option string) (b : string) : string :=
  match a with
  | Some s => if String.eqb s "" then b else s
  | None => b
  end.

(** [_pick_address(device)] *)
Definition _pick_address (device : Device) : string :=
  str_or (address device) (str_or (identifier device) "").

Definition _COMPANY_ID : Z := 0xFFFF.

(** [int.to_bytes(n, "little")] for a value that fits. *)
Fixpoint to_bytes_little (v : Z) (n : nat) : bytes :=
  match n with
  | O => []
  | S n' =>
      default x00 (Byte.of_N (Z.to_N (Z.land v 0xFF)))
        :: to_bytes_little (Z.shiftr v 8) n'
  end.

(** [_COMPANY_PREFIX = (_COMPANY_ID & 0xFFFF).to_bytes(2, "little")] *)
Definition _COMPANY_PREFIX : bytes := to_bytes_little (Z.land _COMPANY_ID 0xFFFF) 2.

(** *** Rows, queue, sink and the state the closures of [_run] share *)

(** The keyword arguments a queued item gives to [Reading]; a key that is absent from
    the dictionary is [None]. *)
Record Row : Type := mkRow {
  row_source : string;
  row_rssi : Z;
  row_temp_c : Q;
  row_hum_pct : Q;
  row_press_hpa : Q;
  row_batt_mv : Z;
  row_flags : Z;
  row_seq : Z;
  row_motion0 : Z;
  row_motion1 : Z;
  row_batt_pct : option Z;
  row_uptime_min : option Z;
  row_dew_point_c : option Q;
  row_location : option Z
}.

(** What the command writes to its output streams. *)
Inductive LogLine : Type :=
| LogUndecoded (source : string) (rssi : option Z) (mfg_len : nat) (first8 : bytes)
| LogDupDrop (source : string) (seq : Z)
| LogQueueFull
| LogOk (row : Row) (raw_len : nat)
| LogWrote (n : nat)
| LogDbError (e : exn).

(** The options of the command, as [_run] receives them. *)
Record Options : Type := mkOptions {
  queue_max : Z;
  batch_size : Z;
  flush_ms : Z;
  debug : bool;
  max_seq_cache : Z
}.

Record State : Type := mkState {
  q : list Row;                 (* asyncio.Queue, oldest first *)
  unfinished_tasks : Z;         (* the queue's count for join() *)
  last_seq_seen : Dict.t;
  buffer : list Row;
  last_flush : Q;
  db : list (list Row);         (* the bulk writes the sink has committed *)
  stdout : list LogLine;
  stderr : list LogLine
}.

(** The state [_run] starts from, at monotonic time [t0]. *)
Definition initial_state (t0 : Q) : State :=
  {| q := []; unfinished_tasks := 0; last_seq_seen := []; buffer := [];
     last_flush := t0; db := []; stdout := []; stderr := [] |}.

(** Code that reads and writes the shared state and may raise: the state
    reached so far survives the exception. *)
Definition pys (A : Type) : Type := State -> py A * State.

#[export] Instance pys_ret : MRet pys := fun A a st => (Ret a, st).
#[export] Instance pys_bind : MBind pys := fun A B k m st =>
  match m st with
  | (Ret a, st') => k a st'
  | (Raise e, st') => (Raise e, st')
  end.

Definition lift {A} (m : py A) : pys A := fun st => (m, st).
Definition gets {A} (f : State -> A) : pys A := fun st => (Ret (f st), st).
Definition modify (f : State -> State) : pys unit := fun st => (Ret tt, f st).
Definition when (b : bool) (m : pys unit) : pys unit := if b then m else mret tt.

Definition set_q (v : list Row) (st : State) : State :=
  {| q := v; unfinished_tasks := unfinished_tasks st; last_seq_seen := last_seq_seen st;
     buffer := buffer st; last_flush := last_flush st; db := db st;
     stdout := stdout st; stderr := stderr st |}.
Definition set_unfinished_tasks (v : Z) (st : State) : State :=
  {| q := q st; unfinished_tasks := v; last_seq_seen := last_seq_seen st;
     buffer := buffer st; last_flush := last_flush st; db := db st;
     stdout := stdout st; stderr := stderr st |}.
Definition set_last_seq_seen (v : Dict.t) (st : State) : State :=
  {| q := q st; unfinished_tasks := unfinished_tasks st; last_seq_seen := v;
     buffer := buffer st; last_flush := last_flush st; db := db st;
     stdout := stdout st; stderr := stderr st |}.
Definition set_buffer (v : list Row) (st : State) : State :=
  {| q := q st; unfinished_tasks := unfinished_tasks st; last_seq_seen := last_seq_seen st;
     buffer := v; last_flush := last_flush st; db := db st;
     stdout := stdout st; stderr := stderr st |}.
Definition set_last_flush (v : Q) (st : State) : State :=
  {| q := q st; unfinished_tasks := unfinished_tasks st; last_seq_seen := last_seq_seen st;
     buffer := buffer st; last_flush := v; db := db st;
     stdout := stdout st; stderr := stderr st |}.
Definition set_db (v : list (list Row)) (st : State) : State :=
  {| q := q st; unfinished_tasks := unfinished_tasks st; last_seq_seen := last_seq_seen st;
     buffer := buffer st; last_flush := last_flush st; db := v;
     stdout := stdout st; stderr := stderr st |}.
Definition write_stdout (l : LogLine) : pys unit := modify (fun st =>
  {| q := q st; unfinished_tasks := unfinished_tasks st; last_seq_seen := last_seq_seen st;
     buffer := buffer st; last_flush := last_flush st; db := db st;
     stdout := stdout st ++ [l]; stderr := stderr st |}).
Definition write_stderr (l : LogLine) : pys unit := modify (fun st =>
  {| q := q st; unfinished_tasks := unfinished_tasks st; last_seq_seen := last_seq_seen st;
     buffer := buffer st; last_flush := last_flush st; db := db st;
     stdout := stdout st; stderr := stderr st ++ [l] |}).

(** [try: body except <classes> as e: handler(e)] *)
Definition try_except {A} (body : pys A) (catches : exn -> bool) (handler : exn -> pys A)
  : pys A := fun st =>
  match body st with
  | (Raise e, st') => if catches e then handler e st' else (Raise e, st')
  | r => r
  end.

(** [try: body finally: final]: [final] runs either way, and an exception
    of [body] is raised again after it. *)
Definition try_finally {A} (body : pys A) (final : pys unit) : pys A := fun st =>
  match body st with
  | (r, st') =>
      match final st' with
      | (Ret _, st'') => (r, st'')
      | (Raise e, st'') => (Raise e, st'')
      end
  end.

(** Accessors shared by the three reading classes. *)
Definition d_seq (d : DecodedAny) : Z :=
  match d with IsV2 r => v2_seq r | IsV3A r => v3_seq r | IsV4 r => v4_seq r end.
Definition d_temp_c (d : DecodedAny) : Q :=
  match d with IsV2 r => v2_temp_c r | IsV3A r => v3_temp_c r | IsV4 r => v4_temp_c r end.
Definition d_hum_pct (d : DecodedAny) : Q :=
  match d with IsV2 r => v2_hum_pct r | IsV3A r => v3_hum_pct r | IsV4 r => v4_hum_pct r end.
Definition d_press_hpa (d : DecodedAny) : Q :=
  match d with
  | IsV2 r => v2_press_hpa r | IsV3A r => v3_press_hpa r | IsV4 r => v4_press_hpa r
  end.
Definition d_batt_mv (d : DecodedAny) : Z :=
  match d with IsV2 r => v2_batt_mv r | IsV3A r => v3_batt_mv r | IsV4 r => v4_batt_mv r end.
Definition d_flags (d : DecodedAny) : Z :=
  match d with IsV2 r => v2_flags r | IsV3A r => v3_flags r | IsV4 r => v4_flags r end.
Definition d_motion0 (d : DecodedAny) : Z :=
  match d with IsV2 r => v2_motion0 r | IsV3A r => v3_motion0 r | IsV4 r => v4_motion0 r end.
Definition d_motion1 (d : DecodedAny) : Z :=
  match d with IsV2 r => v2_motion1 r | IsV3A r => v3_motion1 r | IsV4 r => v4_motion1 r end.

(** The row [on_detect] builds (source lines 185-211): the common keys, the
    V3A/V4 extras, the V4 location. *)
Definition make_row (source : string) (rssi : option Z) (decoded : DecodedAny) : Row :=
  {| row_source := source;
     row_rssi := default 0 rssi;
     row_temp_c := d_temp_c decoded;
     row_hum_pct := d_hum_pct decoded;
     row_press_hpa := d_press_hpa decoded;
     row_batt_mv := d_batt_mv decoded;
     row_flags := d_flags decoded;
     row_seq := d_seq decoded;
     row_motion0 := d_motion0 decoded;
     row_motion1 := d_motion1 decoded;
     row_batt_pct :=
       match decoded with
       | IsV3A r => Some (v3_batt_pct r) | IsV4 r => Some (v4_batt_pct r) | IsV2 _ => None
       end;
     row_uptime_min :=
       match decoded with
       | IsV3A r => Some (v3_uptime_min r) | IsV4 r => Some (v4_uptime_min r) | IsV2 _ => None
       end;
     row_dew_point_c :=
       match decoded with
       | IsV3A r => Some (v3_dew_point_c r) | IsV4 r => Some (v4_dew_point_c r)
       | IsV2 _ => None
       end;
     row_location :=
       match decoded with IsV4 r => Some (v4_location r) | _ => None end |}.

(** [_decode_from_mfg_value(mfg_value)]: the payload as delivered, then with
    the company prefix put back. *)
Definition _decode_from_mfg_value (mfg_value : bytes) : py (option DecodedAny * nat) :=
  let raw := mfg_value in
  d ← decode_payload raw;
  match d with
  | Some _ => Ret (d, length raw)
  | None =>
      let prefixed := _COMPANY_PREFIX ++ raw in
      d ← decode_payload prefixed;
      match d with
      | Some _ => Ret (d, length prefixed)
      | None => Ret (None, length raw)
      end
  end.

Section run.

Context (opts : Options).

(** [flush_interval = max(0.05, flush_ms / 1000.0)] (line 68) *)
Definition flush_interval : Q := py_max (5 # 100) (float_div (flush_ms opts) 1000).


(** [_remember_seq(source, seq)] *)
Definition _remember_seq (source : string) (seq : Z) : pys unit :=
  d ← gets last_seq_seen;
  d ← (if max_seq_cache opts <? Dict.len d then lift (Dict.pop_first d) else mret d);
  modify (set_last_seq_seen (Dict.set d source seq)).

(** [_is_duplicate(source, seq)] *)
Definition _is_duplicate (source : string) (seq : Z) : pys bool :=
  prev ← gets (fun st => Dict.get (last_seq_seen st) source);
  mret (match prev with
        | Some prev => prev =? seq
        | None => false
        end).

(** [q.full()]: a queue made with [maxsize <= 0] is never full. *)
Definition q_full (st : State) : bool :=
  if queue_max opts <=? 0 then false
  else queue_max opts <=? Z.of_nat (length (q st)).

(** [q.put_nowait(row)] *)
Definition put_nowait (row : Row) : pys unit := fun st =>
  if q_full st then (Raise QueueFull, st)
  else (Ret tt, set_unfinished_tasks (unfinished_tasks st + 1) (set_q (q st ++ [row]) st)).

(** [q.task_done()] *)
Definition task_done : pys unit := fun st =>
  if unfinished_tasks st <=? 0
  then (Raise (ValueError "task_done() called too many times"), st)
  else (Ret tt, set_unfinished_tasks (unfinished_tasks st - 1) st).

Definition is_QueueFull (e : exn) : bool :=
  match e with QueueFull => true | _ => false end.

(** Source lines 177-235 of [on_detect]: dedup, remember, enqueue. *)
Definition on_decoded (source : string) (rssi : option Z) (decoded : DecodedAny)
    (raw_len : nat) : pys unit :=
  let seq := d_seq decoded in
  dup ← _is_duplicate source seq;
  if dup : bool then when (debug opts) (write_stdout (LogDupDrop source seq))
  else
    _remember_seq source seq;;
    let row := make_row source rssi decoded in
    queued ← try_except (put_nowait row;; mret true) is_QueueFull
                (fun _ => when (debug opts) (write_stderr LogQueueFull);; mret false);
    if queued : bool then when (debug opts) (write_stdout (LogOk row raw_len))
    else mret tt.

(** [on_detect(device, advertisement_data)]: the scanner's callback. *)
Definition on_detect (device : Device) (advertisement_data : AdvertisementData)
  : pys unit :=
  let md := default ∅ (manufacturer_data advertisement_data) in
  match md !! _COMPANY_ID with
  | None | Some [] => mret tt
  | Some mfg =>
      let source := _pick_address device in
      if String.eqb source "" then mret tt
      else
        let rssi := rssi advertisement_data in
        r ← lift (_decode_from_mfg_value mfg);
        match r with
        | (None, _) =>
            when (debug opts)
              (write_stdout (LogUndecoded source rssi (length mfg) (take 8 mfg)))
        | (Some decoded, raw_len) => on_decoded source rssi decoded raw_len
        end
  end.

(** The first half of [flush_buffer_if_needed] (lines 83-94), up to the
    [await]: it decides whether to flush and, if so, takes the batch out of
    the buffer and restarts the timer.  [Some rows] is the batch to write. *)
Definition flush_take (force : bool) (now : Q) : pys (option (list Row)) :=
  buf ← gets buffer;
  lf ← gets last_flush;
  match buf with
  | [] => modify (set_last_flush now);; mret None
  | _ :: _ =>
      if negb force
         && (Z.of_nat (length buf) <? batch_size opts)
         && Qlt_bool (now - lf) flush_interval
      then mret None
      else
        let rows := buf in      (* one [Reading] per item of the buffer *)
        modify (set_buffer []);;
        modify (set_last_flush now);;
        mret (Some rows)
  end.

(** The second half (lines 96-105): the bulk write in one transaction and
    its [try]/[except Exception].  [bulk_create] is the sink's answer to
    this write: [Ret tt] commits the rows, an exception rolls back. *)
Definition flush_write (bulk_create : list Row -> py unit) (rows : list Row) : pys unit :=
  try_except
    (lift (bulk_create rows);;
     modify (fun st => set_db (db st ++ [rows]) st);;
     when (debug opts) (write_stdout (LogWrote (length rows))))
    is_Exception
    (fun e => write_stderr (LogDbError e)).

(** [flush_buffer_if_needed(force)] called at monotonic time [now]. *)
Definition flush_buffer_if_needed (force : bool) (now : Q)
    (bulk_create : list Row -> py unit) : pys unit :=
  taken ← flush_take force now;
  match taken with
  | None => mret tt
  | Some rows => flush_write bulk_create rows
  end.

(** One turn of the loop of [db_writer], entered when the wait of line 110
    ends: with an empty queue it ended in [TimeoutError], otherwise
    [q.get()] returned the oldest item. *)
Definition db_writer_turn (now : Q) (bulk_create : list Row -> py unit) : pys unit :=
  items ← gets q;
  match items with
  | [] => flush_buffer_if_needed false now bulk_create
  | item :: rest =>
      modify (set_q rest);;
      try_finally
        (modify (fun st => set_buffer (buffer st ++ [item]) st);;
         flush_buffer_if_needed false now bulk_create)
        task_done
  end.

End run.

(** What can happen to the shared state while the worker runs.  The event
    loop runs one callback or task at a time and changes hands only at an
    [await].  A step is either a whole callback, writer turn or flush, or one
    of the pieces between two [await]s of a turn or flush that other steps
    interrupt: taking the batch, finishing the write, receiving an item,
    [task_done]. *)
Inductive step (opts : Options) : State -> State -> Prop :=
| step_on_detect device advertisement_data st :
    (* the scanner calls [on_detect] *)
    step opts st (on_detect opts device advertisement_data st).2
| step_db_writer now bulk_create st :
    (* a turn of [db_writer] *)
    step opts st (db_writer_turn opts now bulk_create st).2
| step_flush force now bulk_create st :
    (* [_run]: every second with [force=False], at shutdown with [force=True] *)
    step opts st (flush_buffer_if_needed opts force now bulk_create st).2
| step_flush_take force now st :
    (* a flush up to its [await] *)
    step opts st (flush_take opts force now st).2
| step_flush_write bulk_create rows st :
    (* a flush from its [await] on *)
    step opts st (flush_write opts bulk_create rows st).2
| step_get item rest st :
    (* [db_writer] receives an item and appends it *)
    q st = item :: rest ->
    step opts st (set_buffer (buffer st ++ [item]) (set_q rest st))
| step_task_done st :
    (* the [finally] of [db_writer] *)
    step opts st (task_done st).2.

Definition reachable (opts : Options) (st : State) : Prop :=
  exists t0, rtc (step opts) (initial_state t0) st.

(** An advertisement from which [on_detect] extracts a reading: it has
    manufacturer data under the company id, a source address, and a payload
    that decodes. *)
Definition carries (device : Device) (advertisement_data : AdvertisementData)
    (source : string) (decoded : DecodedAny) : Prop :=
  exists mfg raw_len,
    default ∅ (manufacturer_data advertisement_data) !! _COMPANY_ID = Some mfg /\
    mfg <> [] /\
    _pick_address device = source /\
    source <> ""%string /\
    _decode_from_mfg_value mfg = Ret (Some decoded, raw_len).

(** *** Relations between states *)

(** [st'] differs from [st] at most in what was written to the output streams. *)
Definition same_but_logs (st st' : State) : Prop :=
  q st' = q st /\ unfinished_tasks st' = unfinished_tasks st /\
  last_seq_seen st' = last_seq_seen st /\ buffer st' = buffer st /\
  last_flush st' = last_flush st /\ db st' = db st.

(** [st'] has the batch buffer, the flush timer and the sink of [st]. *)
Definition same_batch (st st' : State) : Prop :=
  buffer st' = buffer st /\ last_flush st' = last_flush st /\ db st' = db st.

(** [st'] has the dedup cache of [st]. *)
Definition same_cache (st st' : State) : Prop :=
  last_seq_seen st' = last_seq_seen st.

(** *** Sample inputs *)

(** A V4 payload as Bleak delivers it (no company prefix): location 5,
    22.34 C, 55.22 %, 1013.2 hPa, 3700 mV, sequence 7. *)
Definition sample_v4 : bytes :=
  [ x04; x00;  x05;  xba; x08;  x92; x15;  x94; x27;  x74; x0e;
    x00; x00;  x07; x00;  x01; x00;  x02; x00;  x50; x00;  x0a; x00;  x10; x27 ].

Definition sample_v4_reading : DecodedAny :=
  IsV4 {| v4_protocol := 4; v4_location := 3;
          v4_temp_c := float_div 2234 100; v4_hum_pct := float_div 5522 100;
          v4_press_hpa := float_div 10132 10; v4_batt_mv := 3700;
          v4_flags := 0; v4_seq := 7; v4_motion0 := 1; v4_motion1 := 2;
          v4_batt_pct := 80; v4_uptime_min := 10;
          v4_dew_point_c := float_div 10000 100 |}.

Definition sample_advertisement : AdvertisementData :=
  {| manufacturer_data := Some {[ _COMPANY_ID := sample_v4 ]}; rssi := Some (-60) |}.

(** A family of pairwise different, non-empty source addresses. *)
Fixpoint nth_source (n : nat) : string :=
  match n with
  | O => "s"
  | S n' => String "x"%char (nth_source n')
  end.

Definition nth_device (n : nat) : Device :=
  {| address := Some (nth_source n); identifier := None |}.

Definition sample_options : Options :=
  {| queue_max := 2000; batch_size := 50; flush_ms := 500; debug := false;
     max_seq_cache := 1 |}.

(** The worker after two readings from two sources, with [max_seq_cache = 1]. *)
Definition after_two_sources : State :=
  (on_detect sample_options (nth_device 1) sample_advertisement
     (on_detect sample_options (nth_device 0) sample_advertisement
        (initial_state 0)).2).2.

(** A cache that last saw sequence 9 from the sample source. *)
Definition seen_nine : State :=
  set_last_seq_seen [(nth_source 0, 9)] (initial_state 0).

(** A worker holding one row in its buffer, and a sink that is down. *)
Definition one_row_buffered : State :=
  set_buffer [make_row (nth_source 0) (Some (-60)) sample_v4_reading] (initial_state 0).

Definition sink_down (rows : list Row) : py unit :=
  Raise (DatabaseError "database is locked").

(** The spec's example reading (tag 2, 22.34 C, 55.22 %, 1013.2 hPa, 3700 mV,
    sequence 7) in the V2 layout: 24 bytes. *)
Definition sample_v2 : bytes :=
  [ xff; xff;  x02; x00;  xba; x08;  x92; x15;  x94; x27;  x74; x0e;
    x00; x00;  x07; x00;  x00; x00; x00; x00;  x00; x00; x00; x00 ].

(** The same header followed by 22 bytes: 26 bytes in all. *)
Definition sample_v2_26 : bytes := sample_v2 ++ [x00; x00].

(** A worker whose queue of capacity one already holds a row. *)
Definition tiny_queue : Options :=
  {| queue_max := 1; batch_size := 50; flush_ms := 500; debug := false;
     max_seq_cache := 5000 |}.

Definition queue_at_capacity : State :=
  set_q [make_row (nth_source 1) (Some (-70)) sample_v4_reading] (initial_state 0).

(** A sink that accepts every write. *)
Definition sink_up (rows : list Row) : py unit := Ret tt.

(** ** [struct.pack], the library's inverse of [unpack]

    No function of the repository packs a payload (the sensor firmware
    does); [pack] states which buffers the decoder is the inverse of. *)

(** The values a format character accepts; others are a [struct.error]. *)
Definition in_range (c : code) (v : Z) : bool :=
  match c with
  | H => (0 <=? v) && (v <=? 0xFFFF)
  | h => (-0x8000 <=? v) && (v <=? 0x7FFF)
  | B => (0 <=? v) && (v <=? 0xFF)
  | I => (0 <=? v) && (v <=? 0xFFFFFFFF)
  end.

(** The bytes of one value, least significant first (two's complement). *)
Definition encode (c : code) (v : Z) : bytes := to_bytes_little v (size c).

(** [struct.pack(fmt, *values)] *)
Fixpoint pack (fmt : list code) (values : list Z) : py bytes :=
  match fmt, values with
  | [], [] => Ret []
  | c :: fmt', v :: values' =>
      if in_range c v
      then rest ← pack fmt' values'; Ret (encode c v ++ rest)
      else Raise (StructError "argument out of range")
  | _, _ => Raise (StructError "pack expected a different number of items")
  end.

(** A V3A buffer with a negative temperature and dew point: -5.23 C,
    55.22 %, 1013.2 hPa, 3700 mV, flags 1, sequence 65535, motion 12 and 3,
    30 %, uptime 1440 min, dew point -12.50 C. *)
Definition sample_v3a : bytes :=
  [ xff; xff;  x03; x00;  xf5; xfd;  x92; x15;  x94; x27;  x74; x0e;
    x01; x00;  xff; xff;  x0c; x00;  x03; x00;  x1e;  x00;  xa0; x05;  x1e; xfb ].

(** The loop of [db_writer] (lines 108-119) for as many turns as [nows] has
    times, the turn that ends its wait at time [now] running
    [db_writer_turn now].  An exception that leaves a turn ends the loop. *)
Fixpoint db_writer (opts : Options) (nows : list Q) (bulk_create : list Row -> py unit)
  : pys unit :=
  match nows with
  | [] => mret tt
  | now :: later =>
      db_writer_turn opts now bulk_create;;
      db_writer opts later bulk_create
  end.

(** An advertisement of another company (an iBeacon frame under 0x004C). *)
Definition foreign_advertisement : AdvertisementData :=
  {| manufacturer_data := Some {[ 0x004C := [x02; x15; x00; x01] ]}; rssi := Some (-48) |}.

(** The command started with [--max-seq-cache -1]. *)
Definition negative_cache : Options :=
  {| queue_max := 2000; batch_size := 50; flush_ms := 500; debug := false;
     max_seq_cache := -1 |}.

(** The sample V2 payload as Bleak delivers it: without the company bytes. *)
Definition sample_v2_stripped : bytes := drop 2 sample_v2.

Definition sample_v2_advertisement : AdvertisementData :=
  {| manufacturer_data := Some {[ _COMPANY_ID := sample_v2_stripped ]}; rssi := None |}.

(** A worker with two rows queued and one buffered, all counted. *)
Definition two_queued_one_buffered : State :=
  {| q := [make_row (nth_source 1) (Some (-70)) sample_v4_reading;
           make_row (nth_source 2) (Some (-71)) sample_v4_reading];
     unfinished_tasks := 2; last_seq_seen := [];
     buffer := [make_row (nth_source 0) (Some (-60)) sample_v4_reading];
     last_flush := 0; db := []; stdout := []; stderr := [] |}.

(** The rows the worker holds or has written, oldest first: the committed
    batches, then the buffer, then the queue. *)
Definition rows_held (st : State) : list Row := concat (db st) ++ buffer st ++ q st.

(** A sink that rejects every write. *)
Definition sink_rejects (rows : list Row) : py unit :=
  Raise (DatabaseError "disk full").

(** The same options with [--debug] set or cleared. *)
Definition with_debug (b : bool) (opts : Options) : Options :=
  {| queue_max := queue_max opts; batch_size := batch_size opts;
     flush_ms := flush_ms opts; debug := b; max_seq_cache := max_seq_cache opts |}.

(* ===================================================================== *)
(** * Properties *)
(* ===================================================================== *)

(** ** The decoder *)

Section struct_facts.

Lemma length_fields fmt buf : length (fields fmt buf) = length fmt.
Proof.
  revert buf; induction fmt as [|c fmt IH]; intros buf; simpl; [reflexivity|].
  now rewrite IH.
Qed.

Lemma unpack_exact fmt buf :
  length buf = calcsize fmt -> unpack fmt buf = Ret (fields fmt buf).
Proof.
  intros Hlen. unfold unpack. now rewrite Hlen, Nat.eqb_refl.
Qed.

Lemma unpack_raises fmt buf :
  length buf <> calcsize fmt -> exists e, unpack fmt buf = Raise e.
Proof.
  intros Hlen. unfold unpack.
  destruct (Nat.eqb_spec (length buf) (calcsize fmt)); [contradiction|eauto].
Qed.

Lemma unpack_from_enough fmt buf off :
  (off + calcsize fmt <= length buf)%nat ->
  unpack_from fmt buf off = Ret (fields fmt (drop off buf)).
Proof.
  intros Hlen. unfold unpack_from.
  destruct (Nat.leb_spec (off + calcsize fmt) (length buf)); [reflexivity|lia].
Qed.

End struct_facts.

Lemma LEN_V2_eq : _LEN_V2 = 24%nat.
Proof. reflexivity. Qed.

Lemma LEN_V3A_eq : _LEN_V3A = 26%nat.
Proof. reflexivity. Qed.

Lemma LEN_V4_NOPREFIX_eq : _LEN_V4_NOPREFIX = 25%nat.
Proof. reflexivity. Qed.

Lemma LEN_V4_PREFIXED_eq : _LEN_V4_PREFIXED = 27%nat.
Proof. reflexivity. Qed.

Lemma decode_v2_case mfg :
  (4 <= length mfg)%nat -> u16_at mfg 0 = COMPANY_ID -> u16_at mfg 2 = PROTOCOL_V2 ->
  decode_case mfg (decode_v2 mfg).
Proof.
  intros H4 Hc Hp. unfold decode_v2.
  destruct (Nat.eqb_spec (length mfg) _LEN_V2) as [Hlen|Hlen]; simpl.
  - rewrite (unpack_exact _ _ Hlen). simpl. now apply case_v2.
  - now apply case_v2_length.
Qed.

Lemma decode_v3a_case mfg :
  (4 <= length mfg)%nat -> u16_at mfg 0 = COMPANY_ID -> u16_at mfg 2 = PROTOCOL_V3A ->
  decode_case mfg (decode_v3a mfg).
Proof.
  intros H4 Hc Hp. unfold decode_v3a.
  destruct (Nat.eqb_spec (length mfg) _LEN_V3A) as [Hlen|Hlen]; simpl.
  - rewrite (unpack_exact _ _ Hlen). simpl. now apply case_v3a.
  - now apply case_v3a_length.
Qed.

Lemma decode_prefixed_case mfg :
  (2 <= length mfg)%nat ->
  (length mfg = 25%nat -> u16_at mfg 0 <> PROTOCOL_V4) ->
  decode_case mfg (decode_prefixed mfg).
Proof.
  intros H2 Hnot. unfold decode_prefixed.
  destruct (Nat.ltb_spec (length mfg) 4) as [Hlt|H4]; [now apply case_no_header|].
  rewrite unpack_from_enough by (simpl; lia). simpl. rewrite ?drop_0.
  change (le_uint (take 2 mfg)) with (u16_at mfg 0).
  change (le_uint (take 2 (drop 2 mfg))) with (u16_at mfg 2).
  destruct (Z.eqb_spec (u16_at mfg 0) COMPANY_ID) as [Hc|Hc]; simpl;
    [|now apply case_other_company].
  destruct (Z.eqb_spec (u16_at mfg 2) PROTOCOL_V4) as [Hp4|Hp4]; simpl.
  - destruct (Nat.eqb_spec (length mfg) _LEN_V4_PREFIXED) as [Hlen|Hlen].
    + unfold decode_v4_prefixed. rewrite (unpack_exact _ _ Hlen). simpl.
      now apply case_v4_prefixed.
    + rewrite Hp4. simpl. apply case_unknown; try done; rewrite Hp4; done.
  - destruct (Z.eqb_spec (u16_at mfg 2) PROTOCOL_V2) as [Hp2|Hp2];
      [now apply decode_v2_case|].
    destruct (Z.eqb_spec (u16_at mfg 2) PROTOCOL_V3A) as [Hp3|Hp3];
      [now apply decode_v3a_case|].
    now apply case_unknown.
Qed.

Lemma decode_payload_case mfg : decode_case mfg (decode_payload mfg).
Proof.
  unfold decode_payload.
  destruct (Nat.ltb_spec (length mfg) 2) as [Hlt|H2]; [now apply case_too_short|].
  destruct (Nat.eqb_spec (length mfg) _LEN_V4_NOPREFIX) as [Hlen|Hlen].
  - rewrite unpack_from_enough by (simpl; lia). simpl. rewrite ?drop_0.
    change (le_uint (take 2 mfg)) with (u16_at mfg 0).
    destruct (Z.eqb_spec (u16_at mfg 0) PROTOCOL_V4) as [Hp|Hp].
    + unfold decode_v4_noprefix. rewrite (unpack_exact _ _ Hlen). simpl.
      now apply case_v4_noprefix.
    + now apply decode_prefixed_case.
  - apply decode_prefixed_case; [lia|]. intros H25. now destruct Hlen.
Qed.

(** Closes a branch of [decode_case] whose conditions contradict the context. *)
Ltac decode_contra :=
  unfold COMPANY_ID, PROTOCOL_V2, PROTOCOL_V3A, PROTOCOL_V4 in *;
  solve [ lia | congruence | exfalso; eauto with lia ].

(** C1 (as stated, fails): a 26-byte buffer that starts with the company
    identifier 0xFFFF and the protocol tag 0x0002 is not decoded, while the
    24-byte buffer with the same header is decoded as a variant-2 reading. *)
Lemma decode_v2_26_bytes_fails :
  length sample_v2_26 = 26%nat /\
  u16_at sample_v2_26 0 = COMPANY_ID /\ u16_at sample_v2_26 2 = PROTOCOL_V2 /\
  decode_payload sample_v2_26 = Ret None /\
  length sample_v2 = 24%nat /\
  u16_at sample_v2 0 = COMPANY_ID /\ u16_at sample_v2 2 = PROTOCOL_V2 /\
  decode_payload sample_v2 =
    Ret (Some (IsV2 {| v2_protocol := 2;
                       v2_temp_c := float_div 2234 100;
                       v2_hum_pct := float_div 5522 100;
                       v2_press_hpa := float_div 10132 10;
                       v2_batt_mv := 3700;
                       v2_flags := 0;
                       v2_seq := 7;
                       v2_motion0 := 0;
                       v2_motion1 := 0 |})).
Proof. repeat split; vm_compute; reflexivity. Qed.

(** C1 (amended): for every buffer that starts with the company identifier
    0xFFFF followed by the protocol tag 0x0002, [decode_payload] returns a
    variant-2 reading if and only if the buffer is exactly 24 bytes long
    ([struct.calcsize] of the V2 format); with any other length it returns
    [None]. *)
Theorem decode_v2_iff_24_bytes (mfg : bytes) :
  (4 <= length mfg)%nat ->
  u16_at mfg 0 = COMPANY_ID ->
  u16_at mfg 2 = PROTOCOL_V2 ->
  ((exists d, decode_payload mfg = Ret (Some (IsV2 d))) <-> length mfg = 24%nat) /\
  (length mfg <> 24%nat -> decode_payload mfg = Ret None).
Proof.
  intros H4 Hw0 Hw1.
  pose proof (decode_payload_case mfg) as Hc.
  destruct Hc; try decode_contra.
  - split; [split; [intros _; assumption|eauto]|]. intros; contradiction.
  - split; [split; [intros [d Hd]; discriminate|intros; contradiction]|reflexivity].
Qed.

Lemma decode_v2_iff_24_bytes_witness :
  ((exists d, decode_payload sample_v2 = Ret (Some (IsV2 d))) <->
     length sample_v2 = 24%nat) /\
  (length sample_v2 <> 24%nat -> decode_payload sample_v2 = Ret None).
Proof.
  apply (decode_v2_iff_24_bytes sample_v2).
  - vm_compute. lia.
  - reflexivity.
  - reflexivity.
Defined.

(** C2: [decode_payload] returns a variant-4 reading exactly when the buffer
    is 25 bytes long and starts with the 16-bit word 0x0004 (unprefixed), or
    is 27 bytes long, starts with the company identifier 0xFFFF and continues
    with the word 0x0004 (prefixed).  The unprefixed case asks nothing of the
    company identifier: it is decided before that check. *)
Theorem decode_v4_iff (mfg : bytes) :
  (exists d, decode_payload mfg = Ret (Some (IsV4 d))) <->
  (length mfg = 25%nat /\ u16_at mfg 0 = PROTOCOL_V4) \/
  (length mfg = 27%nat /\ u16_at mfg 0 = COMPANY_ID /\ u16_at mfg 2 = PROTOCOL_V4).
Proof.
  pose proof (decode_payload_case mfg) as Hc.
  split.
  - intros [d Hd]. rewrite Hd in Hc. inversion Hc; subst; auto.
  - intros [[Hlen Hw]|(Hlen & Hw0 & Hw1)];
      destruct Hc; try decode_contra; eauto.
Qed.

(** C5: [decode_payload] is total and never raises: on every byte string,
    the empty and the truncated ones included, it returns a reading or
    [None].  ([unpack] and [unpack_from] do raise on a length they do not
    accept; every call of them is reached only with an accepted length.) *)
Theorem decode_payload_never_raises (mfg : bytes) :
  exists r : option DecodedAny, decode_payload mfg = Ret r.
Proof.
  destruct (decode_payload_case mfg); eauto.
Qed.

(** ** The ingestion worker *)

(** Unfolds the state-and-exception monad so that a run can be computed. *)
Ltac run_pys :=
  unfold mbind, mret, pys_bind, pys_ret, lift, gets, modify, when,
    try_except, try_finally, write_stdout, write_stderr in *;
  simpl in *.

Module DictFacts.

Lemma get_set_eq d k v : Dict.get (Dict.set d k v) k = Some v.
Proof.
  induction d as [|[k' v'] d IH]; simpl.
  - now rewrite String.eqb_refl.
  - destruct (String.eqb k' k) eqn:E; simpl; rewrite E; [reflexivity|exact IH].
Qed.

Lemma get_set_ne d k k' v : k <> k' -> Dict.get (Dict.set d k v) k' = Dict.get d k'.
Proof.
  intros Hne. induction d as [|[k0 v0] d IH]; simpl.
  - destruct (String.eqb_spec k k'); [contradiction|reflexivity].
  - destruct (String.eqb_spec k0 k) as [->|Hk]; simpl.
    + destruct (String.eqb_spec k k'); [contradiction|reflexivity].
    + destruct (String.eqb_spec k0 k'); [reflexivity|exact IH].
Qed.

Lemma length_set d k v :
  (length d <= length (Dict.set d k v) <= S (length d))%nat.
Proof.
  induction d as [|[k' v'] d IH]; simpl; [lia|].
  destruct (String.eqb k' k); simpl; lia.
Qed.

Lemma length_set_present d k v w :
  Dict.get d k = Some w -> length (Dict.set d k v) = length d.
Proof.
  induction d as [|[k' v'] d IH]; simpl; [discriminate|].
  destruct (String.eqb k' k); simpl; [reflexivity|]. intros Hg. now rewrite IH.
Qed.

Lemma length_set_absent d k v :
  Dict.get d k = None -> length (Dict.set d k v) = S (length d).
Proof.
  induction d as [|[k' v'] d IH]; simpl; [reflexivity|].
  destruct (String.eqb k' k); simpl; [discriminate|]. intros Hg. now rewrite IH.
Qed.

End DictFacts.

(** What [_remember_seq] does, by the size of the cache it finds. *)
Lemma remember_seq_run opts source seq st :
  _remember_seq opts source seq st =
    if max_seq_cache opts <? Dict.len (last_seq_seen st) then
      match last_seq_seen st with
      | [] => (Raise StopIteration, st)
      | _ :: rest => (Ret tt, set_last_seq_seen (Dict.set rest source seq) st)
      end
    else (Ret tt, set_last_seq_seen (Dict.set (last_seq_seen st) source seq) st).
Proof.
  unfold _remember_seq. run_pys.
  destruct (max_seq_cache opts <? Dict.len (last_seq_seen st)); [|reflexivity].
  destruct (last_seq_seen st); reflexivity.
Qed.

Lemma remember_seq_returns opts source seq st :
  0 <= max_seq_cache opts ->
  exists d, _remember_seq opts source seq st = (Ret tt, set_last_seq_seen d st) /\
            Dict.get d source = Some seq /\
            (Dict.len d <= Z.max (Dict.len (last_seq_seen st)) (max_seq_cache opts + 1)).
Proof.
  intros Hmax. rewrite remember_seq_run. unfold Dict.len.
  destruct (Z.ltb_spec (max_seq_cache opts) (Z.of_nat (length (last_seq_seen st)))) as [Hlt|Hge].
  - destruct (last_seq_seen st) as [|kv rest] eqn:E; [simpl in Hlt; lia|].
    eexists; split; [reflexivity|]. split; [apply DictFacts.get_set_eq|].
    pose proof (DictFacts.length_set rest source seq). simpl length. lia.
  - eexists; split; [reflexivity|]. split; [apply DictFacts.get_set_eq|].
    pose proof (DictFacts.length_set (last_seq_seen st) source seq). lia.
Qed.

Lemma same_but_logs_refl st : same_but_logs st st.
Proof. repeat split. Qed.

Lemma when_log_stdout b l st :
  exists st', when b (write_stdout l) st = (Ret tt, st') /\ same_but_logs st st'.
Proof. destruct b; run_pys; eexists; split; try reflexivity; repeat split. Qed.

(** The duplicate test reads the cache and compares with [==]. *)
Lemma is_duplicate_run source seq st :
  _is_duplicate source seq st =
    (Ret (bool_decide (Dict.get (last_seq_seen st) source = Some seq)), st).
Proof.
  unfold _is_duplicate, mbind, pys_bind, gets, mret, pys_ret.
  destruct (Dict.get (last_seq_seen st) source) as [prev|].
  - case_bool_decide; destruct (Z.eqb_spec prev seq); congruence.
  - case_bool_decide; congruence.
Qed.

(** A duplicate leaves [on_decoded] at once: nothing but the debug output
    changes. *)
Lemma on_decoded_duplicate opts source rssi decoded raw_len st :
  Dict.get (last_seq_seen st) source = Some (d_seq decoded) ->
  exists st', on_decoded opts source rssi decoded raw_len st = (Ret tt, st') /\
              same_but_logs st st'.
Proof.
  intros Hdup. unfold on_decoded.
  unfold mbind at 1, pys_bind at 1. rewrite is_duplicate_run.
  case_bool_decide; [|contradiction].
  apply when_log_stdout.
Qed.

(** A reading that is not a duplicate is remembered, then offered to the
    queue. *)
Lemma on_decoded_fresh opts source rssi decoded raw_len st :
  0 <= max_seq_cache opts ->
  Dict.get (last_seq_seen st) source <> Some (d_seq decoded) ->
  exists st',
    on_decoded opts source rssi decoded raw_len st = (Ret tt, st') /\
    Dict.get (last_seq_seen st') source = Some (d_seq decoded) /\
    last_seq_seen st' = last_seq_seen (_remember_seq opts source (d_seq decoded) st).2 /\
    q st' = (if q_full opts st then q st else q st ++ [make_row source rssi decoded]) /\
    buffer st' = buffer st /\ last_flush st' = last_flush st /\ db st' = db st.
Proof.
  intros Hmax Hnew. unfold on_decoded.
  unfold mbind at 1, pys_bind at 1. rewrite is_duplicate_run.
  case_bool_decide; [contradiction|].
  destruct (remember_seq_returns opts source (d_seq decoded) st Hmax)
    as (d & Hrun & Hget & _).
  assert (Hd : last_seq_seen (_remember_seq opts source (d_seq decoded) st).2 = d)
    by now rewrite Hrun.
  setoid_rewrite Hd. clear Hd.
  unfold mbind at 1, pys_bind at 1. rewrite Hrun.
  unfold q_full, put_nowait, q_full. run_pys.
  destruct (queue_max opts <=? 0); simpl.
  - destruct (debug opts); simpl; eexists; (split; [reflexivity|]); simpl;
      split_and!; done.
  - destruct (queue_max opts <=? Z.of_nat (length (q st))); simpl;
      destruct (debug opts); simpl; eexists; (split; [reflexivity|]); simpl;
      split_and!; done.
Qed.

(** Whatever the event, the callback leaves the buffer, the flush timer and
    the sink alone. *)
Lemma on_decoded_frame opts source rssi decoded raw_len st :
  same_batch st (on_decoded opts source rssi decoded raw_len st).2.
Proof.
  unfold on_decoded.
  unfold mbind at 1, pys_bind at 1. rewrite is_duplicate_run.
  case_bool_decide.
  - destruct (when_log_stdout (debug opts) (LogDupDrop source (d_seq decoded)) st)
      as (st' & Hrun & Hs). rewrite Hrun. simpl.
    destruct Hs as (_ & _ & _ & Hb & Hf & Hd). now split.
  - unfold mbind at 1, pys_bind at 1. rewrite remember_seq_run.
    unfold put_nowait, q_full. run_pys.
    repeat (match goal with
            | |- context [if ?b then _ else _] => destruct b; simpl
            | |- context [match ?l with [] => _ | _ :: _ => _ end] => destruct l; simpl
            end); now split.
Qed.

Lemma on_detect_frame opts device adv st :
  same_batch st (on_detect opts device adv st).2.
Proof.
  unfold on_detect.
  destruct (default ∅ (manufacturer_data adv) !! _COMPANY_ID) as [[|b mfg]|];
    simpl; try (now split).
  destruct (String.eqb (_pick_address device) ""); simpl; try (now split).
  unfold mbind at 1, pys_bind at 1, lift.
  destruct (_decode_from_mfg_value (b :: mfg)) as [[[decoded|] raw_len]|e];
    simpl; try (now split).
  - apply on_decoded_frame.
  - destruct (debug opts); simpl; now split.
Qed.

(** On an event that carries a reading, [on_detect] is [on_decoded]. *)
Lemma on_detect_carries opts device adv source decoded :
  carries device adv source decoded ->
  exists raw_len, forall st,
    on_detect opts device adv st = on_decoded opts source (rssi adv) decoded raw_len st.
Proof.
  intros (mfg & raw_len & Hmd & Hne & Hsrc & Hsrc' & Hdec).
  exists raw_len. intros st. unfold on_detect. rewrite Hmd.
  destruct mfg as [|b mfg]; [contradiction|].
  rewrite Hsrc. destruct (String.eqb_spec source ""); [contradiction|].
  unfold mbind at 1, pys_bind at 1, lift. now rewrite Hdec.
Qed.

(** The decision of [flush_buffer_if_needed], as one equation. *)
Lemma flush_take_run opts force now st :
  flush_take opts force now st =
    match buffer st with
    | [] => (Ret None, set_last_flush now st)
    | _ :: _ =>
        if negb force
           && (Z.of_nat (length (buffer st)) <? batch_size opts)
           && Qlt_bool (now - last_flush st) (flush_interval opts)
        then (Ret None, st)
        else (Ret (Some (buffer st)), set_last_flush now (set_buffer [] st))
    end.
Proof.
  unfold flush_take. run_pys.
  destruct (buffer st) as [|item rest]; [reflexivity|].
  now destruct (negb force && _ && _).
Qed.

(** The three ways the bulk write can end. *)
Lemma flush_write_committed opts bulk_create rows st :
  bulk_create rows = Ret tt ->
  exists st', flush_write opts bulk_create rows st = (Ret tt, st') /\
    db st' = db st ++ [rows] /\ stderr st' = stderr st /\
    q st' = q st /\ unfinished_tasks st' = unfinished_tasks st /\
    last_seq_seen st' = last_seq_seen st /\ buffer st' = buffer st /\
    last_flush st' = last_flush st.
Proof.
  intros Hw. unfold flush_write. run_pys. rewrite Hw.
  destruct (debug opts); simpl; eexists; (split; [reflexivity|]); simpl; repeat split.
Qed.

Lemma flush_write_caught opts bulk_create rows e st :
  bulk_create rows = Raise e -> is_Exception e = true ->
  flush_write opts bulk_create rows st =
    (Ret tt,
     {| q := q st; unfinished_tasks := unfinished_tasks st;
        last_seq_seen := last_seq_seen st; buffer := buffer st;
        last_flush := last_flush st; db := db st;
        stdout := stdout st; stderr := stderr st ++ [LogDbError e] |}).
Proof.
  intros Hw He. unfold flush_write. run_pys. now rewrite Hw, He.
Qed.

Lemma flush_write_not_caught opts bulk_create rows e st :
  bulk_create rows = Raise e -> is_Exception e = false ->
  flush_write opts bulk_create rows st = (Raise e, st).
Proof.
  intros Hw He. unfold flush_write. run_pys. now rewrite Hw, He.
Qed.

Lemma flush_write_same_cache opts bulk_create rows st :
  same_cache st (flush_write opts bulk_create rows st).2.
Proof.
  unfold flush_write, same_cache. run_pys.
  destruct (bulk_create rows) as [[]|e]; simpl.
  - now destruct (debug opts).
  - now destruct (is_Exception e).
Qed.

Lemma flush_take_same_cache opts force now st :
  same_cache st (flush_take opts force now st).2.
Proof.
  rewrite flush_take_run. destruct (buffer st) as [|item rest]; [reflexivity|].
  now destruct (negb force && _ && _).
Qed.

Lemma flush_same_cache opts force now bulk_create st :
  same_cache st (flush_buffer_if_needed opts force now bulk_create st).2.
Proof.
  unfold flush_buffer_if_needed.
  unfold mbind, pys_bind. rewrite flush_take_run.
  destruct (buffer st) as [|item rest]; [reflexivity|].
  destruct (negb force && _ && _); [reflexivity|].
  apply (flush_write_same_cache opts bulk_create (item :: rest)
           (set_last_flush now (set_buffer [] st))).
Qed.

Lemma task_done_same_cache st : same_cache st (task_done st).2.
Proof. unfold task_done, same_cache. now destruct (unfinished_tasks st <=? 0). Qed.

Lemma db_writer_same_cache opts now bulk_create st :
  same_cache st (db_writer_turn opts now bulk_create st).2.
Proof.
  unfold db_writer_turn.
  unfold mbind at 1, pys_bind at 1, gets.
  destruct (q st) as [|item rest] eqn:Hq; [apply flush_same_cache|].
  unfold mbind at 1, pys_bind at 1, modify, try_finally.
  unfold mbind at 1, pys_bind at 1.
  set (st1 := set_buffer _ _).
  pose proof (flush_same_cache opts false now bulk_create st1) as Hf.
  destruct (flush_buffer_if_needed opts false now bulk_create st1) as [r st2].
  pose proof (task_done_same_cache st2) as Ht.
  destruct (task_done st2) as [[[]|e] st3]; unfold same_cache in *; simpl in *;
    congruence.
Qed.

(** The cache after [on_decoded] is the one before, or the one
    [_remember_seq] left. *)
Lemma on_decoded_cache opts source rssi decoded raw_len st r st' :
  on_decoded opts source rssi decoded raw_len st = (r, st') ->
  last_seq_seen st' = last_seq_seen st \/
  last_seq_seen st' = last_seq_seen (_remember_seq opts source (d_seq decoded) st).2.
Proof.
  unfold on_decoded.
  unfold mbind at 1, pys_bind at 1. rewrite is_duplicate_run.
  case_bool_decide.
  - intros Hrun'. left.
    destruct (when_log_stdout (debug opts) (LogDupDrop source (d_seq decoded)) st)
      as (st2 & Hrun & Hs). rewrite Hrun in Hrun'. inversion Hrun'; subst. apply Hs.
  - intros Hrun. right. revert Hrun. unfold mbind at 1, pys_bind at 1.
    destruct (_remember_seq opts source (d_seq decoded) st) as [[[]|e] st1];
      [|intros [= _ <-]; reflexivity].
    unfold put_nowait, q_full. run_pys.
    repeat (match goal with
            | |- context [if ?b then _ else _] => destruct b; simpl
            end); intros [= _ <-]; reflexivity.
Qed.

Lemma on_detect_cache_bound opts device adv st :
  0 <= max_seq_cache opts ->
  Dict.len (last_seq_seen (on_detect opts device adv st).2)
    <= Z.max (Dict.len (last_seq_seen st)) (max_seq_cache opts + 1).
Proof.
  intros Hmax. unfold on_detect.
  destruct (default ∅ (manufacturer_data adv) !! _COMPANY_ID) as [[|b mfg]|];
    simpl; try lia.
  destruct (String.eqb (_pick_address device) ""); simpl; try lia.
  unfold mbind at 1, pys_bind at 1, lift.
  destruct (_decode_from_mfg_value (b :: mfg)) as [[[decoded|] raw_len]|e];
    simpl; try lia.
  - destruct (on_decoded opts (_pick_address device) (rssi adv) decoded raw_len st)
      as [r st'] eqn:Hrun. simpl.
    destruct (on_decoded_cache _ _ _ _ _ _ _ _ Hrun) as [-> | ->]; [lia|].
    destruct (remember_seq_returns opts (_pick_address device) (d_seq decoded) st Hmax)
      as (d & -> & _ & Hlen). exact Hlen.
  - destruct (debug opts); simpl; lia.
Qed.

Lemma step_cache_bound opts st st' :
  0 <= max_seq_cache opts ->
  step opts st st' ->
  Dict.len (last_seq_seen st') <= Z.max (Dict.len (last_seq_seen st)) (max_seq_cache opts + 1).
Proof.
  intros Hmax Hstep. destruct Hstep.
  - now apply on_detect_cache_bound.
  - rewrite (db_writer_same_cache opts now bulk_create st). lia.
  - rewrite (flush_same_cache opts force now bulk_create st). lia.
  - rewrite (flush_take_same_cache opts force now st). lia.
  - rewrite (flush_write_same_cache opts bulk_create rows st). lia.
  - simpl. lia.
  - rewrite (task_done_same_cache st). lia.
Qed.

Lemma nth_source_nonempty n : nth_source n <> ""%string.
Proof. destruct n; discriminate. Qed.

Lemma nth_source_length n : String.length (nth_source n) = S n.
Proof. induction n as [|n IH]; simpl; [reflexivity|now rewrite IH]. Qed.

Lemma nth_source_inj n m : nth_source n = nth_source m -> n = m.
Proof.
  intros Heq. apply (f_equal String.length) in Heq.
  rewrite !nth_source_length in Heq. lia.
Qed.

Lemma pick_address_nth n : _pick_address (nth_device n) = nth_source n.
Proof.
  unfold _pick_address, nth_device, str_or; simpl.
  destruct (String.eqb_spec (nth_source n) ""); [|reflexivity].
  now destruct (nth_source_nonempty n).
Qed.

Lemma sample_carries n :
  carries (nth_device n) sample_advertisement (nth_source n) sample_v4_reading.
Proof.
  exists sample_v4, 25%nat. split_and!.
  - simpl. apply lookup_singleton_eq.
  - discriminate.
  - apply pick_address_nth.
  - apply nth_source_nonempty.
  - reflexivity.
Qed.

(** Feeding [k] readings from [k] different sources to a fresh worker fills
    the cache with [k] entries, as long as [k <= max_seq_cache + 1]. *)
Lemma cache_fills opts (k : nat) :
  0 <= max_seq_cache opts ->
  Z.of_nat k <= max_seq_cache opts + 1 ->
  exists st, reachable opts st /\
    Dict.len (last_seq_seen st) = Z.of_nat k /\
    (forall s v, Dict.get (last_seq_seen st) s = Some v ->
       exists j, (j < k)%nat /\ s = nth_source j).
Proof.
  intros Hmax. induction k as [|k IH]; intros Hk.
  - exists (initial_state 0). split; [exists 0%Q; apply rtc_refl|].
    split; [reflexivity|]. intros s v Hget. discriminate.
  - destruct IH as (st & [t0 Hreach] & Hlen & Hkeys); [lia|].
    destruct (on_detect_carries opts _ _ _ _ (sample_carries k)) as (raw_len & Hdet).
    assert (Hnone : Dict.get (last_seq_seen st) (nth_source k) = None).
    { destruct (Dict.get (last_seq_seen st) (nth_source k)) as [v|] eqn:Hget;
        [|reflexivity].
      destruct (Hkeys _ _ Hget) as (j & Hj & Heq).
      apply nth_source_inj in Heq. lia. }
    destruct (on_decoded_fresh opts (nth_source k) (rssi sample_advertisement)
                sample_v4_reading raw_len st Hmax) as (st' & Hrun & _ & Hcache & _).
    { rewrite Hnone. discriminate. }
    rewrite remember_seq_run in Hcache.
    destruct (Z.ltb_spec (max_seq_cache opts) (Dict.len (last_seq_seen st))) as [Hlt|_];
      [lia|]. simpl in Hcache.
    exists st'. split_and!.
    + exists t0. eapply rtc_r; [exact Hreach|].
      replace st' with (on_detect opts (nth_device k) sample_advertisement st).2
        by (now rewrite Hdet, Hrun).
      apply step_on_detect.
    + rewrite Hcache. unfold Dict.len in *.
      rewrite (DictFacts.length_set_absent _ _ _ Hnone). lia.
    + intros s v. rewrite Hcache.
      destruct (String.eqb_spec (nth_source k) s) as [<-|Hne].
      * intros _. exists k. split; [lia|reflexivity].
      * rewrite DictFacts.get_set_ne by exact Hne. intros Hget.
        destruct (Hkeys _ _ Hget) as (j & Hj & ->). exists j. split; [lia|reflexivity].
Qed.

(** C8: with a non-negative [max_seq_cache], the dedup cache of every
    reachable state holds at most [max_seq_cache + 1] entries, and some
    reachable state holds exactly that many.  An insertion that finds at
    most [max_seq_cache] entries evicts nothing; one that finds more evicts
    the oldest entry, and only that one, before it inserts. *)
Theorem cache_size_bounded opts :
  0 <= max_seq_cache opts ->
  (forall st, reachable opts st ->
     Dict.len (last_seq_seen st) <= max_seq_cache opts + 1) /\
  (exists st, reachable opts st /\
     Dict.len (last_seq_seen st) = max_seq_cache opts + 1) /\
  (forall source seq st,
     Dict.len (last_seq_seen st) <= max_seq_cache opts ->
     _remember_seq opts source seq st =
       (Ret tt, set_last_seq_seen (Dict.set (last_seq_seen st) source seq) st)) /\
  (forall source seq st oldest rest,
     last_seq_seen st = oldest :: rest ->
     max_seq_cache opts < Dict.len (last_seq_seen st) ->
     _remember_seq opts source seq st =
       (Ret tt, set_last_seq_seen (Dict.set rest source seq) st)).
Proof.
  intros Hmax. split_and!.
  - intros st [t0 Hreach].
    apply (rtc_ind_r (R := step opts)
             (fun s => Dict.len (last_seq_seen s) <= max_seq_cache opts + 1)
             (initial_state t0)); [| |exact Hreach].
    + unfold Dict.len. simpl. lia.
    + intros y z _ Hstep IH.
      pose proof (step_cache_bound opts y z Hmax Hstep). lia.
  - destruct (cache_fills opts (Z.to_nat (max_seq_cache opts + 1)) Hmax)
      as (st & Hreach & Hlen & _); [lia|].
    exists st. split; [exact Hreach|]. lia.
  - intros source seq st Hlen. rewrite remember_seq_run.
    destruct (Z.ltb_spec (max_seq_cache opts) (Dict.len (last_seq_seen st))); [lia|].
    reflexivity.
  - intros source seq st oldest rest Hd Hlen. rewrite remember_seq_run.
    destruct (Z.ltb_spec (max_seq_cache opts) (Dict.len (last_seq_seen st))); [|lia].
    now rewrite Hd.
Qed.

Lemma cache_size_bounded_witness :
  Dict.len (last_seq_seen after_two_sources) = 2 /\
  Dict.len (last_seq_seen after_two_sources) <= max_seq_cache sample_options + 1.
Proof.
  split; [reflexivity|].
  apply (cache_size_bounded sample_options).
  - simpl. lia.
  - exists 0%Q. unfold after_two_sources.
    eapply rtc_l; [apply step_on_detect|].
    eapply rtc_l; [apply step_on_detect|].
    apply rtc_refl.
Defined.

(** C9: duplicate detection is exact equality with the last sequence seen
    for the source.  A reading whose sequence equals the cached one is
    dropped: cache and queue stay as they are.  A reading with any other
    sequence, a smaller one included, passes: the cache entry of its source
    becomes the new sequence and the row goes to the queue (unless the queue
    is full).  Nothing here touches the batch buffer. *)
Theorem dedup_is_exact_equality opts device adv source decoded st :
  carries device adv source decoded ->
  0 <= max_seq_cache opts ->
  exists st',
    on_detect opts device adv st = (Ret tt, st') /\
    (Dict.get (last_seq_seen st) source = Some (d_seq decoded) ->
       last_seq_seen st' = last_seq_seen st /\ q st' = q st) /\
    (Dict.get (last_seq_seen st) source <> Some (d_seq decoded) ->
       Dict.get (last_seq_seen st') source = Some (d_seq decoded) /\
       q st' = if q_full opts st then q st
               else q st ++ [make_row source (rssi adv) decoded]) /\
    (forall prev, Dict.get (last_seq_seen st) source = Some prev ->
       d_seq decoded < prev ->
       Dict.get (last_seq_seen st') source = Some (d_seq decoded)).
Proof.
  intros Hc Hmax.
  destruct (on_detect_carries opts _ _ _ _ Hc) as (raw_len & Hdet). rewrite Hdet.
  destruct (decide (Dict.get (last_seq_seen st) source = Some (d_seq decoded)))
    as [Hdup|Hnew].
  - destruct (on_decoded_duplicate opts source (rssi adv) decoded raw_len st Hdup)
      as (st' & Hrun & Hq & _ & Hcache & _).
    exists st'. split_and!; [exact Hrun|done|done|].
    intros prev Hprev Hlt. rewrite Hprev in Hdup. injection Hdup as ->. lia.
  - destruct (on_decoded_fresh opts source (rssi adv) decoded raw_len st Hmax Hnew)
      as (st' & Hrun & Hget & _ & Hq & _).
    exists st'. split_and!; [exact Hrun|done|done|done].
Qed.

Lemma dedup_is_exact_equality_witness :
  exists st',
    on_detect sample_options (nth_device 0) sample_advertisement seen_nine
      = (Ret tt, st') /\
    (Dict.get (last_seq_seen seen_nine) (nth_source 0) = Some (d_seq sample_v4_reading) ->
       last_seq_seen st' = last_seq_seen seen_nine /\ q st' = q seen_nine) /\
    (Dict.get (last_seq_seen seen_nine) (nth_source 0) <> Some (d_seq sample_v4_reading) ->
       Dict.get (last_seq_seen st') (nth_source 0) = Some (d_seq sample_v4_reading) /\
       q st' = if q_full sample_options seen_nine then q seen_nine
               else q seen_nine ++
                    [make_row (nth_source 0) (rssi sample_advertisement) sample_v4_reading]) /\
    (forall prev, Dict.get (last_seq_seen seen_nine) (nth_source 0) = Some prev ->
       d_seq sample_v4_reading < prev ->
       Dict.get (last_seq_seen st') (nth_source 0) = Some (d_seq sample_v4_reading)).
Proof.
  apply (dedup_is_exact_equality sample_options (nth_device 0) sample_advertisement
           (nth_source 0) sample_v4_reading seen_nine).
  - exists sample_v4, 25%nat. split_and!; [apply lookup_singleton_eq|done|done|done|done].
  - simpl. lia.
Defined.



(** C4 (as stated, fails): the callback of the scanner writes the dedup
    cache.  On a fresh worker the cache is empty; after one event it holds
    the source and sequence of that event. *)
Lemma producer_writes_cache :
  last_seq_seen (initial_state 0) = [] /\
  last_seq_seen
    (on_detect sample_options (nth_device 0) sample_advertisement (initial_state 0)).2
    = [(nth_source 0, 7)].
Proof. split; reflexivity. Qed.

(** C4 (amended): for every advertisement event, [on_detect] leaves the
    batch buffer (and the flush timer and the sink) as it found them: only
    the consumer side, [db_writer] and [flush_buffer_if_needed], writes the
    buffer.  The dedup cache is written by [on_detect] itself, through
    [_remember_seq]; the consumer side never writes it. *)
Theorem producer_leaves_buffer_consumer_leaves_cache opts st :
  (forall device adv,
     buffer (on_detect opts device adv st).2 = buffer st /\
     last_flush (on_detect opts device adv st).2 = last_flush st /\
     db (on_detect opts device adv st).2 = db st) /\
  (forall now bulk_create,
     last_seq_seen (db_writer_turn opts now bulk_create st).2 = last_seq_seen st) /\
  (forall force now bulk_create,
     last_seq_seen (flush_buffer_if_needed opts force now bulk_create st).2
       = last_seq_seen st).
Proof.
  split_and!.
  - intros device adv. apply on_detect_frame.
  - intros now bulk_create. apply db_writer_same_cache.
  - intros force now bulk_create. apply flush_same_cache.
Qed.

(** C7: when the bulk write of a flush raises an [Exception], the batch has
    already left the buffer and the timer has already been restarted; the
    exception is caught and reported on the error stream; the call returns
    normally; nothing is written to the sink and nothing goes back to the
    buffer or the queue, so a later flush of that state writes nothing.  The
    handler does the same whatever the other tasks did to the state during
    the write. *)
Theorem flush_failure_is_contained opts force now bulk_create st st1 rows e :
  flush_take opts force now st = (Ret (Some rows), st1) ->
  bulk_create rows = Raise e ->
  is_Exception e = true ->
  rows = buffer st /\ buffer st1 = [] /\ last_flush st1 = now /\
  (exists st',
     flush_buffer_if_needed opts force now bulk_create st = (Ret tt, st') /\
     buffer st' = [] /\ last_flush st' = now /\
     db st' = db st /\ q st' = q st /\ unfinished_tasks st' = unfinished_tasks st /\
     last_seq_seen st' = last_seq_seen st /\
     stdout st' = stdout st /\ stderr st' = stderr st ++ [LogDbError e] /\
     (forall force' now' bulk_create',
        exists st'',
          flush_buffer_if_needed opts force' now' bulk_create' st' = (Ret tt, st'') /\
          db st'' = db st /\ buffer st'' = [])) /\
  (forall st2,
     exists st2',
       flush_write opts bulk_create rows st2 = (Ret tt, st2') /\
       buffer st2' = buffer st2 /\ q st2' = q st2 /\ db st2' = db st2 /\
       stderr st2' = stderr st2 ++ [LogDbError e]).
Proof.
  intros Htake Hw He.
  assert (Hshape : rows = buffer st /\ st1 = set_last_flush now (set_buffer [] st)).
  { rewrite flush_take_run in Htake.
    destruct (buffer st) as [|item rest]; [discriminate|].
    destruct (negb force && _ && _); [discriminate|].
    now injection Htake as <- <-. }
  destruct Hshape as [Hrows ->].
  split_and!; try done.
  - eexists. split.
    + unfold flush_buffer_if_needed. unfold mbind, pys_bind. rewrite Htake.
      apply (flush_write_caught opts bulk_create rows e _ Hw He).
    + simpl. split_and!; try done.
      intros force' now' bulk_create'. eexists. split.
      * unfold flush_buffer_if_needed. unfold mbind, pys_bind.
        rewrite flush_take_run. simpl. reflexivity.
      * done.
  - intros st2. eexists. split; [apply (flush_write_caught _ _ _ e _ Hw He)|done].
Qed.

Lemma flush_failure_is_contained_witness :
  buffer one_row_buffered = buffer one_row_buffered /\
  exists st',
    flush_buffer_if_needed sample_options true 1 sink_down one_row_buffered
      = (Ret tt, st') /\
    buffer st' = [] /\ db st' = [] /\ q st' = [] /\
    stderr st' = [LogDbError (DatabaseError "database is locked")].
Proof.
  destruct (flush_failure_is_contained sample_options true 1 sink_down
              one_row_buffered
              (set_last_flush 1 (set_buffer [] one_row_buffered))
              (buffer one_row_buffered)
              (DatabaseError "database is locked")
              eq_refl eq_refl eq_refl)
    as (Hrows & _ & _ & (st' & Hrun & Hb & _ & Hdb & Hq & _ & _ & _ & Herr & _) & _).
  split; [exact Hrows|].
  exists st'. split_and!; [exact Hrun|exact Hb|exact Hdb|exact Hq|exact Herr].
Defined.


(** ** The battery curve *)

Module BatteryFacts.
Import Battery.

Local Open Scope Q_scope.

Lemma inject_Z_minus x y : inject_Z (x - y) = inject_Z x - inject_Z y.
Proof.
  unfold Z.sub, Qminus. now rewrite inject_Z_plus, inject_Z_opp.
Qed.

Lemma to_int_floor x : 0 <= x -> to_int x = Qfloor x.
Proof.
  destruct x as [n d]. unfold to_int, Qfloor, Qle. simpl. intros Hn.
  apply Z.quot_div_nonneg; lia.
Qed.

Lemma to_int_mono x y : 0 <= x -> x <= y -> (to_int x <= to_int y)%Z.
Proof.
  intros Hx Hxy. rewrite !to_int_floor by lra. now apply Qfloor_resp_le.
Qed.

Lemma to_int_bounds x a b :
  (0 <= a)%Z ->
  inject_Z a + (1 # 2) <= x -> x <= inject_Z b + (1 # 2) ->
  (a <= to_int x <= b)%Z.
Proof.
  intros Ha Hlo Hhi.
  assert (H0 : 0 <= inject_Z a).
  { change 0 with (inject_Z 0). now rewrite <- Zle_Qle. }
  rewrite to_int_floor by lra. split.
  - rewrite <- (Qfloor_Z a). apply Qfloor_resp_le. lra.
  - pose proof (Qfloor_le x) as Hf.
    assert (Hlt : inject_Z (Qfloor x) < inject_Z (b + 1)).
    { rewrite inject_Z_plus. change (inject_Z 1) with 1. lra. }
    rewrite <- Zlt_Qlt in Hlt. lia.
Qed.

Section rounding.

Context (rnd : Q -> Q).
Hypothesis rnd_mono : forall x y, x <= y -> rnd x <= rnd y.
Hypothesis rnd_grid : forall k : Z, (-8192 <= k <= 8192)%Z -> rnd (k # 64) == k # 64.

#[local] Instance rnd_proper : Proper (Qeq ==> Qeq) rnd.
Proof.
  intros x y Hxy. apply Qle_antisym; apply rnd_mono; lra.
Qed.

Lemma rnd_int n : (-128 <= n <= 128)%Z -> rnd (inject_Z n) == inject_Z n.
Proof.
  intros Hn.
  assert (He : inject_Z n == (64 * n # 64)).
  { unfold Qeq, inject_Z. cbn [Qnum Qden]. lia. }
  rewrite He. apply rnd_grid. lia.
Qed.

Lemma rnd_half n :
  (-100 <= n <= 100)%Z -> rnd (inject_Z n + (1 # 2)) == inject_Z n + (1 # 2).
Proof.
  intros Hn.
  assert (He : inject_Z n + (1 # 2) == (64 * n + 32 # 64)).
  { unfold Qeq, Qplus, inject_Z. cbn [Qnum Qden]. lia. }
  rewrite He. apply rnd_grid. lia.
Qed.

Lemma rnd_0 : rnd 0 == 0.
Proof. apply (rnd_int 0). lia. Qed.

Lemma rnd_1 : rnd 1 == 1.
Proof. apply (rnd_int 1). lia. Qed.

Lemma rnd_one_half : rnd (1 # 2) == 1 # 2.
Proof.
  assert (He : (1 # 2) == (32 # 64)) by reflexivity.
  rewrite He. apply rnd_grid. lia.
Qed.

(** Two literals that differ by 1/32 or more stay apart by 1/64 or more. *)
Lemma rnd_gap b a :
  0 <= b -> a <= 100 -> b + (2 # 64) <= a -> rnd b + (1 # 64) <= rnd a.
Proof.
  intros Hb Ha Hgap.
  set (k := Qceiling (b * 64)).
  pose proof (Qle_ceiling (b * 64)) as Hk1.
  pose proof (Qceiling_lt (b * 64)) as Hk2. fold k in Hk1, Hk2.
  rewrite inject_Z_minus in Hk2. change (inject_Z 1) with 1 in Hk2.
  assert (Hk : (0 <= k <= 6401)%Z).
  { split.
    - rewrite Zle_Qle. change (inject_Z 0) with 0. lra.
    - assert (Hlt : inject_Z k < inject_Z 6402) by (change (inject_Z 6402) with 6402; lra).
      rewrite <- Zlt_Qlt in Hlt. lia. }
  assert (Hq1 : (k # 64) == inject_Z k * (1 # 64)).
  { unfold Qeq, Qmult, inject_Z. cbn [Qnum Qden]. lia. }
  assert (Hq2 : (k + 1 # 64) == inject_Z k * (1 # 64) + (1 # 64)).
  { unfold Qeq, Qmult, Qplus, inject_Z. cbn [Qnum Qden]. lia. }
  assert (H1 : rnd b <= k # 64).
  { rewrite <- (rnd_grid k) by lia. apply rnd_mono. lra. }
  assert (H2 : (k + 1 # 64) <= rnd a).
  { rewrite <- (rnd_grid (k + 1)) by lia. apply rnd_mono. lra. }
  lra.
Qed.

Section segment.

Context (av : Q) (ap : Z) (bv : Q) (bp : Z).
Hypothesis gap : bv + (1 # 64) <= av.
Hypothesis percents : (0 <= bp <= ap)%Z /\ (ap <= 100)%Z.

Lemma divisor_positive : 1 # 64 <= fsub rnd av bv.
Proof.
  unfold fsub.
  assert (He : (1 # 64) == rnd (1 # 64)) by (symmetry; apply rnd_grid; lia).
  rewrite He. apply rnd_mono. lra.
Qed.

Lemma fraction_bounds v :
  bv <= v -> v <= av -> 0 <= rnd (fsub rnd av v / fsub rnd av bv) <= 1.
Proof.
  intros Hlo Hhi. pose proof divisor_positive as Hd.
  assert (Hx : 0 <= fsub rnd av v <= fsub rnd av bv).
  { unfold fsub. split.
    - rewrite <- rnd_0. apply rnd_mono. lra.
    - apply rnd_mono. lra. }
  split.
  - rewrite <- rnd_0. apply rnd_mono. apply Qle_shift_div_l; lra.
  - rewrite <- rnd_1. apply rnd_mono. apply Qle_shift_div_r; lra.
Qed.

Lemma fraction_antitone v1 v2 :
  v1 <= v2 ->
  rnd (fsub rnd av v2 / fsub rnd av bv) <= rnd (fsub rnd av v1 / fsub rnd av bv).
Proof.
  intros Hv. pose proof divisor_positive as Hd.
  apply rnd_mono. unfold Qdiv. apply Qmult_le_compat_r.
  - unfold fsub. apply rnd_mono. lra.
  - apply Qlt_le_weak, Qinv_lt_0_compat. lra.
Qed.

Lemma slope : fsub rnd (of_int rnd bp) (of_int rnd ap) == inject_Z (bp - ap).
Proof.
  unfold fsub, of_int. rewrite (rnd_int ap), (rnd_int bp) by lia.
  rewrite <- inject_Z_minus. apply rnd_int. lia.
Qed.

(** The value before truncation, as a function of the fraction [t]. *)
Lemma lerp_bounds t :
  0 <= t <= 1 ->
  inject_Z bp <= lerp rnd (of_int rnd ap) (of_int rnd bp) t <= inject_Z ap.
Proof.
  intros Ht. unfold lerp, fadd, fmul. rewrite slope.
  assert (Hc : inject_Z (bp - ap) <= 0).
  { change 0 with (inject_Z 0). rewrite <- Zle_Qle. lia. }
  assert (Hm : inject_Z (bp - ap) <= rnd (inject_Z (bp - ap) * t) <= 0).
  { split.
    - rewrite <- (rnd_int (bp - ap)) at 1 by lia. apply rnd_mono. nra.
    - rewrite <- rnd_0. apply rnd_mono. nra. }
  unfold of_int. rewrite (rnd_int ap) by lia.
  assert (He : inject_Z (bp - ap) == inject_Z bp - inject_Z ap)
    by now rewrite inject_Z_minus.
  split.
  - rewrite <- (rnd_int bp) at 1 by lia. apply rnd_mono. lra.
  - rewrite <- (rnd_int ap) at 2 by lia. apply rnd_mono. lra.
Qed.

Lemma lerp_antitone t1 t2 :
  t2 <= t1 ->
  lerp rnd (of_int rnd ap) (of_int rnd bp) t1
    <= lerp rnd (of_int rnd ap) (of_int rnd bp) t2.
Proof.
  intros Ht. unfold lerp, fadd, fmul. rewrite slope.
  assert (Hc : inject_Z (bp - ap) <= 0).
  { change 0 with (inject_Z 0). rewrite <- Zle_Qle. lia. }
  apply rnd_mono.
  assert (Hm : rnd (inject_Z (bp - ap) * t1) <= rnd (inject_Z (bp - ap) * t2))
    by (apply rnd_mono; nra).
  lra.
Qed.

Lemma before_int_bounds v :
  bv <= v -> v <= av ->
  inject_Z bp + (1 # 2) <= before_int rnd av ap bv bp v <= inject_Z ap + (1 # 2).
Proof.
  intros Hlo Hhi. unfold before_int, fadd, flit.
  pose proof (lerp_bounds _ (fraction_bounds v Hlo Hhi)) as Hl.
  rewrite rnd_one_half. split.
  - rewrite <- (rnd_half bp) by lia. apply rnd_mono. lra.
  - rewrite <- (rnd_half ap) by lia. apply rnd_mono. lra.
Qed.

Lemma before_int_mono v1 v2 :
  v1 <= v2 -> before_int rnd av ap bv bp v1 <= before_int rnd av ap bv bp v2.
Proof.
  intros Hv. unfold before_int, fadd. apply rnd_mono.
  pose proof (lerp_antitone _ _ (fraction_antitone v1 v2 Hv)). lra.
Qed.

(** Inside its segment, [interpolate] returns: the divisor is not zero. *)
Lemma interpolate_run v :
  interpolate rnd av ap bv bp v =
    Ret (Z.max 0 (Z.min 100 (to_int (before_int rnd av ap bv bp v)))).
Proof.
  unfold interpolate, fdiv. pose proof divisor_positive as Hd.
  destruct (Qeq_bool (fsub rnd av bv) 0) eqn:E.
  - apply Qeq_bool_eq in E. lra.
  - reflexivity.
Qed.

Lemma interpolate_bounds v :
  bv <= v -> v <= av ->
  exists p, interpolate rnd av ap bv bp v = Ret p /\ (bp <= p <= ap)%Z.
Proof.
  intros Hlo Hhi. rewrite interpolate_run. eexists; split; [reflexivity|].
  pose proof (before_int_bounds v Hlo Hhi) as [Hb1 Hb2].
  pose proof (to_int_bounds _ bp ap ltac:(lia) Hb1 Hb2). lia.
Qed.

Lemma interpolate_mono v1 v2 :
  bv <= v1 -> v1 <= v2 -> v2 <= av ->
  exists p1 p2,
    interpolate rnd av ap bv bp v1 = Ret p1 /\
    interpolate rnd av ap bv bp v2 = Ret p2 /\ (p1 <= p2)%Z.
Proof.
  intros Hlo Hv Hhi. rewrite !interpolate_run. do 2 eexists.
  split; [reflexivity|]. split; [reflexivity|].
  assert (Hb : inject_Z bp + (1 # 2) <= before_int rnd av ap bv bp v1)
    by (apply before_int_bounds; lra).
  assert (H0 : 0 <= inject_Z bp).
  { change 0 with (inject_Z 0). rewrite <- Zle_Qle. lia. }
  assert (Hpos : 0 <= before_int rnd av ap bv bp v1) by lra.
  pose proof (to_int_mono _ _ Hpos (before_int_mono v1 v2 Hv)). lia.
Qed.

End segment.

Lemma well_formed_lowest rest : forall av ap,
  well_formed ((av, ap) :: rest) ->
  (lowest ((av, ap) :: rest)).1 <= av /\
  (0 <= (lowest ((av, ap) :: rest)).2 <= ap)%Z /\ (ap <= 100)%Z.
Proof.
  induction rest as [|[bv bp] rest IH]; intros av ap Hwf.
  - simpl in *. split; [lra|lia].
  - destruct Hwf as (Hgap & Hp & Hwf).
    destruct (IH bv bp Hwf) as (Hv & Hl & Hb).
    change (lowest ((av, ap) :: (bv, bp) :: rest)) with (lowest ((bv, bp) :: rest)).
    split; [lra|lia].
Qed.

Lemma scan_step av ap bv bp rest v :
  scan rnd ((av, ap) :: (bv, bp) :: rest) v =
    if Qle_bool v av && Qle_bool bv v
    then p ← interpolate rnd av ap bv bp v; Ret (Some p)
    else scan rnd ((bv, bp) :: rest) v.
Proof. reflexivity. Qed.

Lemma scan_bounds rest : forall av ap,
  rest <> [] ->
  well_formed ((av, ap) :: rest) ->
  forall v, (lowest ((av, ap) :: rest)).1 <= v -> v <= av ->
  exists p, scan rnd ((av, ap) :: rest) v = Ret (Some p) /\
            ((lowest ((av, ap) :: rest)).2 <= p <= ap)%Z.
Proof.
  induction rest as [|[bv bp] rest IH]; intros av ap Hne Hwf v Hlo Hhi;
    [contradiction|].
  destruct Hwf as (Hgap & Hp & Hwf).
  destruct (well_formed_lowest rest bv bp Hwf) as (Hlv & Hlp & Hb).
  change (lowest ((av, ap) :: (bv, bp) :: rest)) with (lowest ((bv, bp) :: rest)) in *.
  rewrite scan_step.
  assert (Ht : Qle_bool v av = true) by now apply Qle_bool_iff.
  rewrite Ht. cbn [andb].
  destruct (Qle_bool bv v) eqn:Hb2.
  - apply Qle_bool_iff in Hb2.
    destruct (interpolate_bounds av ap bv bp Hgap ltac:(lia) v Hb2 Hhi) as (p & -> & Hpb).
    exists p. split; [reflexivity|lia].
  - assert (Hlt : v < bv).
    { apply Qnot_le_lt. intros Hle. apply Qle_bool_iff in Hle. congruence. }
    destruct rest as [|c rest'].
    + simpl in Hlo. lra.
    + destruct (IH bv bp ltac:(discriminate) Hwf v Hlo ltac:(lra)) as (p & Hs & Hpb).
      exists p. split; [exact Hs|lia].
Qed.

Lemma scan_mono rest : forall av ap,
  rest <> [] ->
  well_formed ((av, ap) :: rest) ->
  forall v1 v2, (lowest ((av, ap) :: rest)).1 <= v1 -> v1 <= v2 -> v2 <= av ->
  exists p1 p2,
    scan rnd ((av, ap) :: rest) v1 = Ret (Some p1) /\
    scan rnd ((av, ap) :: rest) v2 = Ret (Some p2) /\
    (p1 <= p2)%Z /\ (0 <= p1)%Z /\ (p2 <= 100)%Z.
Proof.
  induction rest as [|[bv bp] rest IH]; intros av ap Hne Hwf v1 v2 Hlo Hv Hhi;
    [contradiction|].
  pose proof Hwf as (Hgap & Hp & Hwf').
  destruct (well_formed_lowest rest bv bp Hwf') as (Hlv & Hlp & Hb).
  assert (Hperc : (0 <= bp <= ap)%Z /\ (ap <= 100)%Z) by lia.
  destruct (Qlt_le_dec v2 bv) as [Hlt2|Hge2].
  - (* both below the first segment *)
    destruct rest as [|c rest'].
    + simpl in Hlo. lra.
    + change (lowest ((av, ap) :: (bv, bp) :: c :: rest'))
        with (lowest ((bv, bp) :: c :: rest')) in Hlo.
      destruct (IH bv bp ltac:(discriminate) Hwf' v1 v2 Hlo Hv ltac:(lra))
        as (p1 & p2 & Hs1 & Hs2 & Hle & H0 & H100).
      exists p1, p2.
      assert (Hf1 : Qle_bool bv v1 = false).
      { destruct (Qle_bool bv v1) eqn:E; [|reflexivity].
        apply Qle_bool_iff in E. lra. }
      assert (Hf2 : Qle_bool bv v2 = false).
      { destruct (Qle_bool bv v2) eqn:E; [|reflexivity].
        apply Qle_bool_iff in E. lra. }
      rewrite !scan_step, Hf1, Hf2, !andb_false_r. auto.
  - destruct (scan_bounds _ av ap Hne Hwf v2 ltac:(lra) Hhi) as (p2 & Hs2 & Hp2).
    destruct (scan_bounds _ av ap Hne Hwf v1 Hlo ltac:(lra)) as (p1 & Hs1 & Hp1).
    exists p1, p2. split; [exact Hs1|]. split; [exact Hs2|].
    change (lowest ((av, ap) :: (bv, bp) :: rest)) with (lowest ((bv, bp) :: rest)) in *.
    split; [|lia].
    assert (Ht2 : Qle_bool v2 av = true) by now apply Qle_bool_iff.
    assert (Hb2 : Qle_bool bv v2 = true) by now apply Qle_bool_iff.
    assert (Ht1 : Qle_bool v1 av = true) by (apply Qle_bool_iff; lra).
    rewrite scan_step in Hs1, Hs2. rewrite Ht2, Hb2 in Hs2. rewrite Ht1 in Hs1.
    cbn [andb] in Hs1, Hs2.
    destruct (Qle_bool bv v1) eqn:Hb1.
    + (* both in the first segment *)
      apply Qle_bool_iff in Hb1.
      destruct (interpolate_mono av ap bv bp Hgap Hperc v1 v2 Hb1 Hv Hhi)
        as (q1 & q2 & Hi1 & Hi2 & Hq).
      rewrite Hi1 in Hs1. rewrite Hi2 in Hs2.
      unfold mbind, py_bind, Py.bind in Hs1, Hs2.
      injection Hs1 as <-. injection Hs2 as <-. exact Hq.
    + (* v2 in the first segment, v1 below it *)
      assert (Hlt : v1 < bv).
      { apply Qnot_le_lt. intros Hle. apply Qle_bool_iff in Hle. congruence. }
      destruct (interpolate_bounds av ap bv bp Hgap Hperc v2 Hge2 Hhi)
        as (q2 & Hi2 & Hq2).
      rewrite Hi2 in Hs2. unfold mbind, py_bind, Py.bind in Hs2.
      injection Hs2 as <-.
      destruct rest as [|c rest'].
      * simpl in Hlo. lra.
      * destruct (scan_bounds (c :: rest') bv bp ltac:(discriminate) Hwf' v1 Hlo
                    ltac:(lra))
          as (q1 & Hi1 & Hq1).
        rewrite Hi1 in Hs1. injection Hs1 as <-. lia.
Qed.

(** The table of [battery.py] is such a curve. *)
Lemma curve_well_formed : well_formed (_CURVE rnd).
Proof.
  unfold _CURVE, flit. cbn [well_formed].
  repeat (split; [apply rnd_gap; unfold Qle, Qplus; cbn; lia|split; [lia|]]).
  lia.
Qed.

Lemma clamp_range v lo hi :
  lo <= hi -> lo <= clamp v lo hi <= hi.
Proof.
  intros Hle. unfold clamp, py_max, py_min, Qlt_bool.
  destruct (Qle_bool hi v) eqn:E1; cbn [negb];
    destruct (Qle_bool _ lo) eqn:E2; cbn [negb];
    try apply Qle_bool_iff in E1; try apply Qle_bool_iff in E2;
    try (assert (~ hi <= v) by (rewrite <- Qle_bool_iff; congruence));
    try (assert (~ v <= lo) by (rewrite <- Qle_bool_iff; congruence));
    try (assert (~ hi <= lo) by (rewrite <- Qle_bool_iff; congruence));
    split; lra.
Qed.

Lemma clamp_mono v1 v2 lo hi :
  lo <= hi -> v1 <= v2 -> clamp v1 lo hi <= clamp v2 lo hi.
Proof.
  intros Hle Hv. unfold clamp, py_max, py_min, Qlt_bool.
  destruct (Qle_bool hi v1) eqn:E1; cbn [negb];
    destruct (Qle_bool hi v2) eqn:E2; cbn [negb];
    repeat match goal with
      | |- context [Qle_bool ?a ?b] => destruct (Qle_bool a b) eqn:?; cbn [negb]
      end;
    repeat match goal with
      | H : Qle_bool _ _ = true |- _ => apply Qle_bool_iff in H
      | H : Qle_bool ?a ?b = false |- _ =>
          assert (~ a <= b) by (rewrite <- Qle_bool_iff; congruence); clear H
      end;
    lra.
Qed.

Lemma voltage_to_percent_mono v1 v2 :
  v1 <= v2 ->
  exists p1 p2,
    voltage_to_percent rnd v1 = Ret p1 /\
    voltage_to_percent rnd v2 = Ret p2 /\
    (p1 <= p2)%Z /\ (0 <= p1)%Z /\ (p2 <= 100)%Z.
Proof.
  intros Hv. unfold voltage_to_percent.
  assert (Hends : flit rnd (320 # 100) <= flit rnd (420 # 100)).
  { unfold flit. apply rnd_mono. unfold Qle; cbn; lia. }
  pose proof (clamp_range v1 _ _ Hends) as [Hlo1 Hhi1].
  pose proof (clamp_range v2 _ _ Hends) as [Hlo2 Hhi2].
  pose proof (clamp_mono v1 v2 _ _ Hends Hv) as Hc.
  assert (Hne : List.tl (_CURVE rnd) <> []) by (unfold _CURVE; simpl; discriminate).
  destruct (scan_mono (List.tl (_CURVE rnd)) (flit rnd (420 # 100)) 100%Z Hne
              curve_well_formed _ _ Hlo1 Hc Hhi2)
    as (p1 & p2 & Hs1 & Hs2 & Hle & H0 & H100).
  exists p1, p2.
  change ((flit rnd (420 # 100), 100%Z) :: List.tl (_CURVE rnd))
    with (_CURVE rnd) in Hs1, Hs2.
  unfold mbind, py_bind, Py.bind. rewrite Hs1, Hs2. auto.
Qed.

End rounding.

End BatteryFacts.

(** C6: the battery curve is monotone.  For every rounding [rnd] that is
    monotone and exact on the multiples of 1/64 up to 128 (exact arithmetic
    and round-to-nearest binary64 both are), and for all voltages
    [3.20 <= v1 < v2 <= 4.20], both calls of [voltage_to_percent] return, the
    results lie in 0..100, and the one for [v1] is at most the one for [v2]. *)
Theorem voltage_to_percent_monotone (rnd : Q -> Q) (v1 v2 : Q) :
  (forall x y, (x <= y)%Q -> (rnd x <= rnd y)%Q) ->
  (forall k : Z, -8192 <= k <= 8192 -> (rnd (k # 64) == k # 64)%Q) ->
  (320 # 100 <= v1)%Q -> (v1 < v2)%Q -> (v2 <= 420 # 100)%Q ->
  exists p1 p2,
    Battery.voltage_to_percent rnd v1 = Ret p1 /\
    Battery.voltage_to_percent rnd v2 = Ret p2 /\
    p1 <= p2 /\ 0 <= p1 /\ p2 <= 100.
Proof.
  intros Hmono Hgrid _ Hlt _.
  apply (BatteryFacts.voltage_to_percent_mono rnd Hmono Hgrid).
  now apply Qlt_le_weak.
Qed.

Lemma voltage_to_percent_monotone_witness :
  exists p1 p2,
    Battery.voltage_to_percent Battery.exact (350 # 100) = Ret p1 /\
    Battery.voltage_to_percent Battery.exact (390 # 100) = Ret p2 /\
    p1 <= p2 /\ 0 <= p1 /\ p2 <= 100.
Proof.
  apply (voltage_to_percent_monotone Battery.exact (350 # 100) (390 # 100)).
  - intros x y Hxy. exact Hxy.
  - intros k _. reflexivity.
  - unfold Qle. simpl. lia.
  - reflexivity.
  - unfold Qle. simpl. lia.
Defined.

(** ** Further properties *)

Lemma le_uint_nonneg bs : 0 <= le_uint bs.
Proof.
  induction bs as [|b bs IH]; simpl; [lia|].
  apply Z.lor_nonneg. split.
  - unfold byte_val. lia.
  - apply Z.shiftl_nonneg. exact IH.
Qed.

(** X1: the location of a V4 reading is the third byte of the unprefixed
    payload, clamped to 3: a value above 3 is never rejected, and the decoded
    location always lies in 0..3. *)
Theorem v4_location_is_clamped (mfg : bytes) :
  length mfg = 25%nat ->
  u16_at mfg 0 = PROTOCOL_V4 ->
  exists d,
    decode_payload mfg = Ret (Some (IsV4 d)) /\
    v4_location d = Z.min 3 (le_uint (take 1 (drop 2 mfg))) /\
    0 <= v4_location d <= 3.
Proof.
  intros Hlen Hw. unfold decode_payload.
  destruct (Nat.ltb_spec (length mfg) 2) as [Hlt|_]; [lia|].
  destruct (Nat.eqb_spec (length mfg) _LEN_V4_NOPREFIX) as [Hl|Hl];
    [|now rewrite Hlen in Hl].
  rewrite unpack_from_enough by (simpl; lia). simpl. rewrite drop_0.
  change (le_uint (take 2 mfg)) with (u16_at mfg 0). rewrite Hw. simpl.
  unfold decode_v4_noprefix. rewrite (unpack_exact _ _ Hl). simpl.
  eexists. split; [reflexivity|]. simpl.
  pose proof (le_uint_nonneg (take 1 (drop 2 mfg))) as Hnn.
  destruct (Z.ltb_spec 3 (le_uint (take 1 (drop 2 mfg)))); lia.
Qed.

Lemma v4_location_is_clamped_witness :
  exists d,
    decode_payload sample_v4 = Ret (Some (IsV4 d)) /\
    v4_location d = Z.min 3 (le_uint (take 1 (drop 2 sample_v4))) /\
    0 <= v4_location d <= 3.
Proof.
  apply (v4_location_is_clamped sample_v4); reflexivity.
Defined.

(** X2: backpressure.  A reading that passes the duplicate test while the
    queue is full is dropped: the callback returns normally, the queue and
    the batch buffer stay as they were.  The dropped reading has still been
    remembered in the dedup cache. *)
Theorem full_queue_drops_newest opts device adv source decoded st :
  carries device adv source decoded ->
  0 <= max_seq_cache opts ->
  Dict.get (last_seq_seen st) source <> Some (d_seq decoded) ->
  q_full opts st = true ->
  exists st',
    on_detect opts device adv st = (Ret tt, st') /\
    q st' = q st /\ buffer st' = buffer st /\
    Dict.get (last_seq_seen st') source = Some (d_seq decoded).
Proof.
  intros Hc Hmax Hnew Hfull.
  destruct (on_detect_carries opts _ _ _ _ Hc) as (raw_len & Hdet). rewrite Hdet.
  destruct (on_decoded_fresh opts source (rssi adv) decoded raw_len st Hmax Hnew)
    as (st' & Hrun & Hget & _ & Hq & Hb & _).
  rewrite Hfull in Hq. exists st'. split_and!; done.
Qed.

Lemma full_queue_drops_newest_witness :
  exists st',
    on_detect tiny_queue (nth_device 0) sample_advertisement queue_at_capacity
      = (Ret tt, st') /\
    q st' = q queue_at_capacity /\ buffer st' = buffer queue_at_capacity /\
    Dict.get (last_seq_seen st') (nth_source 0) = Some (d_seq sample_v4_reading).
Proof.
  apply (full_queue_drops_newest tiny_queue (nth_device 0) sample_advertisement
           (nth_source 0) sample_v4_reading queue_at_capacity).
  - exists sample_v4, 25%nat. split_and!; [apply lookup_singleton_eq|done|done|done|done].
  - simpl. lia.
  - discriminate.
  - reflexivity.
Defined.

(** X3: a flush with an empty buffer never writes: it restarts the flush
    timer, returns, and leaves the sink, the queue and the cache alone,
    forced or not. *)
Theorem empty_buffer_never_writes opts force now bulk_create st :
  buffer st = [] ->
  flush_buffer_if_needed opts force now bulk_create st
    = (Ret tt, set_last_flush now st).
Proof.
  intros Hb. unfold flush_buffer_if_needed. unfold mbind, pys_bind.
  rewrite flush_take_run, Hb. reflexivity.
Qed.

Lemma empty_buffer_never_writes_witness :
  flush_buffer_if_needed sample_options true 1 sink_down (initial_state 0)
    = (Ret tt, set_last_flush 1 (initial_state 0)).
Proof.
  apply (empty_buffer_never_writes sample_options true 1 sink_down (initial_state 0)).
  reflexivity.
Defined.



(** ** Bytes and [struct] round trips *)

Module StructFacts.

Lemma byte_val_range b : 0 <= byte_val b <= 255.
Proof.
  unfold byte_val. pose proof (Byte.to_N_bounded b). lia.
Qed.

Lemma lor_shiftl_8 a b : 0 <= a <= 255 -> Z.lor a (Z.shiftl b 8) = a + 256 * b.
Proof.
  intros Ha.
  assert (Hland : Z.land a (Z.shiftl b 8) = 0).
  { apply Z.bits_inj'. intros i Hi. rewrite Z.land_spec, Z.bits_0.
    destruct (Z.ltb_spec i 8) as [Hlt|Hge].
    - rewrite (Z.shiftl_spec_low b 8 i Hlt). apply andb_false_r.
    - assert (Hbit : Z.testbit a i = false).
      { destruct (Z.eq_dec a 0) as [->|Hnz]; [apply Z.bits_0|].
        apply Z.bits_above_log2; [lia|].
        assert (Z.log2 a < 8) by (apply Z.log2_lt_pow2; lia). lia. }
      now rewrite Hbit. }
  pose proof (Z.add_lor_land a (Z.shiftl b 8)) as Hadd.
  rewrite Hland, Z.add_0_r in Hadd.
  rewrite Hadd, Z.shiftl_mul_pow2 by lia. change (2 ^ 8) with 256. lia.
Qed.

Lemma le_uint_cons b rest : le_uint (b :: rest) = byte_val b + 256 * le_uint rest.
Proof. simpl. apply lor_shiftl_8, byte_val_range. Qed.

Lemma le_uint_range bs : 0 <= le_uint bs < 2 ^ (8 * Z.of_nat (length bs)).
Proof.
  induction bs as [|b bs IH].
  - simpl. lia.
  - rewrite le_uint_cons. pose proof (byte_val_range b).
    replace (8 * Z.of_nat (length (b :: bs))) with (8 + 8 * Z.of_nat (length bs))
      by (simpl length; lia).
    rewrite Z.pow_add_r by lia. change (2 ^ 8) with 256. lia.
Qed.

Lemma byte_of_low v :
  byte_val (default x00 (Byte.of_N (Z.to_N (Z.land v 0xFF)))) = v mod 256.
Proof.
  assert (Hland : Z.land v 0xFF = v mod 256).
  { change 0xFF with (Z.ones 8). rewrite Z.land_ones by lia. reflexivity. }
  rewrite Hland. pose proof (Z.mod_pos_bound v 256 ltac:(lia)) as Hb.
  destruct (Byte.of_N (Z.to_N (v mod 256))) as [b|] eqn:E.
  - apply Byte.to_of_N in E. unfold byte_val. simpl. rewrite E. lia.
  - apply Byte.of_N_None_iff in E. lia.
Qed.

Lemma length_to_bytes_little v n : length (to_bytes_little v n) = n.
Proof. revert v; induction n as [|n IH]; intros v; simpl; [reflexivity|now rewrite IH]. Qed.

Lemma le_uint_to_bytes_little v n :
  le_uint (to_bytes_little v n) = v mod 2 ^ (8 * Z.of_nat n).
Proof.
  revert v; induction n as [|n IH]; intros v.
  - simpl. now rewrite Z.mod_1_r.
  - cbn [to_bytes_little]. rewrite le_uint_cons, byte_of_low, IH.
    rewrite Z.shiftr_div_pow2 by lia. change (2 ^ 8) with 256.
    replace (8 * Z.of_nat (S n)) with (8 + 8 * Z.of_nat n) by lia.
    rewrite Z.pow_add_r by lia. change (2 ^ 8) with 256.
    rewrite Z.rem_mul_r by lia. reflexivity.
Qed.

Lemma length_encode c v : length (encode c v) = size c.
Proof. apply length_to_bytes_little. Qed.

Lemma testbit_15 u : 0 <= u < 65536 -> Z.testbit u 15 = (32768 <=? u).
Proof.
  intros Hu. pose proof (Z.testbit_spec' u 15 ltac:(lia)) as Hs.
  change (2 ^ 15) with 32768 in Hs.
  destruct (Z.leb_spec 32768 u) as [Hhi|Hlo].
  - replace (u / 32768) with 1 in Hs
      by (apply Z.div_unique with (r := u - 32768); lia).
    destruct (Z.testbit u 15); [reflexivity|discriminate].
  - rewrite Z.div_small in Hs by lia.
    destruct (Z.testbit u 15); [discriminate|reflexivity].
Qed.

(** Reading back what was written gives the value, for a value in range. *)
Lemma read_encode c v : in_range c v = true -> read c (encode c v) = v.
Proof.
  unfold in_range, read, encode. intros Hr.
  destruct c; rewrite le_uint_to_bytes_little; cbn [size] in *;
    apply andb_prop in Hr as [Hlo Hhi]; apply Z.leb_le in Hlo, Hhi.
  - apply Z.mod_small. lia.
  - unfold to_signed. change (16 - 1) with 15.
    change (2 ^ (8 * Z.of_nat 2)) with 65536. change (Z.shiftl 1 16) with 65536.
    pose proof (Z.mod_pos_bound v 65536 ltac:(lia)) as Hb.
    rewrite testbit_15 by exact Hb.
    destruct (Z.ltb_spec v 0) as [Hneg|Hpos].
    + assert (Hm : v mod 65536 = v + 65536)
        by (symmetry; apply Z.mod_unique with (q := -1); lia).
      rewrite Hm. destruct (Z.leb_spec 32768 (v + 65536)); lia.
    + rewrite (Z.mod_small v 65536) by lia.
      destruct (Z.leb_spec 32768 v); lia.
  - apply Z.mod_small. lia.
  - apply Z.mod_small. change (2 ^ (8 * Z.of_nat 4)) with 4294967296. lia.
Qed.

Lemma pack_length fmt : forall values bs,
  pack fmt values = Ret bs -> length bs = calcsize fmt.
Proof.
  induction fmt as [|c fmt IH]; intros [|v values] bs Hp; simpl in Hp; try discriminate.
  - now injection Hp as <-.
  - destruct (in_range c v); [|discriminate].
    destruct (pack fmt values) as [rest|e] eqn:E; [|discriminate].
    injection Hp as <-. rewrite length_app, length_encode, (IH _ _ E). reflexivity.
Qed.

Lemma fields_pack fmt : forall values bs,
  pack fmt values = Ret bs -> fields fmt bs = values.
Proof.
  induction fmt as [|c fmt IH]; intros [|v values] bs Hp; simpl in Hp; try discriminate.
  - reflexivity.
  - destruct (in_range c v) eqn:Hr; [|discriminate].
    destruct (pack fmt values) as [rest|e] eqn:E; [|discriminate].
    injection Hp as <-. cbn [fields].
    rewrite take_app_length' by (symmetry; apply length_encode).
    rewrite drop_app_length' by (symmetry; apply length_encode).
    now rewrite (read_encode c v Hr), (IH _ _ E).
Qed.

(** [unpack] undoes [pack]. *)
Lemma unpack_pack fmt values bs :
  pack fmt values = Ret bs -> unpack fmt bs = Ret values.
Proof.
  intros Hp. rewrite (unpack_exact _ _ (pack_length _ _ _ Hp)).
  now rewrite (fields_pack _ _ _ Hp).
Qed.

End StructFacts.

(** ** The decoder: which branch runs, and what it returns *)

Lemma decode_prefixed_routes mfg :
  (4 <= length mfg)%nat -> u16_at mfg 0 = COMPANY_ID ->
  decode_prefixed mfg =
    if (u16_at mfg 2 =? PROTOCOL_V4) && Nat.eqb (length mfg) _LEN_V4_PREFIXED
    then decode_v4_prefixed mfg
    else if u16_at mfg 2 =? PROTOCOL_V2 then decode_v2 mfg
    else if u16_at mfg 2 =? PROTOCOL_V3A then decode_v3a mfg
    else Ret None.
Proof.
  intros H4 Hc. unfold decode_prefixed.
  destruct (Nat.ltb_spec (length mfg) 4) as [Hlt|_]; [lia|].
  rewrite unpack_from_enough by (simpl; lia). simpl. rewrite ?drop_0.
  change (le_uint (take 2 mfg)) with (u16_at mfg 0).
  change (le_uint (take 2 (drop 2 mfg))) with (u16_at mfg 2).
  rewrite Hc. reflexivity.
Qed.

Lemma decode_payload_prefixed mfg :
  (4 <= length mfg)%nat -> length mfg <> 25%nat ->
  decode_payload mfg = decode_prefixed mfg.
Proof.
  intros H4 H25. unfold decode_payload.
  destruct (Nat.ltb_spec (length mfg) 2) as [Hlt|_]; [lia|].
  destruct (Nat.eqb_spec (length mfg) _LEN_V4_NOPREFIX) as [Hl|_]; [|reflexivity].
  now destruct H25.
Qed.

Lemma decode_payload_noprefix mfg :
  length mfg = 25%nat -> u16_at mfg 0 = PROTOCOL_V4 ->
  decode_payload mfg = decode_v4_noprefix mfg.
Proof.
  intros Hlen Hw. unfold decode_payload.
  destruct (Nat.ltb_spec (length mfg) 2) as [Hlt|_]; [lia|].
  destruct (Nat.eqb_spec (length mfg) _LEN_V4_NOPREFIX) as [Hl|Hl];
    [|now rewrite Hlen in Hl].
  rewrite unpack_from_enough by (simpl; lia). simpl. rewrite drop_0.
  change (le_uint (take 2 mfg)) with (u16_at mfg 0). now rewrite Hw.
Qed.

(** The header words of a packed buffer are its first two values. *)
Lemma packed_header fmt v0 v1 values bs :
  pack (H :: H :: fmt) (v0 :: v1 :: values) = Ret bs ->
  u16_at bs 0 = v0 /\ u16_at bs 2 = v1.
Proof.
  intros Hp. apply StructFacts.fields_pack in Hp. cbn [fields] in Hp.
  injection Hp as H0 H1 _. unfold u16_at. rewrite drop_0. now split.
Qed.

Lemma decode_packed_v2 t hum p batt fl s m0 m1 bs :
  pack _FMT_V2 [COMPANY_ID; PROTOCOL_V2; t; hum; p; batt; fl; s; m0; m1] = Ret bs ->
  decode_payload bs =
    Ret (Some (IsV2 {| v2_protocol := 2;
                       v2_temp_c := float_div t 100;
                       v2_hum_pct := float_div hum 100;
                       v2_press_hpa := float_div p 10;
                       v2_batt_mv := batt;
                       v2_flags := fl;
                       v2_seq := s;
                       v2_motion0 := m0;
                       v2_motion1 := m1 |})).
Proof.
  intros Hp.
  pose proof (StructFacts.pack_length _ _ _ Hp) as Hlen.
  pose proof (packed_header _ _ _ _ _ Hp) as [Hw0 Hw1].
  pose proof (StructFacts.unpack_pack _ _ _ Hp) as Hu.
  change (calcsize _FMT_V2) with 24%nat in Hlen.
  rewrite decode_payload_prefixed by lia.
  rewrite decode_prefixed_routes by (exact Hw0 || lia).
  rewrite Hw1, Hlen. cbn [Z.eqb PROTOCOL_V2 PROTOCOL_V4 Pos.eqb andb].
  unfold decode_v2. rewrite Hlen. change (Nat.eqb 24 _LEN_V2) with true. cbn [negb].
  rewrite Hu. reflexivity.
Qed.

(** X5: round trip, V2.  A buffer packed in the V2 layout with the company
    identifier and tag 2 decodes to the values that were packed, the
    fixed-point ones divided by their scale. *)
Theorem decode_pack_v2 t hum p batt fl s m0 m1 bs :
  pack _FMT_V2 [COMPANY_ID; PROTOCOL_V2; t; hum; p; batt; fl; s; m0; m1] = Ret bs ->
  decode_payload bs =
    Ret (Some (IsV2 {| v2_protocol := 2;
                       v2_temp_c := float_div t 100;
                       v2_hum_pct := float_div hum 100;
                       v2_press_hpa := float_div p 10;
                       v2_batt_mv := batt;
                       v2_flags := fl;
                       v2_seq := s;
                       v2_motion0 := m0;
                       v2_motion1 := m1 |})).
Proof. exact (decode_packed_v2 t hum p batt fl s m0 m1 bs). Qed.

Lemma decode_pack_v2_witness :
  decode_payload sample_v2 =
    Ret (Some (IsV2 {| v2_protocol := 2;
                       v2_temp_c := float_div 2234 100;
                       v2_hum_pct := float_div 5522 100;
                       v2_press_hpa := float_div 10132 10;
                       v2_batt_mv := 3700;
                       v2_flags := 0;
                       v2_seq := 7;
                       v2_motion0 := 0;
                       v2_motion1 := 0 |})).
Proof.
  apply (decode_pack_v2 2234 5522 10132 3700 0 7 0 0 sample_v2). reflexivity.
Defined.

(** X6: round trip, V3A: as for V2, with the battery percentage, the uptime
    and the dew point; the reserved byte is dropped. *)
Theorem decode_pack_v3a t hum p batt fl s m0 m1 pct rsv up dew bs :
  pack _FMT_V3A
    [COMPANY_ID; PROTOCOL_V3A; t; hum; p; batt; fl; s; m0; m1; pct; rsv; up; dew]
    = Ret bs ->
  decode_payload bs =
    Ret (Some (IsV3A {| v3_protocol := 3;
                        v3_temp_c := float_div t 100;
                        v3_hum_pct := float_div hum 100;
                        v3_press_hpa := float_div p 10;
                        v3_batt_mv := batt;
                        v3_flags := fl;
                        v3_seq := s;
                        v3_motion0 := m0;
                        v3_motion1 := m1;
                        v3_batt_pct := pct;
                        v3_uptime_min := up;
                        v3_dew_point_c := float_div dew 100 |})).
Proof.
  intros Hp.
  pose proof (StructFacts.pack_length _ _ _ Hp) as Hlen.
  pose proof (packed_header _ _ _ _ _ Hp) as [Hw0 Hw1].
  pose proof (StructFacts.unpack_pack _ _ _ Hp) as Hu.
  change (calcsize _FMT_V3A) with 26%nat in Hlen.
  rewrite decode_payload_prefixed by lia.
  rewrite decode_prefixed_routes by (exact Hw0 || lia).
  rewrite Hw1, Hlen.
  cbn [Z.eqb PROTOCOL_V2 PROTOCOL_V3A PROTOCOL_V4 Pos.eqb andb].
  unfold decode_v3a. rewrite Hlen. change (Nat.eqb 26 _LEN_V3A) with true. cbn [negb].
  rewrite Hu. reflexivity.
Qed.

Lemma decode_pack_v3a_witness :
  decode_payload sample_v3a =
    Ret (Some (IsV3A {| v3_protocol := 3;
                        v3_temp_c := float_div (-523) 100;
                        v3_hum_pct := float_div 5522 100;
                        v3_press_hpa := float_div 10132 10;
                        v3_batt_mv := 3700;
                        v3_flags := 1;
                        v3_seq := 65535;
                        v3_motion0 := 12;
                        v3_motion1 := 3;
                        v3_batt_pct := 30;
                        v3_uptime_min := 1440;
                        v3_dew_point_c := float_div (-1250) 100 |})).
Proof.
  apply (decode_pack_v3a (-523) 5522 10132 3700 1 65535 12 3 30 0 1440 (-1250)
           sample_v3a).
  reflexivity.
Defined.

Lemma decode_packed_v4 loc t hum p batt fl s m0 m1 pct rsv up dew bs :
  pack _FMT_V4_NOPREFIX [PROTOCOL_V4; loc; t; hum; p; batt; fl; s; m0; m1; pct; rsv; up; dew]
    = Ret bs ->
  let reading :=
    IsV4 {| v4_protocol := 4;
            v4_location := Z.min loc 3;
            v4_temp_c := float_div t 100;
            v4_hum_pct := float_div hum 100;
            v4_press_hpa := float_div p 10;
            v4_batt_mv := batt;
            v4_flags := fl;
            v4_seq := s;
            v4_motion0 := m0;
            v4_motion1 := m1;
            v4_batt_pct := pct;
            v4_uptime_min := up;
            v4_dew_point_c := float_div dew 100 |} in
  decode_payload bs = Ret (Some reading) /\
  decode_payload (_COMPANY_PREFIX ++ bs) = Ret (Some reading).
Proof.
  intros Hp reading.
  assert (Hloc : (if 3 <? loc then 3 else loc) = Z.min loc 3)
    by (destruct (Z.ltb_spec 3 loc); lia).
  pose proof (StructFacts.pack_length _ _ _ Hp) as Hlen.
  change (calcsize _FMT_V4_NOPREFIX) with 25%nat in Hlen.
  split.
  - pose proof (StructFacts.fields_pack _ _ _ Hp) as Hf.
    assert (Hw0 : u16_at bs 0 = PROTOCOL_V4).
    { cbn [fields _FMT_V4_NOPREFIX] in Hf. injection Hf as H0 _.
      unfold u16_at. now rewrite drop_0. }
    rewrite decode_payload_noprefix by assumption.
    unfold decode_v4_noprefix. rewrite (StructFacts.unpack_pack _ _ _ Hp).
    unfold reading. cbn. unfold build_v4. now rewrite Hloc.
  - assert (Hpp : pack _FMT_V4_PREFIXED
                    [COMPANY_ID; PROTOCOL_V4; loc; t; hum; p; batt; fl; s; m0; m1;
                     pct; rsv; up; dew] = Ret (_COMPANY_PREFIX ++ bs)).
    { change _FMT_V4_PREFIXED with (H :: _FMT_V4_NOPREFIX).
      cbn [pack]. change (in_range H COMPANY_ID) with true. cbn iota.
      rewrite Hp. reflexivity. }
    pose proof (StructFacts.pack_length _ _ _ Hpp) as Hlen2.
    pose proof (StructFacts.unpack_pack _ _ _ Hpp) as Hu.
    change (calcsize _FMT_V4_PREFIXED) with 27%nat in Hlen2.
    assert (Hhead : u16_at (_COMPANY_PREFIX ++ bs) 0 = COMPANY_ID /\
                    u16_at (_COMPANY_PREFIX ++ bs) 2 = PROTOCOL_V4).
    { change _FMT_V4_PREFIXED with (H :: H :: tail _FMT_V4_NOPREFIX) in Hpp.
      exact (packed_header _ _ _ _ _ Hpp). }
    destruct Hhead as [Hw0 Hw1].
    rewrite decode_payload_prefixed by lia.
    rewrite decode_prefixed_routes by (exact Hw0 || lia).
    rewrite Hw1, Hlen2.
    change ((PROTOCOL_V4 =? PROTOCOL_V4) && Nat.eqb 27 _LEN_V4_PREFIXED) with true.
    cbn iota. unfold decode_v4_prefixed. rewrite Hu.
    unfold reading. cbn. unfold build_v4. now rewrite Hloc.
Qed.

(** X7: round trip, V4.  A buffer packed in the unprefixed V4 layout with tag 4
    decodes to the values that were packed, the location clamped to 3, and
    so does the same buffer behind the two bytes of the company identifier. *)
Theorem decode_pack_v4 loc t hum p batt fl s m0 m1 pct rsv up dew bs :
  pack _FMT_V4_NOPREFIX [PROTOCOL_V4; loc; t; hum; p; batt; fl; s; m0; m1; pct; rsv; up; dew]
    = Ret bs ->
  let reading :=
    IsV4 {| v4_protocol := 4;
            v4_location := Z.min loc 3;
            v4_temp_c := float_div t 100;
            v4_hum_pct := float_div hum 100;
            v4_press_hpa := float_div p 10;
            v4_batt_mv := batt;
            v4_flags := fl;
            v4_seq := s;
            v4_motion0 := m0;
            v4_motion1 := m1;
            v4_batt_pct := pct;
            v4_uptime_min := up;
            v4_dew_point_c := float_div dew 100 |} in
  decode_payload bs = Ret (Some reading) /\
  decode_payload (_COMPANY_PREFIX ++ bs) = Ret (Some reading).
Proof. exact (decode_packed_v4 loc t hum p batt fl s m0 m1 pct rsv up dew bs). Qed.

Lemma decode_pack_v4_witness :
  decode_payload sample_v4 = Ret (Some sample_v4_reading) /\
  decode_payload (_COMPANY_PREFIX ++ sample_v4) = Ret (Some sample_v4_reading).
Proof.
  apply (decode_pack_v4 5 2234 5522 10132 3700 0 7 1 2 80 0 10 10000 sample_v4).
  reflexivity.
Defined.

(** A reading comes out of exactly one of the four layout branches. *)
Lemma decode_payload_some mfg r :
  decode_payload mfg = Ret (Some r) ->
  (length mfg = 24%nat /\ u16_at mfg 0 = COMPANY_ID /\ u16_at mfg 2 = PROTOCOL_V2 /\
   decode_v2 mfg = Ret (Some r)) \/
  (length mfg = 26%nat /\ u16_at mfg 0 = COMPANY_ID /\ u16_at mfg 2 = PROTOCOL_V3A /\
   decode_v3a mfg = Ret (Some r)) \/
  (length mfg = 25%nat /\ u16_at mfg 0 = PROTOCOL_V4 /\
   decode_v4_noprefix mfg = Ret (Some r)) \/
  (length mfg = 27%nat /\ u16_at mfg 0 = COMPANY_ID /\ u16_at mfg 2 = PROTOCOL_V4 /\
   decode_v4_prefixed mfg = Ret (Some r)).
Proof.
  intros Hd. pose proof (decode_payload_case mfg) as Hc. rewrite Hd in Hc.
  inversion Hc; subst.
  - right; right; left. split_and!; try done.
    now rewrite <- decode_payload_noprefix.
  - right; right; right. split_and!; try done.
    rewrite <- Hd, decode_payload_prefixed, decode_prefixed_routes by (done || lia).
    rewrite H3, H1. reflexivity.
  - left. split_and!; try done.
    rewrite <- Hd, decode_payload_prefixed, decode_prefixed_routes by (done || lia).
    rewrite H3, H1. reflexivity.
  - right; left. split_and!; try done.
    rewrite <- Hd, decode_payload_prefixed, decode_prefixed_routes by (done || lia).
    rewrite H3, H1. reflexivity.
Qed.

(** What [unpack] hands out fits its format character. *)
Lemma read_in_range c buf : in_range c (read c (take (size c) buf)) = true.
Proof.
  pose proof (StructFacts.le_uint_range (take (size c) buf)) as Hr.
  assert (Hlen : (length (take (size c) buf) <= size c)%nat)
    by (rewrite length_take; lia).
  assert (Hpow : 2 ^ (8 * Z.of_nat (length (take (size c) buf)))
                 <= 2 ^ (8 * Z.of_nat (size c)))
    by (apply Z.pow_le_mono_r; lia).
  unfold in_range, read.
  destruct c; cbn [size] in *.
  - change (2 ^ (8 * Z.of_nat 2)) with 65536 in Hpow.
    apply andb_true_intro; split; apply Z.leb_le; lia.
  - change (2 ^ (8 * Z.of_nat 2)) with 65536 in Hpow.
    unfold to_signed. change (16 - 1) with 15. change (Z.shiftl 1 16) with 65536.
    rewrite StructFacts.testbit_15 by lia.
    destruct (Z.leb_spec 32768 (le_uint (take 2 buf)));
      apply andb_true_intro; split; apply Z.leb_le; lia.
  - change (2 ^ (8 * Z.of_nat 1)) with 256 in Hpow.
    apply andb_true_intro; split; apply Z.leb_le; lia.
  - change (2 ^ (8 * Z.of_nat 4)) with 4294967296 in Hpow.
    apply andb_true_intro; split; apply Z.leb_le; lia.
Qed.

Lemma read_H_range buf : 0 <= read H (take 2 buf) <= 65535.
Proof.
  pose proof (read_in_range H buf) as Hr. unfold in_range in Hr. cbn [size] in Hr.
  apply andb_prop in Hr as [Hlo Hhi]. apply Z.leb_le in Hlo, Hhi. lia.
Qed.

Lemma read_h_range buf : -32768 <= read h (take 2 buf) <= 32767.
Proof.
  pose proof (read_in_range h buf) as Hr. unfold in_range in Hr. cbn [size] in Hr.
  apply andb_prop in Hr as [Hlo Hhi]. apply Z.leb_le in Hlo, Hhi. lia.
Qed.

Lemma read_B_range buf : 0 <= read B (take 1 buf) <= 255.
Proof.
  pose proof (read_in_range B buf) as Hr. unfold in_range in Hr. cbn [size] in Hr.
  apply andb_prop in Hr as [Hlo Hhi]. apply Z.leb_le in Hlo, Hhi. lia.
Qed.

Lemma read_I_range buf : 0 <= read I (take 4 buf) <= 4294967295.
Proof.
  pose proof (read_in_range I buf) as Hr. unfold in_range in Hr. cbn [size] in Hr.
  apply andb_prop in Hr as [Hlo Hhi]. apply Z.leb_le in Hlo, Hhi. lia.
Qed.

(** The layout branch a reading came from, with the reading spelled out. *)
Ltac explicit_reading Hd :=
  match type of Hd with
  | decode_v2 ?m = _ => unfold decode_v2 in Hd
  | decode_v3a ?m = _ => unfold decode_v3a in Hd
  | decode_v4_noprefix ?m = _ => unfold decode_v4_noprefix in Hd
  | decode_v4_prefixed ?m = _ => unfold decode_v4_prefixed in Hd
  end;
  match goal with
  | Hl : length ?m = _ |- _ =>
      rewrite ?Hl in Hd; cbn [Nat.eqb negb _LEN_V2 _LEN_V3A calcsize foldr size
                              _FMT_V2 _FMT_V3A Nat.add] in Hd;
      rewrite unpack_exact in Hd by (rewrite Hl; reflexivity)
  end;
  cbn [fields _FMT_V2 _FMT_V3A _FMT_V4_NOPREFIX _FMT_V4_PREFIXED size] in Hd;
  unfold mbind, py_bind, Py.bind in Hd;
  injection Hd as <-.

(** X8: the class of a reading, its [protocol] field, the tag in the buffer
    and the length of the buffer always agree. *)
Theorem reading_matches_tag_and_length mfg r :
  decode_payload mfg = Ret (Some r) ->
  match r with
  | IsV2 d => v2_protocol d = 2 /\ length mfg = 24%nat /\ u16_at mfg 2 = 2
  | IsV3A d => v3_protocol d = 3 /\ length mfg = 26%nat /\ u16_at mfg 2 = 3
  | IsV4 d =>
      v4_protocol d = 4 /\
      ((length mfg = 25%nat /\ u16_at mfg 0 = 4) \/
       (length mfg = 27%nat /\ u16_at mfg 2 = 4))
  end.
Proof.
  intros Hd.
  destruct (decode_payload_some mfg r Hd)
    as [(Hl & Hw0 & Hw1 & Hb)|[(Hl & Hw0 & Hw1 & Hb)|[(Hl & Hw0 & Hb)|(Hl & Hw0 & Hw1 & Hb)]]];
    explicit_reading Hb; cbn.
  - split_and!; done.
  - split_and!; done.
  - unfold u16_at in Hw0. rewrite drop_0 in Hw0. split; [exact Hw0|now left].
  - split; [exact Hw1|now right].
Qed.

Lemma reading_matches_tag_and_length_witness :
  v3_protocol
    {| v3_protocol := 3; v3_temp_c := float_div (-523) 100;
       v3_hum_pct := float_div 5522 100; v3_press_hpa := float_div 10132 10;
       v3_batt_mv := 3700; v3_flags := 1; v3_seq := 65535; v3_motion0 := 12;
       v3_motion1 := 3; v3_batt_pct := 30; v3_uptime_min := 1440;
       v3_dew_point_c := float_div (-1250) 100 |} = 3 /\
  length sample_v3a = 26%nat /\ u16_at sample_v3a 2 = 3.
Proof.
  apply (reading_matches_tag_and_length sample_v3a (IsV3A _)). reflexivity.
Defined.

Lemma float_div_le x y d : x <= y -> (float_div x d <= float_div y d)%Q.
Proof.
  intros Hx. unfold float_div, Qle. cbn [Qnum Qden]. nia.
Qed.

(** X9: every field of a reading lies in the range of its wire type: the
    16-bit counters in 0..65535 (so the sequence number wraps there), the
    motion counters in 0..2^32-1, the temperature within -327.68..327.67, the
    location in 0..3.  The battery percentage is only known to fit a byte:
    nothing confines it to 0..100. *)
Theorem reading_fields_in_range mfg r :
  decode_payload mfg = Ret (Some r) ->
  0 <= d_seq r <= 65535 /\
  0 <= d_batt_mv r <= 65535 /\
  0 <= d_flags r <= 65535 /\
  0 <= d_motion0 r <= 4294967295 /\
  0 <= d_motion1 r <= 4294967295 /\
  (float_div (-32768) 100 <= d_temp_c r <= float_div 32767 100)%Q /\
  (float_div 0 100 <= d_hum_pct r <= float_div 65535 100)%Q /\
  (float_div 0 10 <= d_press_hpa r <= float_div 65535 10)%Q /\
  match r with
  | IsV2 d => True
  | IsV3A d =>
      0 <= v3_batt_pct d <= 255 /\ 0 <= v3_uptime_min d <= 65535 /\
      (float_div (-32768) 100 <= v3_dew_point_c d <= float_div 32767 100)%Q
  | IsV4 d =>
      0 <= v4_location d <= 3 /\
      0 <= v4_batt_pct d <= 255 /\ 0 <= v4_uptime_min d <= 65535 /\
      (float_div (-32768) 100 <= v4_dew_point_c d <= float_div 32767 100)%Q
  end.
Proof.
  intros Hd.
  destruct (decode_payload_some mfg r Hd)
    as [(Hl & Hw0 & Hw1 & Hb)|[(Hl & Hw0 & Hw1 & Hb)|[(Hl & Hw0 & Hb)|(Hl & Hw0 & Hw1 & Hb)]]];
    explicit_reading Hb; cbn -[float_div to_signed le_uint];
    repeat match goal with
      | |- context [to_signed 16 (le_uint (take 2 ?b))] =>
          lazymatch goal with
          | _ : -32768 <= to_signed 16 (le_uint (take 2 b)) <= 32767 |- _ => fail
          | _ => pose proof (read_h_range b
                             : -32768 <= to_signed 16 (le_uint (take 2 b)) <= 32767)
          end
      | |- context [le_uint (take 2 ?b)] =>
          lazymatch goal with
          | _ : 0 <= le_uint (take 2 b) <= 65535 |- _ => fail
          | _ => pose proof (read_H_range b : 0 <= le_uint (take 2 b) <= 65535)
          end
      | |- context [le_uint (take 1 ?b)] =>
          lazymatch goal with
          | _ : 0 <= le_uint (take 1 b) <= 255 |- _ => fail
          | _ => pose proof (read_B_range b : 0 <= le_uint (take 1 b) <= 255)
          end
      | |- context [le_uint (take 4 ?b)] =>
          lazymatch goal with
          | _ : 0 <= le_uint (take 4 b) <= 4294967295 |- _ => fail
          | _ => pose proof (read_I_range b : 0 <= le_uint (take 4 b) <= 4294967295)
          end
      end;
    split_and!; try (apply float_div_le); try lia; try exact I;
    try match goal with
    | |- context [3 <? ?x] => destruct (Z.ltb_spec 3 x); lia
    end.
Qed.

Lemma reading_fields_in_range_witness :
  0 <= d_seq sample_v4_reading <= 65535 /\
  0 <= d_batt_mv sample_v4_reading <= 65535 /\
  0 <= d_flags sample_v4_reading <= 65535 /\
  0 <= d_motion0 sample_v4_reading <= 4294967295 /\
  0 <= d_motion1 sample_v4_reading <= 4294967295 /\
  (float_div (-32768) 100 <= d_temp_c sample_v4_reading <= float_div 32767 100)%Q /\
  (float_div 0 100 <= d_hum_pct sample_v4_reading <= float_div 65535 100)%Q /\
  (float_div 0 10 <= d_press_hpa sample_v4_reading <= float_div 65535 10)%Q /\
  match sample_v4_reading with
  | IsV2 d => True
  | IsV3A d =>
      0 <= v3_batt_pct d <= 255 /\ 0 <= v3_uptime_min d <= 65535 /\
      (float_div (-32768) 100 <= v3_dew_point_c d <= float_div 32767 100)%Q
  | IsV4 d =>
      0 <= v4_location d <= 3 /\
      0 <= v4_batt_pct d <= 255 /\ 0 <= v4_uptime_min d <= 65535 /\
      (float_div (-32768) 100 <= v4_dew_point_c d <= float_div 32767 100)%Q
  end.
Proof.
  apply (reading_fields_in_range sample_v4 sample_v4_reading). reflexivity.
Defined.

(** X10: for every buffer that starts with the company identifier 0xFFFF
    followed by the protocol tag 0x0003, [decode_payload] returns a V3A
    reading if and only if the buffer is exactly 26 bytes long; with any
    other length it returns [None]. *)
Theorem decode_v3a_iff_26_bytes (mfg : bytes) :
  (4 <= length mfg)%nat ->
  u16_at mfg 0 = COMPANY_ID ->
  u16_at mfg 2 = PROTOCOL_V3A ->
  ((exists d, decode_payload mfg = Ret (Some (IsV3A d))) <-> length mfg = 26%nat) /\
  (length mfg <> 26%nat -> decode_payload mfg = Ret None).
Proof.
  intros H4 Hw0 Hw1.
  pose proof (decode_payload_case mfg) as Hc.
  destruct Hc; try decode_contra.
  - split; [split; [intros _; assumption|eauto]|]. intros; contradiction.
  - split; [split; [intros [d Hd]; discriminate|intros; contradiction]|reflexivity].
Qed.

Lemma decode_v3a_iff_26_bytes_witness :
  ((exists d, decode_payload sample_v3a = Ret (Some (IsV3A d))) <->
     length sample_v3a = 26%nat) /\
  (length sample_v3a <> 26%nat -> decode_payload sample_v3a = Ret None).
Proof.
  apply (decode_v3a_iff_26_bytes sample_v3a).
  - vm_compute. lia.
  - reflexivity.
  - reflexivity.
Defined.

(** X11: a buffer that does not start with the company identifier is decoded
    only in the one case of the unprefixed V4 layout; otherwise it yields
    [None], whatever its length and content, and so does every buffer of
    fewer than four bytes. *)
Theorem foreign_or_short_buffer_is_rejected (mfg : bytes) :
  ((length mfg < 4)%nat \/ u16_at mfg 0 <> COMPANY_ID) ->
  (length mfg <> 25%nat \/ u16_at mfg 0 <> PROTOCOL_V4) ->
  decode_payload mfg = Ret None.
Proof.
  intros Hfs Hnot.
  pose proof (decode_payload_case mfg) as Hc.
  destruct Hc; try reflexivity; decode_contra.
Qed.

Lemma foreign_or_short_buffer_is_rejected_witness :
  decode_payload [x4c; x00; x02; x15; x01; x02] = Ret None.
Proof.
  apply (foreign_or_short_buffer_is_rejected [x4c; x00; x02; x15; x01; x02]).
  - right. discriminate.
  - left. discriminate.
Defined.

(** ** Which payloads are accepted *)

Lemma decode_payload_returns mfg : exists r, decode_payload mfg = Ret r.
Proof. destruct (decode_payload_case mfg); eauto. Qed.

Lemma decode_payload_accepts (mfg : bytes) :
  (exists r, decode_payload mfg = Ret (Some r)) <->
  (length mfg = 25%nat /\ u16_at mfg 0 = PROTOCOL_V4) \/
  (u16_at mfg 0 = COMPANY_ID /\
   ((length mfg = 24%nat /\ u16_at mfg 2 = PROTOCOL_V2) \/
    (length mfg = 26%nat /\ u16_at mfg 2 = PROTOCOL_V3A) \/
    (length mfg = 27%nat /\ u16_at mfg 2 = PROTOCOL_V4))).
Proof.
  split.
  - intros [r Hd].
    destruct (decode_payload_some mfg r Hd)
      as [(Hl & Hw0 & Hw1 & _)|[(Hl & Hw0 & Hw1 & _)|[(Hl & Hw0 & _)|(Hl & Hw0 & Hw1 & _)]]];
      tauto.
  - pose proof (decode_payload_case mfg) as Hc.
    intros [[Hl Hw]|[Hw0 [[Hl Hw1]|[[Hl Hw1]|[Hl Hw1]]]]];
      destruct Hc; try decode_contra; eauto.
Qed.

(** X12: [decode_payload] accepts exactly four combinations of length and
    header, and nothing else: 25 bytes starting with the word 0x0004; or the
    company identifier followed by tag 2 in 24 bytes, tag 3 in 26 bytes, tag
    4 in 27 bytes. *)
Theorem decode_accepts_exactly (mfg : bytes) :
  (exists r, decode_payload mfg = Ret (Some r)) <->
  (length mfg = 25%nat /\ u16_at mfg 0 = PROTOCOL_V4) \/
  (u16_at mfg 0 = COMPANY_ID /\
   ((length mfg = 24%nat /\ u16_at mfg 2 = PROTOCOL_V2) \/
    (length mfg = 26%nat /\ u16_at mfg 2 = PROTOCOL_V3A) \/
    (length mfg = 27%nat /\ u16_at mfg 2 = PROTOCOL_V4))).
Proof. exact (decode_payload_accepts mfg). Qed.

Lemma u16_at_prefixed raw :
  (2 <= length raw)%nat ->
  u16_at (_COMPANY_PREFIX ++ raw) 0 = COMPANY_ID /\
  u16_at (_COMPANY_PREFIX ++ raw) 2 = u16_at raw 0.
Proof.
  intros Hlen. destruct raw as [|b0 [|b1 raw]]; simpl in Hlen; try lia.
  split; reflexivity.
Qed.

Lemma decode_from_mfg_value_run raw :
  _decode_from_mfg_value raw =
    match decode_payload raw with
    | Ret (Some d) => Ret (Some d, length raw)
    | Ret None =>
        match decode_payload (_COMPANY_PREFIX ++ raw) with
        | Ret (Some d) => Ret (Some d, length (_COMPANY_PREFIX ++ raw))
        | Ret None => Ret (None, length raw)
        | Raise e => Raise e
        end
    | Raise e => Raise e
    end.
Proof.
  unfold _decode_from_mfg_value, mbind, py_bind, Py.bind.
  destruct (decode_payload raw) as [[d|]|e]; try reflexivity.
  destruct (decode_payload (_COMPANY_PREFIX ++ raw)) as [[d|]|e]; reflexivity.
Qed.

(** X13: [_decode_from_mfg_value] never raises, and it finds a reading in
    exactly these payloads: one that decodes as delivered (the four cases
    of [decode_payload]), or one whose company identifier the scanner has
    stripped: 22 bytes starting with the word 2, or 24 bytes starting with the
    word 3.  The length it reports is that of the buffer that decoded. *)
Theorem decode_from_mfg_value_accepts (raw : bytes) :
  (exists r n, _decode_from_mfg_value raw = Ret (r, n) /\
     (length raw <= n <= length raw + 2)%nat) /\
  ((exists d n, _decode_from_mfg_value raw = Ret (Some d, n)) <->
   (exists d, decode_payload raw = Ret (Some d)) \/
   (length raw = 22%nat /\ u16_at raw 0 = PROTOCOL_V2) \/
   (length raw = 24%nat /\ u16_at raw 0 = PROTOCOL_V3A)).
Proof.
  rewrite decode_from_mfg_value_run.
  destruct (decode_payload_returns raw) as [r1 Hr1].
  destruct (decode_payload_returns (_COMPANY_PREFIX ++ raw)) as [r2 Hr2].
  rewrite Hr1, Hr2.
  assert (Hpre : (exists d, r2 = Some d) <->
                 (length raw = 22%nat /\ u16_at raw 0 = PROTOCOL_V2) \/
                 (length raw = 24%nat /\ u16_at raw 0 = PROTOCOL_V3A) \/
                 (length raw = 25%nat /\ u16_at raw 0 = PROTOCOL_V4)).
  { assert (Hl : length (_COMPANY_PREFIX ++ raw) = S (S (length raw))) by reflexivity.
    destruct (Nat.le_gt_cases 2 (length raw)) as [H2|H2].
    - destruct (u16_at_prefixed raw H2) as [Hw0 Hw1].
      pose proof (decode_payload_accepts (_COMPANY_PREFIX ++ raw)) as Hacc.
      rewrite Hr2, Hw0, Hw1, Hl in Hacc.
      split.
      + intros [d ->]. destruct Hacc as [Hacc _].
        destruct (Hacc (ex_intro _ d eq_refl))
          as [[_ Hc]|[_ [[Hlen Hw]|[[Hlen Hw]|[Hlen Hw]]]]];
          [discriminate Hc| | |]; (split_and || idtac);
          [left|right; left|right; right]; (split; [lia|exact Hw]).
      + intros Hcase. destruct Hacc as [_ Hacc].
        destruct Hacc as [d Hd].
        * right. split; [reflexivity|].
          destruct Hcase as [[Hlen Hw]|[[Hlen Hw]|[Hlen Hw]]];
            [left|right; left|right; right]; (split; [lia|exact Hw]).
        * injection Hd as ->. eauto.
    - split.
      + intros [d ->].
        pose proof (decode_payload_case (_COMPANY_PREFIX ++ raw)) as Hc.
        rewrite Hr2 in Hc. inversion Hc; rewrite Hl in *; lia.
      + intros [[Hlen _]|[[Hlen _]|[Hlen _]]]; lia. }
  split.
  - destruct r1 as [d|]; [eexists _, _; split; [reflexivity|lia]|].
    destruct r2 as [d|]; eexists _, _; (split; [reflexivity|]); simpl; lia.
  - split.
    + destruct r1 as [d|]; [eauto|].
      destruct r2 as [d|]; [|intros (d & n & Hd); discriminate].
      intros _. destruct Hpre as [Hpre _].
      destruct (Hpre (ex_intro _ d eq_refl)) as [Hc|[Hc|[Hl Hw]]]; [tauto|tauto|].
      exfalso.
      pose proof (proj2 (decode_payload_accepts raw) (or_introl (conj Hl Hw)))
        as [r Hr]. rewrite Hr1 in Hr. discriminate.
    + intros [[d Hd]|Hcase].
      * injection Hd as ->. eauto.
      * destruct r1 as [d|]; [eauto|].
        destruct (proj2 Hpre) as [d ->]; [tauto|]. eauto.
Qed.

(** ** The callback on every kind of event *)

Lemma decode_from_mfg_value_returns raw :
  exists r n, _decode_from_mfg_value raw = Ret (r, n).
Proof.
  rewrite decode_from_mfg_value_run.
  destruct (decode_payload_returns raw) as [[d|] ->]; [eauto|].
  destruct (decode_payload_returns (_COMPANY_PREFIX ++ raw)) as [[d|] ->]; eauto.
Qed.

(** What [on_detect] does with an event, by what the event carries. *)
Lemma on_detect_cases opts device adv :
  (exists source decoded raw_len,
     carries device adv source decoded /\
     forall st, on_detect opts device adv st
                = on_decoded opts source (rssi adv) decoded raw_len st) \/
  ((forall source decoded, ~ carries device adv source decoded) /\
   forall st, exists st',
     on_detect opts device adv st = (Ret tt, st') /\ same_but_logs st st' /\
     stderr st' = stderr st /\ (debug opts = false -> st' = st)).
Proof.
  unfold on_detect.
  destruct (default ∅ (manufacturer_data adv) !! _COMPANY_ID) as [[|b mfg]|] eqn:Hmd.
  - right. split.
    + intros source decoded (mfg & n & Hmd' & Hne & _). congruence.
    + intros st. exists st. split_and!; first [done | apply same_but_logs_refl].
  - destruct (String.eqb_spec (_pick_address device) "") as [Hsrc|Hsrc].
    + right. split.
      * intros source decoded (mfg' & n & _ & _ & Hs & Hs' & _). congruence.
      * intros st. exists st. split_and!; first [done | apply same_but_logs_refl].
    + destruct (decode_from_mfg_value_returns (b :: mfg)) as ([decoded|] & n & Hdec).
      * left. exists (_pick_address device), decoded, n. split.
        -- exists (b :: mfg), n. split_and!; done.
        -- intros st. unfold mbind at 1, pys_bind at 1, lift. now rewrite Hdec.
      * right. split.
        -- intros source decoded (mfg' & n' & Hmd' & _ & _ & _ & Hdec').
           rewrite Hmd in Hmd'. injection Hmd' as <-. congruence.
        -- intros st. unfold mbind at 1, pys_bind at 1, lift. rewrite Hdec.
           destruct (debug opts); run_pys; eexists; split_and!; done.
  - right. split.
    + intros source decoded (mfg & n & Hmd' & _). congruence.
    + intros st. exists st. split_and!; first [done | apply same_but_logs_refl].
Qed.

(** X14: an event that carries no reading is ignored.  Without manufacturer
    data, without data under company id 0xFFFF, with an empty payload,
    without a device address, or with a payload that does not decode, the
    callback returns normally and changes neither queue, cache, buffer,
    timer nor sink; it writes nothing to stderr, and nothing at all unless
    [--debug] is set. *)
Theorem event_without_reading_is_ignored opts device adv st :
  (forall source decoded, ~ carries device adv source decoded) ->
  exists st',
    on_detect opts device adv st = (Ret tt, st') /\ same_but_logs st st' /\
    stderr st' = stderr st /\ (debug opts = false -> st' = st).
Proof.
  intros Hnot.
  destruct (on_detect_cases opts device adv) as [(s & d & n & Hc & _)|[_ Hrun]].
  - destruct (Hnot s d Hc).
  - apply Hrun.
Qed.

(** X15: with a cache size that is not negative the callback never raises,
    whatever the event and the state, and it puts at most one row on the
    queue: the row made from the reading the event carries. *)
Theorem on_detect_never_raises opts device adv st :
  0 <= max_seq_cache opts ->
  exists st',
    on_detect opts device adv st = (Ret tt, st') /\
    (q st' = q st \/
     exists source decoded,
       carries device adv source decoded /\
       q st' = q st ++ [make_row source (rssi adv) decoded]).
Proof.
  intros Hmax.
  destruct (on_detect_cases opts device adv) as [(s & d & n & Hc & Hrun)|[_ Hrun]].
  - rewrite Hrun.
    destruct (decide (Dict.get (last_seq_seen st) s = Some (d_seq d))) as [Hdup|Hnew].
    + destruct (on_decoded_duplicate opts s (rssi adv) d n st Hdup)
        as (st' & -> & Hq & _).
      exists st'. split; [reflexivity|]. now left.
    + destruct (on_decoded_fresh opts s (rssi adv) d n st Hmax Hnew)
        as (st' & -> & _ & _ & Hq & _).
      exists st'. split; [reflexivity|].
      destruct (q_full opts st); [now left|]. right. eauto.
  - destruct (Hrun st) as (st' & -> & (Hq & _) & _).
    exists st'. split; [reflexivity|]. now left.
Qed.

(** What the callback does to the queue: nothing, or one row appended to a
    queue that had room, counted as an unfinished task. *)
Lemma on_decoded_queue opts source rssi decoded raw_len st :
  forall st', st' = (on_decoded opts source rssi decoded raw_len st).2 ->
  (q st' = q st /\ unfinished_tasks st' = unfinished_tasks st) \/
  (q_full opts st = false /\ q st' = q st ++ [make_row source rssi decoded] /\
   unfinished_tasks st' = unfinished_tasks st + 1).
Proof.
  intros st0 ->. destruct (on_decoded opts source rssi decoded raw_len st) as [r st'] eqn:E.
  simpl. revert E. unfold on_decoded.
  unfold mbind at 1, pys_bind at 1. rewrite is_duplicate_run.
  case_bool_decide.
  - destruct (when_log_stdout (debug opts) (LogDupDrop source (d_seq decoded)) st)
      as (st2 & Hrun & Hq & Hu & _). rewrite Hrun. intros [= _ <-]. now left.
  - unfold mbind at 1, pys_bind at 1. rewrite remember_seq_run.
    unfold put_nowait. run_pys.
    assert (Hfull : forall d, q_full opts (set_last_seq_seen d st) = q_full opts st)
      by reflexivity.
    destruct (max_seq_cache opts <? Dict.len (last_seq_seen st));
      [destruct (last_seq_seen st) as [|kv rest]; simpl; [intros [= _ <-]; now left|]|];
      rewrite Hfull; destruct (q_full opts st); simpl;
      destruct (debug opts); simpl; intros [= _ <-]; simpl; auto.
Qed.

Lemma on_detect_queue opts device adv st :
  forall st', st' = (on_detect opts device adv st).2 ->
  (q st' = q st /\ unfinished_tasks st' = unfinished_tasks st) \/
  (q_full opts st = false /\ (exists row, q st' = q st ++ [row]) /\
   unfinished_tasks st' = unfinished_tasks st + 1).
Proof.
  intros st' ->.
  destruct (on_detect_cases opts device adv) as [(s & d & n & _ & Hrun)|[_ Hrun]].
  - rewrite Hrun.
    destruct (on_decoded_queue opts s (rssi adv) d n st _ eq_refl) as [H|(Hf & Hq & Hu)];
      [now left|right; eauto].
  - destruct (Hrun st) as (st' & -> & (Hq & Hu & _) & _). now left.
Qed.

(** What a flush does to the state, apart from the sink and the output. *)
Lemma flush_write_frame opts bulk_create rows st :
  forall st', st' = (flush_write opts bulk_create rows st).2 ->
  q st' = q st /\ unfinished_tasks st' = unfinished_tasks st /\
  last_seq_seen st' = last_seq_seen st /\ buffer st' = buffer st /\
  last_flush st' = last_flush st.
Proof.
  intros st' ->. unfold flush_write. run_pys.
  destruct (bulk_create rows) as [[]|e]; simpl.
  - now destruct (debug opts).
  - now destruct (is_Exception e).
Qed.

Lemma flush_take_frame opts force now st :
  forall st', st' = (flush_take opts force now st).2 ->
  q st' = q st /\ unfinished_tasks st' = unfinished_tasks st /\
  last_seq_seen st' = last_seq_seen st /\ db st' = db st /\
  (buffer st' = buffer st \/ buffer st' = []).
Proof.
  intros st' ->. rewrite flush_take_run. destruct (buffer st) as [|item rest] eqn:Hb.
  - simpl. rewrite Hb. split_and!; auto.
  - destruct (negb force && _ && _); simpl; rewrite ?Hb; split_and!; auto.
Qed.

Lemma flush_frame opts force now bulk_create st :
  forall st', st' = (flush_buffer_if_needed opts force now bulk_create st).2 ->
  q st' = q st /\ unfinished_tasks st' = unfinished_tasks st /\
  last_seq_seen st' = last_seq_seen st /\
  (buffer st' = buffer st \/ buffer st' = []).
Proof.
  intros st' ->. unfold flush_buffer_if_needed. unfold mbind, pys_bind.
  rewrite flush_take_run. destruct (buffer st) as [|item rest] eqn:Hb.
  - simpl. rewrite Hb. split_and!; auto.
  - destruct (negb force && _ && _); simpl; rewrite ?Hb; [split_and!; auto|].
    destruct (flush_write_frame opts bulk_create (item :: rest)
                (set_last_flush now (set_buffer [] st)) _ eq_refl) as (Hq & Hu & Hc & Hbuf & _).
    simpl in *. split_and!; auto.
Qed.

Lemma task_done_frame st :
  forall st', st' = (task_done st).2 ->
  q st' = q st /\ last_seq_seen st' = last_seq_seen st /\ buffer st' = buffer st /\
  db st' = db st.
Proof. intros st' ->. unfold task_done. now destruct (unfinished_tasks st <=? 0). Qed.

(** A turn of the writer, as runs of its parts. *)
Lemma db_writer_turn_run opts now bulk_create st :
  db_writer_turn opts now bulk_create st =
    match q st with
    | [] => flush_buffer_if_needed opts false now bulk_create st
    | item :: rest =>
        let (r, st1) := flush_buffer_if_needed opts false now bulk_create
                          (set_buffer (buffer st ++ [item]) (set_q rest st)) in
        match task_done st1 with
        | (Ret _, st2) => (r, st2)
        | (Raise e, st2) => (Raise e, st2)
        end
    end.
Proof.
  unfold db_writer_turn.
  unfold mbind at 1, pys_bind at 1, gets.
  destruct (q st) as [|item rest]; [reflexivity|].
  unfold mbind at 1, pys_bind at 1, modify, try_finally.
  unfold mbind at 1, pys_bind at 1. reflexivity.
Qed.

Lemma db_writer_turn_queue opts now bulk_create st :
  forall st', st' = (db_writer_turn opts now bulk_create st).2 ->
  q st' = List.tl (q st) /\ last_seq_seen st' = last_seq_seen st.
Proof.
  intros st' ->. rewrite db_writer_turn_run. destruct (q st) as [|item rest] eqn:Hq.
  - destruct (flush_frame opts false now bulk_create st _ eq_refl) as (Hq' & _ & Hc & _).
    simpl in *. rewrite Hq', Hq. auto.
  - set (st0 := set_buffer _ _).
    destruct (flush_frame opts false now bulk_create st0 _ eq_refl) as (Hq' & _ & Hc & _).
    destruct (flush_buffer_if_needed opts false now bulk_create st0) as [r st1].
    destruct (task_done_frame st1 _ eq_refl) as (Hq1 & Hc1 & _).
    destruct (task_done st1) as [[[]|e] st2]; simpl in *; split; congruence.
Qed.

(** X16: the queue respects [--queue-max].  With a positive [queue_max], in
    every state the worker can reach, whatever the events and however the
    writer and the flushes interleave, the queue holds at most [queue_max]
    rows. *)
Theorem queue_never_exceeds_queue_max opts st :
  0 < queue_max opts ->
  reachable opts st ->
  Z.of_nat (length (q st)) <= queue_max opts.
Proof.
  intros Hmax [t0 Hreach].
  apply (rtc_ind_r (R := step opts)
           (fun s => Z.of_nat (length (q s)) <= queue_max opts)
           (initial_state t0)); [| |exact Hreach].
  - simpl. lia.
  - intros y z _ Hstep IH. destruct Hstep.
    + destruct (on_detect_queue opts device advertisement_data st0 _ eq_refl)
        as [[-> _]|(Hfull & [row ->] & _)]; [exact IH|].
      unfold q_full in Hfull.
      destruct (Z.leb_spec (queue_max opts) 0); [lia|].
      destruct (Z.leb_spec (queue_max opts) (Z.of_nat (length (q st0))));
        [discriminate|].
      rewrite length_app. simpl. lia.
    + destruct (db_writer_turn_queue opts now bulk_create st0 _ eq_refl) as [-> _].
      destruct (q st0); simpl in *; lia.
    + destruct (flush_frame opts force now bulk_create st0 _ eq_refl) as [-> _]. exact IH.
    + destruct (flush_take_frame opts force now st0 _ eq_refl) as [-> _]. exact IH.
    + destruct (flush_write_frame opts bulk_create rows st0 _ eq_refl) as [-> _]. exact IH.
    + match goal with Hq : q _ = _ :: _ |- _ => rewrite Hq in IH end.
      simpl in *. lia.
    + destruct (task_done_frame st0 _ eq_refl) as [-> _]. exact IH.
Qed.

Lemma queue_never_exceeds_queue_max_witness :
  length (q (on_detect tiny_queue (nth_device 0) sample_advertisement
               (initial_state 0)).2) = 1%nat /\
  Z.of_nat (length (q (on_detect tiny_queue (nth_device 0) sample_advertisement
                         (initial_state 0)).2)) <= queue_max tiny_queue.
Proof.
  split; [reflexivity|].
  apply (queue_never_exceeds_queue_max tiny_queue).
  - simpl. lia.
  - exists 0%Q.
    eapply rtc_l; [apply (step_on_detect tiny_queue (nth_device 0) sample_advertisement)|].
    apply rtc_refl.
Defined.

Lemma event_without_reading_is_ignored_witness :
  exists st',
    on_detect sample_options (nth_device 0) foreign_advertisement seen_nine
      = (Ret tt, st') /\ same_but_logs seen_nine st' /\
    stderr st' = stderr seen_nine /\ (debug sample_options = false -> st' = seen_nine).
Proof.
  apply (event_without_reading_is_ignored sample_options (nth_device 0)
           foreign_advertisement seen_nine).
  intros source decoded (mfg & n & Hmd & _). vm_compute in Hmd. discriminate.
Defined.

Lemma on_detect_never_raises_witness :
  exists st',
    on_detect sample_options (nth_device 0) sample_advertisement (initial_state 0)
      = (Ret tt, st') /\
    (q st' = q (initial_state 0) \/
     exists source decoded,
       carries (nth_device 0) sample_advertisement source decoded /\
       q st' = q (initial_state 0)
               ++ [make_row source (rssi sample_advertisement) decoded]).
Proof.
  apply (on_detect_never_raises sample_options (nth_device 0) sample_advertisement
           (initial_state 0)).
  simpl. lia.
Defined.

(** With a negative cache size and an empty cache, a reading that reaches
    the dedup step makes [_remember_seq] raise before anything is stored. *)
Lemma on_decoded_negative opts source rssi decoded raw_len st :
  max_seq_cache opts < 0 -> last_seq_seen st = [] ->
  on_decoded opts source rssi decoded raw_len st = (Raise StopIteration, st).
Proof.
  intros Hmax Hc. unfold on_decoded.
  unfold mbind at 1, pys_bind at 1. rewrite is_duplicate_run, Hc.
  case_bool_decide; [discriminate|].
  unfold mbind at 1, pys_bind at 1. rewrite remember_seq_run, Hc.
  change (Dict.len []) with 0.
  destruct (Z.ltb_spec (max_seq_cache opts) 0); [reflexivity|lia].
Qed.

(** X17: a negative [--max-seq-cache] stops ingestion altogether.  In every
    state the worker can reach, the dedup cache, the queue and the buffer are
    empty, and every event that carries a reading makes the callback raise
    [StopIteration] (from [next(iter(last_seq_seen))] on the empty cache)
    before the reading is remembered or queued. *)
Theorem negative_cache_size_stops_ingestion opts st :
  max_seq_cache opts < 0 ->
  reachable opts st ->
  (last_seq_seen st = [] /\ q st = [] /\ buffer st = []) /\
  forall device adv source decoded,
    carries device adv source decoded ->
    on_detect opts device adv st = (Raise StopIteration, st).
Proof.
  intros Hmax [t0 Hreach].
  assert (Hinv : last_seq_seen st = [] /\ q st = [] /\ buffer st = []).
  { apply (rtc_ind_r (R := step opts)
             (fun s => last_seq_seen s = [] /\ q s = [] /\ buffer s = [])
             (initial_state t0)); [| |exact Hreach].
    - now split_and!.
    - intros y z _ Hstep (Hc & Hq & Hb). destruct Hstep.
      + destruct (on_detect_cases opts device advertisement_data)
          as [(s & d & n & _ & Hrun)|[_ Hrun]].
        * rewrite Hrun, (on_decoded_negative opts s _ d n st0 Hmax Hc). now split_and!.
        * destruct (Hrun st0) as (st' & -> & (Hq' & _ & Hc' & Hb' & _) & _).
          simpl. split_and!; congruence.
      + destruct (db_writer_turn_queue opts now bulk_create st0 _ eq_refl) as [Hq' Hc'].
        split_and!; [congruence|now rewrite Hq', Hq|].
        rewrite db_writer_turn_run, Hq.
        destruct (flush_frame opts false now bulk_create st0 _ eq_refl)
          as (_ & _ & _ & [Hb'|Hb']); congruence.
      + destruct (flush_frame opts force now bulk_create st0 _ eq_refl)
          as (Hq' & _ & Hc' & [Hb'|Hb']); split_and!; congruence.
      + destruct (flush_take_frame opts force now st0 _ eq_refl)
          as (Hq' & _ & Hc' & _ & [Hb'|Hb']); split_and!; congruence.
      + destruct (flush_write_frame opts bulk_create rows st0 _ eq_refl)
          as (Hq' & _ & Hc' & Hb' & _); split_and!; congruence.
      + congruence.
      + destruct (task_done_frame st0 _ eq_refl) as (Hq' & Hc' & Hb' & _).
        split_and!; congruence. }
  split; [exact Hinv|].
  intros device adv source decoded Hcar.
  destruct (on_detect_carries opts _ _ _ _ Hcar) as (raw_len & ->).
  apply on_decoded_negative; [exact Hmax|apply Hinv].
Qed.

Lemma negative_cache_size_stops_ingestion_witness :
  on_detect negative_cache (nth_device 0) sample_advertisement (initial_state 0)
    = (Raise StopIteration, initial_state 0).
Proof.
  apply (negative_cache_size_stops_ingestion negative_cache (initial_state 0))
    with (source := nth_source 0) (decoded := sample_v4_reading).
  - simpl. lia.
  - exists 0%Q. apply rtc_refl.
  - exists sample_v4, 25%nat. split_and!; [apply lookup_singleton_eq|done|done|done|done].
Defined.

(** ** The writer: accounting and conservation of rows *)

(** A flush, as one equation: nothing to do, not yet due, or the write. *)
Lemma flush_run opts force now bulk_create st :
  flush_buffer_if_needed opts force now bulk_create st =
    match buffer st with
    | [] => (Ret tt, set_last_flush now st)
    | _ :: _ =>
        if negb force
           && (Z.of_nat (length (buffer st)) <? batch_size opts)
           && Qlt_bool (now - last_flush st) (flush_interval opts)
        then (Ret tt, st)
        else flush_write opts bulk_create (buffer st)
               (set_last_flush now (set_buffer [] st))
    end.
Proof.
  unfold flush_buffer_if_needed. unfold mbind, pys_bind.
  rewrite flush_take_run. destruct (buffer st) as [|item rest]; [reflexivity|].
  now destruct (negb force && _ && _).
Qed.

(** How the bulk write ends, by the sink's answer. *)
Lemma flush_write_outcome opts bulk_create rows st :
  exists r st',
    flush_write opts bulk_create rows st = (r, st') /\
    q st' = q st /\ unfinished_tasks st' = unfinished_tasks st /\
    buffer st' = buffer st /\ last_flush st' = last_flush st /\
    ((bulk_create rows = Ret tt /\ r = Ret tt /\ db st' = db st ++ [rows]) \/
     (exists e, bulk_create rows = Raise e /\ db st' = db st /\
                r = if is_Exception e then Ret tt else Raise e)).
Proof.
  destruct (bulk_create rows) as [[]|e] eqn:Hw.
  - destruct (flush_write_committed opts bulk_create rows st Hw)
      as (st' & Hrun & Hdb & _ & Hq & Hu & _ & Hb & Hf).
    exists (Ret tt), st'. split_and!; auto.
  - destruct (is_Exception e) eqn:He.
    + rewrite (flush_write_caught opts bulk_create rows e st Hw He).
      eexists _, _. split_and!; try reflexivity.
      right. exists e. now rewrite He.
    + rewrite (flush_write_not_caught opts bulk_create rows e st Hw He).
      eexists _, _. split_and!; try reflexivity.
      right. exists e. now rewrite He.
Qed.

Lemma Qlt_bool_spec x y : reflect (x < y)%Q (Qlt_bool x y).
Proof.
  unfold Qlt_bool. destruct (Qle_bool y x) eqn:E; simpl; constructor.
  - apply Qle_bool_iff in E. now apply Qle_not_lt.
  - apply Qnot_le_lt. intros Hle. apply Qle_bool_iff in Hle. congruence.
Qed.

(** What is still buffered after a flush is a batch too small and too young
    to be written. *)
Lemma flush_leaves_small_batch opts force now bulk_create st :
  forall st', st' = (flush_buffer_if_needed opts force now bulk_create st).2 ->
  buffer st' = [] \/
  (force = false /\ buffer st' = buffer st /\ last_flush st' = last_flush st /\
   Z.of_nat (length (buffer st')) < batch_size opts /\
   (now - last_flush st' < flush_interval opts)%Q).
Proof.
  intros st' ->. rewrite flush_run.
  destruct (buffer st) as [|item rest] eqn:Hb; [left; simpl; exact Hb|].
  destruct force; simpl.
  - left.
    destruct (flush_write_outcome opts bulk_create (item :: rest)
                (set_last_flush now (set_buffer [] st)))
      as (r & st' & -> & _ & _ & Hbuf & _). exact Hbuf.
  - destruct (Z.ltb_spec (Z.of_nat (S (length rest))) (batch_size opts)) as [Hlt|Hge];
      simpl.
    + destruct (Qlt_bool_spec (now - last_flush st) (flush_interval opts)) as [Hq|Hq].
      * right. simpl. rewrite Hb. simpl. split_and!; auto.
      * left.
        destruct (flush_write_outcome opts bulk_create (item :: rest)
                    (set_last_flush now (set_buffer [] st)))
          as (r & st' & -> & _ & _ & Hbuf & _). exact Hbuf.
    + left.
      destruct (flush_write_outcome opts bulk_create (item :: rest)
                  (set_last_flush now (set_buffer [] st)))
        as (r & st' & -> & _ & _ & Hbuf & _). exact Hbuf.
Qed.

Lemma flush_outcome opts force now bulk_create st :
  exists r st',
    flush_buffer_if_needed opts force now bulk_create st = (r, st') /\
    q st' = q st /\ unfinished_tasks st' = unfinished_tasks st /\
    ((r = Ret tt /\ db st' = db st /\ buffer st' = buffer st) \/
     (r = Ret tt /\ bulk_create (buffer st) = Ret tt /\
      db st' = db st ++ [buffer st] /\ buffer st' = []) \/
     (exists e, bulk_create (buffer st) = Raise e /\ db st' = db st /\ buffer st' = [] /\
                r = if is_Exception e then Ret tt else Raise e)).
Proof.
  rewrite flush_run. destruct (buffer st) as [|item rest] eqn:Hb.
  - eexists _, _. split; [reflexivity|]. simpl. split_and!; auto.
  - destruct (negb force && _ && _).
    + eexists _, _. split; [reflexivity|]. split_and!; auto.
    + destruct (flush_write_outcome opts bulk_create (item :: rest)
                  (set_last_flush now (set_buffer [] st)))
        as (r & st' & Hrun & Hq & Hu & Hbuf & _ & Hout).
      exists r, st'. split; [exact Hrun|]. simpl in *. split_and!; auto.
      right. destruct Hout as [(Hw & -> & Hdb)|(e & Hw & Hdb & ->)].
      * left. auto.
      * right. exists e. auto.
Qed.

Lemma task_done_run st :
  0 < unfinished_tasks st ->
  task_done st = (Ret tt, set_unfinished_tasks (unfinished_tasks st - 1) st).
Proof.
  intros Hu. unfold task_done.
  destruct (Z.leb_spec (unfinished_tasks st) 0); [lia|reflexivity].
Qed.

(** What a turn of the writer does when every queued item is counted. *)
Lemma db_writer_turn_outcome opts now bulk_create st :
  unfinished_tasks st = Z.of_nat (length (q st)) ->
  exists r st',
    db_writer_turn opts now bulk_create st = (r, st') /\
    q st' = List.tl (q st) /\
    unfinished_tasks st' = Z.of_nat (length (q st')) /\
    let batch := buffer st ++ take 1 (q st) in
    ((r = Ret tt /\ db st' = db st /\ buffer st' = batch) \/
     (r = Ret tt /\ bulk_create batch = Ret tt /\
      db st' = db st ++ [batch] /\ buffer st' = []) \/
     (exists e, bulk_create batch = Raise e /\ db st' = db st /\ buffer st' = [] /\
                r = if is_Exception e then Ret tt else Raise e)).
Proof.
  intros Hu. rewrite db_writer_turn_run.
  destruct (q st) as [|item rest] eqn:Hq.
  - destruct (flush_outcome opts false now bulk_create st)
      as (r & st' & -> & Hq' & Hu' & Hout).
    exists r, st'. split; [reflexivity|]. cbn [take]. rewrite app_nil_r.
    simpl. split_and!; [congruence|rewrite Hu', Hq', Hq; exact Hu|exact Hout].
  - set (st0 := set_buffer (buffer st ++ [item]) (set_q rest st)).
    destruct (flush_outcome opts false now bulk_create st0)
      as (r & st1 & -> & Hq1 & Hu1 & Hout).
    rewrite task_done_run by (rewrite Hu1; simpl; simpl in Hu; lia).
    exists r, (set_unfinished_tasks (unfinished_tasks st1 - 1) st1).
    split; [now destruct r|]. simpl.
    split_and!; [exact Hq1|rewrite Hu1, Hq1; simpl; simpl in Hu; lia|exact Hout].
Qed.

(** X18: every item the writer takes is marked done exactly once.  From a
    state in which the queue's count of unfinished tasks equals the number
    of queued items, a turn of the writer takes the oldest item, if there is
    one, and leaves the count equal to the number of items again, also when
    the flush raises: [task_done] never raises [ValueError].  The turn
    returns normally unless the sink raises something that is not an
    [Exception]. *)
Theorem writer_turn_marks_item_done opts now bulk_create st :
  unfinished_tasks st = Z.of_nat (length (q st)) ->
  exists r st',
    db_writer_turn opts now bulk_create st = (r, st') /\
    q st' = List.tl (q st) /\
    unfinished_tasks st' = Z.of_nat (length (q st')) /\
    (r = Ret tt \/
     exists rows e, bulk_create rows = Raise e /\ is_Exception e = false /\ r = Raise e).
Proof.
  intros Hu.
  destruct (db_writer_turn_outcome opts now bulk_create st Hu)
    as (r & st' & Hrun & Hq & Hu' & Hout).
  exists r, st'. split_and!; try assumption.
  destruct Hout as [(-> & _)|[(-> & _)|(e & Hw & _ & _ & ->)]]; [now left..|].
  destruct (is_Exception e) eqn:He; [now left|]. right. eauto.
Qed.

Lemma writer_turn_marks_item_done_witness :
  exists r st',
    db_writer_turn sample_options 1 sink_rejects two_queued_one_buffered = (r, st') /\
    q st' = List.tl (q two_queued_one_buffered) /\
    unfinished_tasks st' = Z.of_nat (length (q st')) /\
    (r = Ret tt \/
     exists rows e, sink_rejects rows = Raise e /\ is_Exception e = false /\ r = Raise e).
Proof.
  apply (writer_turn_marks_item_done sample_options 1 sink_rejects
           two_queued_one_buffered).
  reflexivity.
Defined.

(** The rows after a turn of the writer, whatever the count of unfinished
    tasks. *)
Lemma db_writer_turn_rows opts now bulk_create st :
  exists r st',
    db_writer_turn opts now bulk_create st = (r, st') /\
    q st' = List.tl (q st) /\
    let batch := buffer st ++ take 1 (q st) in
    ((db st' = db st /\ buffer st' = batch) \/
     (bulk_create batch = Ret tt /\ db st' = db st ++ [batch] /\ buffer st' = []) \/
     (exists e, bulk_create batch = Raise e /\ db st' = db st /\ buffer st' = [])).
Proof.
  rewrite db_writer_turn_run.
  destruct (q st) as [|item rest] eqn:Hq.
  - destruct (flush_outcome opts false now bulk_create st)
      as (r & st' & -> & Hq' & _ & Hout).
    exists r, st'. split; [reflexivity|]. cbn [take]. rewrite app_nil_r. simpl.
    split; [congruence|].
    destruct Hout as [(_ & H1 & H2)|[(_ & H1 & H2 & H3)|(e & H1 & H2 & H3 & _)]]; eauto 6.
  - set (st0 := set_buffer (buffer st ++ [item]) (set_q rest st)).
    destruct (flush_outcome opts false now bulk_create st0)
      as (r & st1 & -> & Hq1 & _ & Hout).
    destruct (task_done_frame st1 _ eq_refl) as (Hq2 & _ & Hb2 & Hd2).
    destruct (task_done st1) as [[[]|e'] st2]; eexists _, _; (split; [reflexivity|]);
      simpl in *; rewrite Hq2, Hb2, Hd2; (split; [exact Hq1|]);
      destruct Hout as [(_ & H1 & H2)|[(_ & H1 & H2 & H3)|(e & H1 & H2 & H3 & _)]];
      eauto 6.
Qed.

(** X19: a turn of the writer loses no row unless a write fails.  Whatever
    the state and the sink, after the turn the committed batches, the buffer
    and the queue hold, in the same order, exactly the rows they held
    before; or else the sink raised on the batch made of the buffer and the
    item just taken, and that batch is gone: it is neither written nor kept
    for another attempt. *)
Theorem writer_turn_loses_no_row opts now bulk_create st :
  exists r st',
    db_writer_turn opts now bulk_create st = (r, st') /\
    (rows_held st' = rows_held st \/
     exists e, bulk_create (buffer st ++ take 1 (q st)) = Raise e /\
               rows_held st' = concat (db st) ++ List.tl (q st)).
Proof.
  destruct (db_writer_turn_rows opts now bulk_create st)
    as (r & st' & Hrun & Hq & Hout).
  exists r, st'. split; [exact Hrun|]. unfold rows_held. cbv zeta in Hout.
  destruct (q st) as [|item rest]; simpl in *; rewrite Hq;
    destruct Hout as [(-> & ->)|[(_ & -> & ->)|(e & Hw & -> & ->)]];
    try (right; exists e; split; [exact Hw|reflexivity]);
    left; rewrite ?concat_app; simpl; rewrite ?app_nil_r, <- ?app_assoc; reflexivity.
Qed.

(** X20: what the writer leaves in the buffer is a batch too small and too
    young to be written.  After every turn of the writer, whatever the state
    it started from and whatever the sink did, the buffer is empty, or it
    holds fewer than [batch_size] rows and less than [flush_interval] has
    passed since the last flush. *)
Theorem writer_turn_leaves_small_batch opts now bulk_create st :
  buffer (db_writer_turn opts now bulk_create st).2 = [] \/
  (Z.of_nat (length (buffer (db_writer_turn opts now bulk_create st).2))
     < batch_size opts /\
   (now - last_flush (db_writer_turn opts now bulk_create st).2
      < flush_interval opts)%Q).
Proof.
  rewrite db_writer_turn_run.
  destruct (q st) as [|item rest] eqn:Hq.
  - destruct (flush_leaves_small_batch opts false now bulk_create st _ eq_refl)
      as [Hb|(_ & _ & _ & Hlen & Hage)]; [now left|now right].
  - set (st0 := set_buffer (buffer st ++ [item]) (set_q rest st)).
    pose proof (flush_leaves_small_batch opts false now bulk_create st0 _ eq_refl) as Hf.
    destruct (flush_buffer_if_needed opts false now bulk_create st0) as [r st1].
    assert (Hframe : buffer (task_done st1).2 = buffer st1 /\
                     last_flush (task_done st1).2 = last_flush st1).
    { unfold task_done. now destruct (unfinished_tasks st1 <=? 0). }
    destruct Hframe as [Hb Hl].
    assert (Hsame : forall x : py unit * State,
              x = task_done st1 ->
              (match x with (Ret _, st2) => (r, st2) | (Raise e, st2) => (Raise e, st2) end).2
              = x.2) by (intros [[[]|e] st2] _; reflexivity).
    rewrite (Hsame _ eq_refl), Hb, Hl. simpl in Hf.
    destruct Hf as [Hf|(_ & _ & _ & Hlen & Hage)]; [now left|now right].
Qed.

(** With a sink that accepts every write, the loop of the writer takes one
    item per turn and loses nothing. *)
Lemma db_writer_run opts bulk_create :
  (forall rows, bulk_create rows = Ret tt) ->
  forall nows st,
    unfinished_tasks st = Z.of_nat (length (q st)) ->
    exists st',
      db_writer opts nows bulk_create st = (Ret tt, st') /\
      q st' = drop (length nows) (q st) /\
      unfinished_tasks st' = Z.of_nat (length (q st')) /\
      rows_held st' = rows_held st.
Proof.
  intros Hsink nows. induction nows as [|now later IH]; intros st Hu.
  - exists st. now split_and!.
  - destruct (db_writer_turn_outcome opts now bulk_create st Hu)
      as (r & st1 & Hrun & Hq & Hu1 & Hout).
    assert (Hr : r = Ret tt /\ rows_held st1 = rows_held st).
    { unfold rows_held. cbv zeta in Hout. rewrite Hq.
      destruct (q st) as [|item rest]; simpl in *;
        destruct Hout as [(-> & -> & ->)|[(-> & _ & -> & ->)|(e & Hw & _)]];
        try (rewrite Hsink in Hw; discriminate);
        (split; [reflexivity|]);
        rewrite ?concat_app; simpl; rewrite ?app_nil_r, <- ?app_assoc; reflexivity. }
    destruct Hr as [-> Hrows].
    destruct (IH st1 Hu1) as (st' & Hrun' & Hq' & Hu' & Hrows').
    exists st'. split_and!.
    + cbn [db_writer]. unfold mbind at 1, pys_bind at 1. now rewrite Hrun.
    + rewrite Hq', Hq. simpl. destruct (q st); simpl; rewrite ?drop_nil; reflexivity.
    + exact Hu'.
    + congruence.
Qed.

(** A forced flush with a sink that accepts the write empties the buffer
    into the sink. *)
Lemma forced_flush_commits opts now bulk_create st :
  bulk_create (buffer st) = Ret tt ->
  exists st',
    flush_buffer_if_needed opts true now bulk_create st = (Ret tt, st') /\
    q st' = q st /\ buffer st' = [] /\
    concat (db st') = concat (db st) ++ buffer st.
Proof.
  intros Hw. rewrite flush_run. destruct (buffer st) as [|item rest] eqn:Hb.
  - eexists. split; [reflexivity|]. simpl. now rewrite Hb, app_nil_r.
  - simpl.
    destruct (flush_write_committed opts bulk_create (item :: rest)
                (set_last_flush now (set_buffer [] st)) Hw)
      as (st' & Hrun & Hdb & _ & Hq & _ & _ & Hbuf & _).
    exists st'. split_and!; [exact Hrun|exact Hq|exact Hbuf|].
    rewrite Hdb, concat_app. simpl. now rewrite app_nil_r.
Qed.

(** X21: shutdown drains the worker (lines 251-254).  [q.join()] returns
    when the count of unfinished tasks is zero.  With every queued item
    counted and a sink that accepts every write, the count stays positive
    through the first turns of the writer and is zero after one turn per
    queued item; the forced flush that follows then leaves queue and buffer
    empty, and the sink holds every row that was written, buffered or
    queued, in that order. *)
Theorem shutdown_drains_everything opts nows now bulk_create st :
  (forall rows, bulk_create rows = Ret tt) ->
  unfinished_tasks st = Z.of_nat (length (q st)) ->
  length nows = length (q st) ->
  (forall k, (k < length nows)%nat ->
     0 < unfinished_tasks (db_writer opts (take k nows) bulk_create st).2) /\
  exists st1 st2,
    db_writer opts nows bulk_create st = (Ret tt, st1) /\
    unfinished_tasks st1 = 0 /\
    flush_buffer_if_needed opts true now bulk_create st1 = (Ret tt, st2) /\
    q st2 = [] /\ buffer st2 = [] /\ concat (db st2) = rows_held st.
Proof.
  intros Hsink Hu Hlen. split.
  - intros k Hk.
    destruct (db_writer_run opts bulk_create Hsink (take k nows) st Hu)
      as (st' & -> & Hq & Hu' & _).
    simpl. rewrite Hu', Hq, length_drop, length_take. lia.
  - destruct (db_writer_run opts bulk_create Hsink nows st Hu)
      as (st1 & Hrun & Hq & Hu1 & Hrows).
    assert (Hq1 : q st1 = []) by (rewrite Hq, Hlen; apply drop_all).
    destruct (forced_flush_commits opts now bulk_create st1 (Hsink _))
      as (st2 & Hflush & Hq2 & Hb2 & Hdb2).
    exists st1, st2. split_and!.
    + exact Hrun.
    + rewrite Hu1, Hq1. reflexivity.
    + exact Hflush.
    + congruence.
    + exact Hb2.
    + rewrite Hdb2, <- Hrows. unfold rows_held. now rewrite Hq1, app_nil_r.
Qed.

Lemma shutdown_drains_everything_witness :
  exists st1 st2,
    db_writer sample_options [1; 2]%Q sink_up two_queued_one_buffered = (Ret tt, st1) /\
    unfinished_tasks st1 = 0 /\
    flush_buffer_if_needed sample_options true 3 sink_up st1 = (Ret tt, st2) /\
    q st2 = [] /\ buffer st2 = [] /\
    concat (db st2) = rows_held two_queued_one_buffered.
Proof.
  apply (shutdown_drains_everything sample_options [1; 2]%Q 3 sink_up
           two_queued_one_buffered); reflexivity.
Defined.

(** ** From the bytes on the air to the queued row *)

(** An event whose reading is new and finds room in the queue appends the
    row made from the reading. *)
Lemma on_detect_queues opts device adv mfg decoded raw_len st :
  default ∅ (manufacturer_data adv) !! _COMPANY_ID = Some mfg ->
  mfg <> [] ->
  _pick_address device <> ""%string ->
  _decode_from_mfg_value mfg = Ret (Some decoded, raw_len) ->
  0 <= max_seq_cache opts ->
  Dict.get (last_seq_seen st) (_pick_address device) <> Some (d_seq decoded) ->
  q_full opts st = false ->
  exists st',
    on_detect opts device adv st = (Ret tt, st') /\
    q st' = q st ++ [make_row (_pick_address device) (rssi adv) decoded] /\
    Dict.get (last_seq_seen st') (_pick_address device) = Some (d_seq decoded).
Proof.
  intros Hmd Hne Hsrc Hdec Hmax Hnew Hroom.
  assert (Hc : carries device adv (_pick_address device) decoded)
    by (exists mfg, raw_len; split_and!; done).
  destruct (on_detect_carries opts _ _ _ _ Hc) as (n & ->).
  destruct (on_decoded_fresh opts _ (rssi adv) decoded n st Hmax Hnew)
    as (st' & Hrun & Hget & _ & Hq & _).
  rewrite Hroom in Hq. eauto.
Qed.

(** X22: a V2 advertisement, from the node's bytes to the queued row.  The
    node packs company identifier, tag 2 and eight values in the V2 layout;
    the scanner delivers the bytes after the company identifier under the
    key 0xFFFF.  The callback decodes them by putting the identifier back,
    and when the sequence number is new for the device and the queue has
    room, it appends one row: the device's address, the signal strength (0
    when there is none), the values that were packed with the fixed-point
    ones divided by their scale, and no battery percentage, uptime, dew
    point or location. *)
Theorem stripped_v2_advertisement_is_queued
    opts device adv raw t hum p batt fl s m0 m1 st :
  pack _FMT_V2 [COMPANY_ID; PROTOCOL_V2; t; hum; p; batt; fl; s; m0; m1]
    = Ret (_COMPANY_PREFIX ++ raw) ->
  default ∅ (manufacturer_data adv) !! _COMPANY_ID = Some raw ->
  _pick_address device <> ""%string ->
  0 <= max_seq_cache opts ->
  Dict.get (last_seq_seen st) (_pick_address device) <> Some s ->
  q_full opts st = false ->
  exists st',
    on_detect opts device adv st = (Ret tt, st') /\
    q st' = q st ++ [ {| row_source := _pick_address device;
                         row_rssi := default 0 (rssi adv);
                         row_temp_c := float_div t 100;
                         row_hum_pct := float_div hum 100;
                         row_press_hpa := float_div p 10;
                         row_batt_mv := batt;
                         row_flags := fl;
                         row_seq := s;
                         row_motion0 := m0;
                         row_motion1 := m1;
                         row_batt_pct := None;
                         row_uptime_min := None;
                         row_dew_point_c := None;
                         row_location := None |} ] /\
    Dict.get (last_seq_seen st') (_pick_address device) = Some s.
Proof.
  intros Hp Hmd Hsrc Hmax Hnew Hroom.
  pose proof (StructFacts.pack_length _ _ _ Hp) as Hlen.
  change (calcsize _FMT_V2) with 24%nat in Hlen.
  change (length (_COMPANY_PREFIX ++ raw)) with (S (S (length raw))) in Hlen.
  assert (Hraw : decode_payload raw = Ret None).
  { destruct (decode_payload_returns raw) as [[d|] Hr]; [|exact Hr].
    destruct (proj1 (decode_payload_accepts raw) (ex_intro _ d Hr))
      as [[Hl _]|[_ [[Hl _]|[[Hl _]|[Hl _]]]]]; lia. }
  pose proof (decode_packed_v2 _ _ _ _ _ _ _ _ _ Hp) as Hdec.
  match type of Hdec with
  | _ = Ret (Some ?d) =>
      apply (on_detect_queues opts device adv raw d
               (length (_COMPANY_PREFIX ++ raw)) st Hmd)
  end; try assumption.
  - intros ->. simpl in Hlen. lia.
  - rewrite decode_from_mfg_value_run, Hraw, Hdec. reflexivity.
Qed.

Lemma stripped_v2_advertisement_is_queued_witness :
  exists st',
    on_detect sample_options (nth_device 0) sample_v2_advertisement (initial_state 0)
      = (Ret tt, st') /\
    q st' = q (initial_state 0)
            ++ [ {| row_source := _pick_address (nth_device 0);
                    row_rssi := default 0 (rssi sample_v2_advertisement);
                    row_temp_c := float_div 2234 100;
                    row_hum_pct := float_div 5522 100;
                    row_press_hpa := float_div 10132 10;
                    row_batt_mv := 3700;
                    row_flags := 0;
                    row_seq := 7;
                    row_motion0 := 0;
                    row_motion1 := 0;
                    row_batt_pct := None;
                    row_uptime_min := None;
                    row_dew_point_c := None;
                    row_location := None |} ] /\
    Dict.get (last_seq_seen st') (_pick_address (nth_device 0)) = Some 7.
Proof.
  apply (stripped_v2_advertisement_is_queued sample_options (nth_device 0)
           sample_v2_advertisement sample_v2_stripped 2234 5522 10132 3700 0 7 0 0
           (initial_state 0)).
  - reflexivity.
  - apply lookup_singleton_eq.
  - discriminate.
  - simpl. lia.
  - discriminate.
  - reflexivity.
Defined.

(** X23: a V4 advertisement, from the node's bytes to the queued row.  The
    node packs tag 4, its location and twelve values in the unprefixed V4
    layout, and the scanner delivers these 25 bytes under the key 0xFFFF.
    When the sequence number is new for the device and the queue has room,
    the callback appends one row with the values that were packed, the
    battery percentage, uptime and dew point included, and the location
    clamped to at most 3. *)
Theorem v4_advertisement_is_queued
    opts device adv bs loc t hum p batt fl s m0 m1 pct rsv up dew st :
  pack _FMT_V4_NOPREFIX [PROTOCOL_V4; loc; t; hum; p; batt; fl; s; m0; m1; pct; rsv; up; dew]
    = Ret bs ->
  default ∅ (manufacturer_data adv) !! _COMPANY_ID = Some bs ->
  _pick_address device <> ""%string ->
  0 <= max_seq_cache opts ->
  Dict.get (last_seq_seen st) (_pick_address device) <> Some s ->
  q_full opts st = false ->
  exists st',
    on_detect opts device adv st = (Ret tt, st') /\
    q st' = q st ++ [ {| row_source := _pick_address device;
                         row_rssi := default 0 (rssi adv);
                         row_temp_c := float_div t 100;
                         row_hum_pct := float_div hum 100;
                         row_press_hpa := float_div p 10;
                         row_batt_mv := batt;
                         row_flags := fl;
                         row_seq := s;
                         row_motion0 := m0;
                         row_motion1 := m1;
                         row_batt_pct := Some pct;
                         row_uptime_min := Some up;
                         row_dew_point_c := Some (float_div dew 100);
                         row_location := Some (Z.min loc 3) |} ] /\
    Dict.get (last_seq_seen st') (_pick_address device) = Some s.
Proof.
  intros Hp Hmd Hsrc Hmax Hnew Hroom.
  pose proof (StructFacts.pack_length _ _ _ Hp) as Hlen.
  change (calcsize _FMT_V4_NOPREFIX) with 25%nat in Hlen.
  destruct (decode_packed_v4 _ _ _ _ _ _ _ _ _ _ _ _ _ _ Hp) as [Hdec _].
  match type of Hdec with
  | _ = Ret (Some ?d) =>
      apply (on_detect_queues opts device adv bs d (length bs) st Hmd)
  end; try assumption.
  - intros ->. simpl in Hlen. lia.
  - rewrite decode_from_mfg_value_run, Hdec. reflexivity.
Qed.

Lemma v4_advertisement_is_queued_witness :
  exists st',
    on_detect sample_options (nth_device 0) sample_advertisement (initial_state 0)
      = (Ret tt, st') /\
    q st' = q (initial_state 0)
            ++ [ {| row_source := _pick_address (nth_device 0);
                    row_rssi := default 0 (rssi sample_advertisement);
                    row_temp_c := float_div 2234 100;
                    row_hum_pct := float_div 5522 100;
                    row_press_hpa := float_div 10132 10;
                    row_batt_mv := 3700;
                    row_flags := 0;
                    row_seq := 7;
                    row_motion0 := 1;
                    row_motion1 := 2;
                    row_batt_pct := Some 80;
                    row_uptime_min := Some 10;
                    row_dew_point_c := Some (float_div 10000 100);
                    row_location := Some (Z.min 5 3) |} ] /\
    Dict.get (last_seq_seen st') (_pick_address (nth_device 0)) = Some 7.
Proof.
  apply (v4_advertisement_is_queued sample_options (nth_device 0) sample_advertisement
           sample_v4 5 2234 5522 10132 3700 0 7 1 2 80 0 10 10000 (initial_state 0)).
  - reflexivity.
  - apply lookup_singleton_eq.
  - discriminate.
  - simpl. lia.
  - discriminate.
  - reflexivity.
Defined.

(** ** The battery curve: anchors, saturation, millivolts *)

Module BatteryAnchors.
Import Battery BatteryFacts.

Local Open Scope Q_scope.

Section rounding.

Context (rnd : Q -> Q).
Hypothesis rnd_mono : forall x y, x <= y -> rnd x <= rnd y.
Hypothesis rnd_grid : forall k : Z, (-8192 <= k <= 8192)%Z -> rnd (k # 64) == k # 64.

#[local] Instance rnd_compat : Proper (Qeq ==> Qeq) rnd := rnd_proper rnd rnd_mono.

Section segment.

Context (av : Q) (ap : Z) (bv : Q) (bp : Z).
Hypothesis gap : bv + (1 # 64) <= av.
Hypothesis percents : (0 <= bp <= ap)%Z /\ (ap <= 100)%Z.

(** At the upper end of a segment the fraction is 0, at the lower end 1. *)
Lemma before_int_top :
  before_int rnd av ap bv bp av == inject_Z ap + (1 # 2).
Proof.
  pose proof (divisor_positive rnd rnd_mono rnd_grid av bv gap) as Hd.
  unfold before_int, lerp, fadd, fmul, flit.
  rewrite (slope rnd rnd_mono rnd_grid ap bp percents).
  assert (Ht : rnd (fsub rnd av av / fsub rnd av bv) == 0).
  { unfold fsub at 1.
    assert (He : av - av == 0) by ring. rewrite He, (rnd_0 rnd rnd_mono rnd_grid).
    assert (He' : 0 / fsub rnd av bv == 0) by (unfold Qdiv; ring).
    rewrite He'. apply (rnd_0 rnd rnd_mono rnd_grid). }
  rewrite Ht.
  assert (He : inject_Z (bp - ap) * 0 == 0) by ring.
  rewrite He, (rnd_0 rnd rnd_mono rnd_grid), (rnd_one_half rnd rnd_mono rnd_grid).
  unfold of_int. rewrite (rnd_int rnd rnd_mono rnd_grid ap) by lia.
  assert (He2 : inject_Z ap + 0 == inject_Z ap) by ring.
  rewrite He2, (rnd_int rnd rnd_mono rnd_grid ap) by lia.
  apply (rnd_half rnd rnd_mono rnd_grid). lia.
Qed.

Lemma before_int_bottom :
  before_int rnd av ap bv bp bv == inject_Z bp + (1 # 2).
Proof.
  pose proof (divisor_positive rnd rnd_mono rnd_grid av bv gap) as Hd.
  unfold before_int, lerp, fadd, fmul, flit.
  rewrite (slope rnd rnd_mono rnd_grid ap bp percents).
  assert (Ht : rnd (fsub rnd av bv / fsub rnd av bv) == 1).
  { assert (He : fsub rnd av bv / fsub rnd av bv == 1) by (field; lra).
    rewrite He. apply (rnd_1 rnd rnd_mono rnd_grid). }
  rewrite Ht.
  assert (He : inject_Z (bp - ap) * 1 == inject_Z (bp - ap)) by ring.
  rewrite He, (rnd_int rnd rnd_mono rnd_grid (bp - ap)) by lia.
  rewrite (rnd_one_half rnd rnd_mono rnd_grid).
  unfold of_int. rewrite (rnd_int rnd rnd_mono rnd_grid ap) by lia.
  assert (He2 : inject_Z ap + inject_Z (bp - ap) == inject_Z bp)
    by (rewrite inject_Z_minus; ring).
  rewrite He2, (rnd_int rnd rnd_mono rnd_grid bp) by lia.
  apply (rnd_half rnd rnd_mono rnd_grid). lia.
Qed.

Lemma to_int_half n x : (0 <= n)%Z -> x == inject_Z n + (1 # 2) -> to_int x = n.
Proof.
  intros Hn Hx.
  pose proof (to_int_bounds x n n Hn) as Hb.
  assert (n <= to_int x <= n)%Z by (apply Hb; lra). lia.
Qed.

Lemma interpolate_top : interpolate rnd av ap bv bp av = Ret ap.
Proof.
  rewrite (interpolate_run rnd rnd_mono rnd_grid av ap bv bp gap).
  rewrite (to_int_half ap) by (lia || apply before_int_top).
  f_equal. lia.
Qed.

Lemma interpolate_bottom : interpolate rnd av ap bv bp bv = Ret bp.
Proof.
  rewrite (interpolate_run rnd rnd_mono rnd_grid av ap bv bp gap).
  rewrite (to_int_half bp) by (lia || apply before_int_bottom).
  f_equal. lia.
Qed.

End segment.

(** Every anchor of a well-formed curve lies between its ends. *)
Lemma well_formed_range rest : forall av ap,
  well_formed ((av, ap) :: rest) ->
  forall x, In x ((av, ap) :: rest) -> x.1 <= av.
Proof.
  induction rest as [|[bv bp] rest IH]; intros av ap Hwf x Hin.
  - destruct Hin as [<-|[]]. simpl. lra.
  - destruct Hwf as (Hgap & _ & Hwf). destruct Hin as [<-|Hin]; [simpl; lra|].
    pose proof (IH bv bp Hwf x Hin). lra.
Qed.

(** The loop returns at an anchor the percentage listed with it. *)
Lemma scan_anchor rest : forall av ap,
  rest <> [] ->
  well_formed ((av, ap) :: rest) ->
  forall x, In x ((av, ap) :: rest) -> scan rnd ((av, ap) :: rest) x.1 = Ret (Some x.2).
Proof.
  induction rest as [|[bv bp] rest IH]; intros av ap Hne Hwf x Hin; [contradiction|].
  pose proof Hwf as (Hgap & Hp & Hwf').
  destruct (well_formed_lowest rest bv bp Hwf') as (_ & Hlp & Hb).
  assert (Hperc : (0 <= bp <= ap)%Z /\ (ap <= 100)%Z) by lia.
  rewrite scan_step.
  destruct Hin as [<-|[<-|Hin]]; cbn [fst snd].
  - assert (H1 : Qle_bool av av = true) by (apply Qle_bool_iff; lra).
    assert (H2 : Qle_bool bv av = true) by (apply Qle_bool_iff; lra).
    rewrite H1, H2. cbn [andb].
    now rewrite (interpolate_top av ap bv bp Hgap Hperc).
  - assert (H1 : Qle_bool bv av = true) by (apply Qle_bool_iff; lra).
    assert (H2 : Qle_bool bv bv = true) by (apply Qle_bool_iff; lra).
    rewrite H1, H2. cbn [andb].
    now rewrite (interpolate_bottom av ap bv bp Hgap Hperc).
  - destruct rest as [|[cv cp] rest']; [destruct Hin|].
    pose proof Hwf' as (Hgap' & _ & Hwf'').
    pose proof (well_formed_range rest' cv cp Hwf'' x Hin) as Hx.
    assert (H2 : Qle_bool bv x.1 = false).
    { destruct (Qle_bool bv x.1) eqn:E; [|reflexivity].
      apply Qle_bool_iff in E. lra. }
    rewrite H2, andb_false_r.
    apply (IH bv bp ltac:(discriminate) Hwf' x). now right.
Qed.

Lemma well_formed_above_lowest rest : forall av ap,
  well_formed ((av, ap) :: rest) ->
  forall x, In x ((av, ap) :: rest) -> (lowest ((av, ap) :: rest)).1 <= x.1.
Proof.
  induction rest as [|[bv bp] rest IH]; intros av ap Hwf x Hin.
  - destruct Hin as [<-|[]]. simpl. lra.
  - pose proof Hwf as (Hgap & _ & Hwf').
    change (lowest ((av, ap) :: (bv, bp) :: rest)) with (lowest ((bv, bp) :: rest)).
    destruct Hin as [<-|Hin]; [|now apply IH].
    destruct (well_formed_lowest rest bv bp Hwf') as (Hl & _). simpl. lra.
Qed.

Lemma clamp_inside v lo hi : lo <= v -> v <= hi -> clamp v lo hi == v.
Proof.
  intros Hlo Hhi. unfold clamp, py_max, py_min, Qlt_bool.
  destruct (Qle_bool hi v) eqn:E1; cbn [negb];
    destruct (Qle_bool _ lo) eqn:E2; cbn [negb];
    try apply Qle_bool_iff in E1; try apply Qle_bool_iff in E2;
    try (assert (~ hi <= v) by (rewrite <- Qle_bool_iff; congruence));
    try (assert (~ v <= lo) by (rewrite <- Qle_bool_iff; congruence));
    try (assert (~ hi <= lo) by (rewrite <- Qle_bool_iff; congruence));
    lra.
Qed.

(** The result depends on the value of the voltage only. *)
Lemma voltage_to_percent_compat v v' :
  v == v' -> voltage_to_percent rnd v = voltage_to_percent rnd v'.
Proof.
  intros He.
  destruct (voltage_to_percent_mono rnd rnd_mono rnd_grid v v')
    as (p1 & p2 & H1 & H2 & Hle & _); [lra|].
  destruct (voltage_to_percent_mono rnd rnd_mono rnd_grid v' v)
    as (q1 & q2 & H3 & H4 & Hle' & _); [lra|].
  rewrite H1, H2. rewrite H1 in H4. rewrite H2 in H3.
  injection H3 as <-. injection H4 as <-. f_equal. lia.
Qed.

Lemma curve_ends :
  flit rnd (320 # 100) <= flit rnd (420 # 100).
Proof. unfold flit. apply rnd_mono. unfold Qle; cbn; lia. Qed.

(** At every anchor of the table the result is the percentage listed. *)
Lemma anchors_exact :
  Forall (fun a => voltage_to_percent rnd a.1 = Ret a.2) (_CURVE rnd).
Proof.
  apply List.Forall_forall. intros x Hin.
  pose proof (curve_well_formed rnd rnd_mono rnd_grid) as Hwf.
  assert (Hne : List.tl (_CURVE rnd) <> []) by (unfold _CURVE; simpl; discriminate).
  change (_CURVE rnd) with ((flit rnd (420 # 100), 100%Z) :: List.tl (_CURVE rnd))
    in Hwf, Hin.
  pose proof (well_formed_range _ _ _ Hwf x Hin) as Hhi.
  pose proof (well_formed_above_lowest _ _ _ Hwf x Hin) as Hlo.
  change (lowest _).1 with (flit rnd (320 # 100)) in Hlo.
  pose proof (scan_anchor _ _ _ Hne Hwf x Hin) as Hs.
  change ((flit rnd (420 # 100), 100%Z) :: List.tl (_CURVE rnd)) with (_CURVE rnd) in Hs.
  pose proof (clamp_inside x.1 _ _ Hlo Hhi) as Hc.
  pose proof (clamp_range x.1 _ _ curve_ends) as [Hc1 Hc2].
  unfold voltage_to_percent.
  set (c := clamp x.1 (flit rnd (320 # 100)) (flit rnd (420 # 100))) in *.
  destruct (scan_mono rnd rnd_mono rnd_grid (List.tl (_CURVE rnd))
              (flit rnd (420 # 100)) 100%Z Hne Hwf c x.1 Hc1 ltac:(lra) Hhi)
    as (p1 & p2 & Hs1 & Hs2 & Hle & _).
  destruct (scan_mono rnd rnd_mono rnd_grid (List.tl (_CURVE rnd))
              (flit rnd (420 # 100)) 100%Z Hne Hwf x.1 c Hlo ltac:(lra) Hc2)
    as (q1 & q2 & Hs3 & Hs4 & Hle' & _).
  change ((flit rnd (420 # 100), 100%Z) :: List.tl (_CURVE rnd)) with (_CURVE rnd) in *.
  rewrite Hs1. unfold mbind, py_bind, Py.bind.
  rewrite Hs in Hs2, Hs3. rewrite Hs1 in Hs4.
  injection Hs2 as <-. injection Hs3 as <-. injection Hs4 as <-. f_equal. lia.
Qed.

Lemma at_top : voltage_to_percent rnd (flit rnd (420 # 100)) = Ret 100%Z.
Proof.
  pose proof anchors_exact as Ha. rewrite List.Forall_forall in Ha.
  apply (Ha (flit rnd (420 # 100), 100%Z)).
  unfold _CURVE. simpl. auto.
Qed.

Lemma at_bottom : voltage_to_percent rnd (flit rnd (320 # 100)) = Ret 0%Z.
Proof.
  pose proof anchors_exact as Ha. rewrite List.Forall_forall in Ha.
  apply (Ha (flit rnd (320 # 100), 0%Z)).
  unfold _CURVE. simpl. tauto.
Qed.

(** Total, within 0..100, and flat outside the table. *)
Lemma voltage_to_percent_range v :
  exists p, voltage_to_percent rnd v = Ret p /\ (0 <= p <= 100)%Z /\
    (flit rnd (420 # 100) <= v -> p = 100%Z) /\
    (v <= flit rnd (320 # 100) -> p = 0%Z).
Proof.
  destruct (voltage_to_percent_mono rnd rnd_mono rnd_grid v v)
    as (p & p' & Hp & Hp' & _ & H0 & H100); [lra|].
  rewrite Hp in Hp'. injection Hp' as <-.
  exists p. split; [exact Hp|]. split; [lia|]. split.
  - intros Hv.
    destruct (voltage_to_percent_mono rnd rnd_mono rnd_grid _ v Hv)
      as (p1 & p2 & H1 & H2 & Hle & _).
    rewrite at_top in H1. rewrite Hp in H2. injection H1 as <-. injection H2 as <-. lia.
  - intros Hv.
    destruct (voltage_to_percent_mono rnd rnd_mono rnd_grid v _ Hv)
      as (p1 & p2 & H1 & H2 & Hle & _).
    rewrite at_bottom in H2. rewrite Hp in H1. injection H1 as <-. injection H2 as <-. lia.
Qed.



End rounding.

End BatteryAnchors.

(** X24: the curve passes through its table.  For every rounding [rnd] that
    is monotone and exact on the multiples of 1/64 up to 128, at each of the
    thirteen anchor voltages of [_CURVE] the function
    [voltage_to_percent] returns exactly the percentage listed with it. *)
Theorem curve_anchors_are_exact (rnd : Q -> Q) :
  (forall x y, (x <= y)%Q -> (rnd x <= rnd y)%Q) ->
  (forall k : Z, -8192 <= k <= 8192 -> (rnd (k # 64) == k # 64)%Q) ->
  Forall (fun a => Battery.voltage_to_percent rnd a.1 = Ret a.2) (Battery._CURVE rnd).
Proof. exact (BatteryAnchors.anchors_exact rnd). Qed.

Lemma curve_anchors_are_exact_witness :
  Forall (fun a => Battery.voltage_to_percent Battery.exact a.1 = Ret a.2)
         (Battery._CURVE Battery.exact).
Proof.
  apply (curve_anchors_are_exact Battery.exact).
  - intros x y Hxy. exact Hxy.
  - intros k _. reflexivity.
Defined.

(** X25: [voltage_to_percent] is total and saturates.  For every rounding as
    above and every voltage, inside the table or not, the call returns (the
    division never fails) a percentage in 0..100; it is 100 for every
    voltage at or above the anchor 4.20 and 0 for every voltage at or below
    the anchor 3.20. *)
Theorem voltage_to_percent_total_and_saturates (rnd : Q -> Q) (v : Q) :
  (forall x y, (x <= y)%Q -> (rnd x <= rnd y)%Q) ->
  (forall k : Z, -8192 <= k <= 8192 -> (rnd (k # 64) == k # 64)%Q) ->
  exists p,
    Battery.voltage_to_percent rnd v = Ret p /\ 0 <= p <= 100 /\
    ((Battery.flit rnd (420 # 100) <= v)%Q -> p = 100) /\
    ((v <= Battery.flit rnd (320 # 100))%Q -> p = 0).
Proof.
  intros Hmono Hgrid. exact (BatteryAnchors.voltage_to_percent_range rnd Hmono Hgrid v).
Qed.

Lemma voltage_to_percent_total_and_saturates_witness :
  exists p,
    Battery.voltage_to_percent Battery.exact 5 = Ret p /\ 0 <= p <= 100 /\
    ((Battery.flit Battery.exact (420 # 100) <= 5)%Q -> p = 100) /\
    ((5 <= Battery.flit Battery.exact (320 # 100))%Q -> p = 0).
Proof.
  apply (voltage_to_percent_total_and_saturates Battery.exact 5).
  - intros x y Hxy. exact Hxy.
  - intros k _. reflexivity.
Defined.



(** ** What [--debug] changes *)

Ltac same_fields H :=
  match type of H with
  | same_but_logs ?st ?st' =>
      destruct st, st'; unfold same_but_logs in H; simpl in H;
      destruct H as (? & ? & ? & ? & ? & ?); subst
  end.

Lemma on_detect_debug opts b device adv st st' :
  same_but_logs st st' ->
  (on_detect (with_debug b opts) device adv st').1 = (on_detect opts device adv st).1 /\
  same_but_logs (on_detect opts device adv st).2
                (on_detect (with_debug b opts) device adv st').2.
Proof.
  intros H. same_fields H.
  unfold on_detect, on_decoded, _is_duplicate, _remember_seq, put_nowait, q_full,
    is_QueueFull, same_but_logs.
  destruct (default ∅ (manufacturer_data adv) !! _COMPANY_ID) as [[|x mfg]|];
    [now split_and!| |now split_and!].
  destruct (String.eqb (_pick_address device) ""); [now split_and!|].
  run_pys.
  destruct (_decode_from_mfg_value (x :: mfg)) as [[[d|] n]|e]; simpl.
  - destruct (Dict.get _ _) as [prev|]; simpl.
    + destruct (prev =? d_seq d); simpl.
      * destruct b, (debug opts); simpl; now split_and!.
      * destruct (max_seq_cache opts <? _); simpl;
          [destruct last_seq_seen0; simpl; [now split_and!|]|];
          destruct (queue_max opts <=? 0); simpl;
          try destruct (queue_max opts <=? _); simpl;
          destruct b, (debug opts); simpl; now split_and!.
    + destruct (max_seq_cache opts <? _); simpl;
        [destruct last_seq_seen0; simpl; [now split_and!|]|];
        destruct (queue_max opts <=? 0); simpl;
        try destruct (queue_max opts <=? _); simpl;
        destruct b, (debug opts); simpl; now split_and!.
  - destruct b, (debug opts); simpl; now split_and!.
  - now split_and!.
Qed.

Lemma flush_debug opts b force now bulk_create st st' :
  same_but_logs st st' ->
  (flush_buffer_if_needed (with_debug b opts) force now bulk_create st').1
    = (flush_buffer_if_needed opts force now bulk_create st).1 /\
  same_but_logs (flush_buffer_if_needed opts force now bulk_create st).2
                (flush_buffer_if_needed (with_debug b opts) force now bulk_create st').2.
Proof.
  intros H. same_fields H. rewrite !flush_run. cbn [buffer last_flush].
  change (flush_interval (with_debug b opts)) with (flush_interval opts).
  change (batch_size (with_debug b opts)) with (batch_size opts).
  destruct buffer0 as [|item rest]; [now split_and!|].
  destruct (negb force && _ && _); [now split_and!|].
  unfold flush_write, same_but_logs. run_pys.
  destruct (bulk_create (item :: rest)) as [[]|e]; simpl.
  - destruct b, (debug opts); simpl; now split_and!.
  - destruct (is_Exception e); simpl; now split_and!.
Qed.

Lemma db_writer_turn_debug opts b now bulk_create st st' :
  same_but_logs st st' ->
  (db_writer_turn (with_debug b opts) now bulk_create st').1
    = (db_writer_turn opts now bulk_create st).1 /\
  same_but_logs (db_writer_turn opts now bulk_create st).2
                (db_writer_turn (with_debug b opts) now bulk_create st').2.
Proof.
  intros H. rewrite !db_writer_turn_run.
  assert (Hq : q st' = q st) by apply H. rewrite Hq.
  destruct (q st) as [|item rest]; [now apply flush_debug|].
  assert (Hb : buffer st' = buffer st) by apply H. rewrite Hb.
  assert (H0 : same_but_logs (set_buffer (buffer st ++ [item]) (set_q rest st))
                             (set_buffer (buffer st ++ [item]) (set_q rest st'))).
  { destruct H as (_ & Hu & Hc & _ & Hf & Hd). now split_and!. }
  destruct (flush_debug opts b false now bulk_create _ _ H0) as [Hr Hs].
  destruct (flush_buffer_if_needed opts false now bulk_create _) as [r st1].
  destruct (flush_buffer_if_needed (with_debug b opts) false now bulk_create _)
    as [r' st1'].
  simpl in Hr, Hs. subst r'. unfold task_done.
  assert (Hu : unfinished_tasks st1' = unfinished_tasks st1) by apply Hs. rewrite Hu.
  destruct (unfinished_tasks st1 <=? 0); simpl.
  - split; [reflexivity|exact Hs].
  - split; [reflexivity|]. destruct Hs as (? & ? & ? & ? & ? & ?).
    unfold same_but_logs. simpl. now split_and!.
Qed.

(** X27: [--debug] changes only what is printed.  Run with or without
    [--debug] from two states that differ at most in the output written so
    far, the scanner callback, a turn of the writer and a flush return the
    same result (or raise the same exception) and leave the same queue, task
    count, dedup cache, buffer, flush timer and sink. *)
Theorem debug_only_changes_output opts b device adv force now bulk_create st st' :
  same_but_logs st st' ->
  ((on_detect (with_debug b opts) device adv st').1 = (on_detect opts device adv st).1 /\
   same_but_logs (on_detect opts device adv st).2
                 (on_detect (with_debug b opts) device adv st').2) /\
  ((db_writer_turn (with_debug b opts) now bulk_create st').1
     = (db_writer_turn opts now bulk_create st).1 /\
   same_but_logs (db_writer_turn opts now bulk_create st).2
                 (db_writer_turn (with_debug b opts) now bulk_create st').2) /\
  ((flush_buffer_if_needed (with_debug b opts) force now bulk_create st').1
     = (flush_buffer_if_needed opts force now bulk_create st).1 /\
   same_but_logs (flush_buffer_if_needed opts force now bulk_create st).2
                 (flush_buffer_if_needed (with_debug b opts) force now bulk_create st').2).
Proof.
  intros H. split_and!.
  - now apply on_detect_debug.
  - now apply on_detect_debug.
  - now apply db_writer_turn_debug.
  - now apply db_writer_turn_debug.
  - now apply flush_debug.
  - now apply flush_debug.
Qed.

Lemma debug_only_changes_output_witness :
  ((on_detect (with_debug true sample_options) (nth_device 0) sample_advertisement
      seen_nine).1
   = (on_detect sample_options (nth_device 0) sample_advertisement seen_nine).1 /\
   same_but_logs
     (on_detect sample_options (nth_device 0) sample_advertisement seen_nine).2
     (on_detect (with_debug true sample_options) (nth_device 0) sample_advertisement
        seen_nine).2) /\
  ((db_writer_turn (with_debug true sample_options) 1 sink_up seen_nine).1
     = (db_writer_turn sample_options 1 sink_up seen_nine).1 /\
   same_but_logs (db_writer_turn sample_options 1 sink_up seen_nine).2
                 (db_writer_turn (with_debug true sample_options) 1 sink_up seen_nine).2) /\
  ((flush_buffer_if_needed (with_debug true sample_options) true 1 sink_up seen_nine).1
     = (flush_buffer_if_needed sample_options true 1 sink_up seen_nine).1 /\
   same_but_logs
     (flush_buffer_if_needed sample_options true 1 sink_up seen_nine).2
     (flush_buffer_if_needed (with_debug true sample_options) true 1 sink_up seen_nine).2).
Proof.
  apply (debug_only_changes_output sample_options true (nth_device 0)
           sample_advertisement true 1 sink_up seen_nine seen_nine).
  now split_and!.
Defined.

(** X28: [clamp(v, lo, hi)].  With [lo <= hi] the result lies in
    [lo..hi], and it is [v] for every [v] in that range; with crossed
    bounds, [hi < lo], the result is [lo] whatever [v] is. *)
Theorem clamp_confines (v lo hi : Q) :
  ((lo <= hi)%Q ->
   (lo <= Battery.clamp v lo hi <= hi)%Q /\
   ((lo <= v <= hi)%Q -> (Battery.clamp v lo hi == v)%Q)) /\
  ((hi < lo)%Q -> Battery.clamp v lo hi = lo).
Proof.
  split.
  - intros Hle. split.
    + now apply BatteryFacts.clamp_range.
    + intros [Hlo Hhi]. now apply BatteryAnchors.clamp_inside.
  - intros Hlt. unfold Battery.clamp, py_max.
    destruct (Qlt_bool_spec lo (py_min hi v)) as [Hm|_]; [|reflexivity].
    exfalso. unfold py_min in Hm.
    destruct (Qlt_bool_spec v hi) as [Hv|_].
    + apply (Qlt_irrefl lo). eapply Qlt_trans; [exact Hm|]. eapply Qlt_trans; eassumption.
    + apply (Qlt_irrefl lo). eapply Qlt_trans; eassumption.
Qed.
